(** * HTS classification: retrieval, request pipeline and embedding backfill

    A shallow embedding of
      - [backend/utils/retrieval.js]   ([retrieveHTSCodes]),
      - [routes/classify.routes.js]    (the [router.post("/")] handler),
      - the embedding script           ([generateEmbeddings]),
    followed by the properties of these programs.

    Conventions.
      - A JavaScript string is the list of its UTF-16 code units.
      - A JavaScript / PostgreSQL double is the rational ([Q]) it stands
        for.  The product [c.similarity * 100] of the handler is rounded to
        the nearest binary64 number, as IEEE 754 multiplication does;
        NaN, the infinities and the sign of zero are not represented.
      - The outside world (embedding service, PostgreSQL failures, the
        pgvector distance operator, the language model) is a record of
        oracles indexed by a clock that counts the external calls made so
        far, so an oracle may answer the same question differently later.
      - Effects are threaded through a state-and-exception monad whose state
        holds the table [tariff_codes], the clock, the trace of effects and
        the mutable local variables of the running function. *)

From Stdlib Require Import String Ascii DecimalString.
From Stdlib Require Import List ZArith NArith QArith Qround Qpower Qabs.
From Stdlib Require Import Bool Lia Lqa.
From Stdlib Require Import Sorted Permutation DecimalN.
Import ListNotations.

Local Open Scope Z_scope.

(* ================================================================== *)
(** ** JavaScript strings and values *)

Definition JsString := list N.

(** A literal whose characters are all ASCII. *)
Definition lit (s : string) : JsString :=
  map N_of_ascii (list_ascii_of_string s).

Fixpoint js_eqb (a b : JsString) : bool :=
  match a, b with
  | [], [] => true
  | x :: a', y :: b' => N.eqb x y && js_eqb a' b'
  | _, _ => false
  end.

(** ECMAScript WhiteSpace and LineTerminator code points, the characters
    removed by [String.prototype.trim]. *)
Definition isWhiteSpace (c : N) : bool :=
  match c with
  | 9 | 10 | 11 | 12 | 13 | 32 | 160 | 5760
  | 8232 | 8233 | 8239 | 8287 | 12288 | 65279 => true
  | _ => N.leb 8192 c && N.leb c 8202
  end%N.

Fixpoint trimStart (s : JsString) : JsString :=
  match s with
  | [] => []
  | c :: s' => if isWhiteSpace c then trimStart s' else s
  end.

Definition trimEnd (s : JsString) : JsString := rev (trimStart (rev s)).

Definition trim (s : JsString) : JsString := trimEnd (trimStart s).

(** [Array.prototype.join] on strings. *)
Fixpoint join (sep : JsString) (l : list JsString) : JsString :=
  match l with
  | [] => []
  | [x] => x
  | x :: l' => x ++ sep ++ join sep l'
  end.

(** Decimal rendering of a non-negative integer. *)
Definition decimal (n : N) : JsString :=
  lit (NilZero.string_of_uint (N.to_uint n)).

(** A nullable text column interpolated in a template literal. *)
Definition interpolate (s : option JsString) : JsString :=
  match s with
  | Some s => s
  | None => lit "null"
  end.

(** What a JSON request body can hold in a field. *)
Inductive JsValue :=
| JsUndefined
| JsNull
| JsStr (s : JsString)
| JsNumber (q : Q)
| JsBoolean (b : bool)
| JsObject.

(* ------------------------------------------------------------------ *)
(** *** [Number.prototype.toFixed(1)] and [parseFloat] of its result *)

(** The integer [n] for which [n / 10] is closest to [x], the larger one on
    a tie, for [x >= 0]. *)
Definition nearest_tenth (x : Q) : Z := Qfloor (x * 10 + (1 # 2))%Q.

(** [x.toFixed(1)] handles the sign first ([x < 0]) and rounds the
    magnitude; [toFixed1_tenths] is the rounded magnitude in tenths. *)
Definition toFixed1_sign (x : Q) : bool := negb (Qle_bool 0 x).

Definition toFixed1_tenths (x : Q) : Z :=
  if toFixed1_sign x then nearest_tenth (- x)%Q else nearest_tenth x.

Definition toFixed1 (x : Q) : JsString :=
  let n := toFixed1_tenths x in
  (if toFixed1_sign x then lit "-" else [])
    ++ decimal (Z.to_N (n / 10)) ++ lit "." ++ decimal (Z.to_N (n mod 10)).

(** [parseFloat(x.toFixed(1))]: the decimal written by [toFixed1] read
    back as a number.  The value is that decimal, which is also what
    [res.json] prints for the number read. *)
Definition parseFloat_toFixed1 (x : Q) : Q :=
  let n := (inject_Z (toFixed1_tenths x) / 10)%Q in
  if toFixed1_sign x then (- n)%Q else n.

(* ------------------------------------------------------------------ *)
(** *** The [*] of two numbers

    [x * y] on JavaScript numbers is the exact product rounded to the
    nearest binary64 number, ties to the even significand.  The functions
    below cover the finite range: a product of magnitude [2^1024] or more,
    which JavaScript turns into an infinity, is out of their scope. *)

(** The integer nearest to [x >= 0], the even one on a tie. *)
Definition round_half_even (x : Q) : Z :=
  let f := Qfloor x in
  match (x - inject_Z f ?= 1 # 2)%Q with
  | Lt => f
  | Gt => f + 1
  | Eq => if Z.even f then f else f + 1
  end.

(** The exponent of the binade of [x > 0]: [2^k <= x < 2^(k+1)]. *)
Definition ilog2 (x : Q) : Z :=
  let k := Z.log2 (Qnum x) - Z.log2 (Zpos (Qden x)) in
  if Qle_bool (2 ^ k) x then k else k - 1.

(** The binary64 number nearest to [x >= 0]: a significand of 53 bits
    above the exponent [e], which is at least -1074 (subnormal numbers). *)
Definition fl64_magnitude (x : Q) : Q :=
  let e := Z.max (ilog2 x - 52) (-1074) in
  (inject_Z (round_half_even (x / 2 ^ e)) * 2 ^ e)%Q.

Definition fl64 (x : Q) : Q :=
  if Qle_bool 0 x then fl64_magnitude x else (- fl64_magnitude (- x))%Q.

(** [x * y] on numbers. *)
Definition js_mul (x y : Q) : Q := fl64 (x * y).

(* ================================================================== *)
(** ** Data model *)

Definition Vector := list Q.

(** A row of [tariff_codes], with the columns the programs use. *)
Record TariffCode := {
  id : Z;
  htsno : option JsString;
  descript : option JsString;
  general : option JsString;
  special : option JsString;
  indent : Z;
  embedding : option Vector
}.

(** A row returned by the search query of [retrieveHTSCodes]. *)
Record Candidate := {
  code : JsString;
  description : option JsString;
  c_general : option JsString;
  c_special : option JsString;
  c_indent : Z;
  similarity : Q
}.

(** A row returned by the batch query of [generateEmbeddings]. *)
Record BatchRow := {
  b_htsno : JsString;
  b_descript : option JsString;
  b_indent : Z
}.

(** The value returned by [hf.featureExtraction]: a flat array, or an array
    of arrays. *)
Inductive HfOutput :=
| HfFlat (v : Vector)
| HfNested (m : list Vector).

(** [Array.isArray(e[0]) ? e[0] : e] *)
Definition flatten (e : HfOutput) : Vector :=
  match e with
  | HfFlat v => v
  | HfNested [] => []
  | HfNested (v :: _) => v
  end.

(** The object validated by [classificationSchema]. *)
Record Classification := {
  hts_code : JsString;
  hts_code_description : JsString;
  confidence : Q;
  chapter : JsString;
  chapter_description : JsString;
  heading : JsString;
  heading_description : JsString;
  subheading : JsString;
  subheading_description : JsString;
  reasoning_brief : JsString;
  alternative_codes : list JsString
}.

(** Variables passed to [classificationChain.invoke]. *)
Record ClassificationInput := {
  ci_product_description : JsString;
  ci_country_of_origin : JsValue;
  ci_candidates : JsString;
  ci_format_instructions : JsString
}.

(** Variables passed to [justificationChain.invoke]. *)
Record JustificationInput := {
  ji_product_description : JsString;
  ji_hts_code : JsString;
  ji_hts_code_description : JsString;
  ji_chapter : JsString;
  ji_chapter_description : JsString;
  ji_heading : JsString;
  ji_heading_description : JsString;
  ji_subheading : JsString;
  ji_subheading_description : JsString;
  ji_alternatives : JsString;
  ji_reasoning_brief : JsString
}.

(** The queries sent through [pool.query]. *)
Inductive Query :=
| SearchQuery (q : Vector) (k : Z)
| CountQuery
| BatchQuery (limit : Z)
| UpdateQuery (e : Vector) (h : JsString).

(** The message of a thrown error. *)
Definition Exn := JsString.

(** Observable effects, most recent first in a trace. *)
Inductive Event :=
| EvEmbed (inputs : JsString)
| EvQuery (q : Query)
| EvClassify (i : ClassificationInput)
| EvJustify (i : JustificationInput)
| EvConsoleError (label : JsString) (e : Exn)
| EvSleep (ms : Z)
| EvPoolEnd.

(** The collaborators outside the repository.  The first argument of an
    oracle is the clock.  [llm_structured] is the reply of the model read
    as the object of the schema, [reply_text] the text of that reply, and
    [zod_error_text] the text of the error with which the schema rejects
    an object. *)
Record World := {
  featureExtraction : nat -> JsString -> Exn + HfOutput;
  query_failure : nat -> Query -> option Exn;
  cosine_distance_op : Vector -> Vector -> Q;
  llm_structured : nat -> ClassificationInput -> Exn + Classification;
  reply_text : nat -> ClassificationInput -> JsString;
  zod_error_text : Classification -> JsString;
  llm_content : nat -> JustificationInput -> Exn + JsString;
  getFormatInstructions : JsString
}.

(* ================================================================== *)
(** ** The effect monad *)

Record St (L : Type) := mkSt {
  table : list TariffCode;
  clock : nat;
  trace : list Event;
  locals : L
}.
Arguments mkSt {L}.
Arguments table {L}.
Arguments clock {L}.
Arguments trace {L}.
Arguments locals {L}.

Definition M (L A : Type) : Type := St L -> St L * (Exn + A).

Definition ret {L A} (a : A) : M L A := fun s => (s, inr a).

Definition throw {L A} (e : Exn) : M L A := fun s => (s, inl e).

Definition bind {L A B} (m : M L A) (f : A -> M L B) : M L B :=
  fun s =>
    match m s with
    | (s', inl e) => (s', inl e)
    | (s', inr a) => f a s'
    end.

Definition try_catch {L A} (m : M L A) (h : Exn -> M L A) : M L A :=
  fun s =>
    match m s with
    | (s', inl e) => h e s'
    | r => r
    end.

Declare Scope io_scope.
Delimit Scope io_scope with io.
Notation "x <- m ;; k" := (bind m (fun x => k))
  (at level 61, m at next level, right associativity) : io_scope.
Notation "m ;;; k" := (bind m (fun _ => k))
  (at level 61, right associativity) : io_scope.
Local Open Scope io_scope.

(** One external call: the event is recorded and the clock advances. *)
Definition tick {L} (ev : Event) : M L nat :=
  fun s => (mkSt (table s) (S (clock s)) (ev :: trace s) (locals s),
            inr (clock s)).

(** An effect that is not an external call. *)
Definition emit {L} (ev : Event) : M L unit :=
  fun s => (mkSt (table s) (clock s) (ev :: trace s) (locals s), inr tt).

Definition get_table {L} : M L (list TariffCode) :=
  fun s => (s, inr (table s)).

Definition set_table {L} (t : list TariffCode) : M L unit :=
  fun s => (mkSt t (clock s) (trace s) (locals s), inr tt).

Definition get_locals {L} : M L L := fun s => (s, inr (locals s)).

Definition set_locals {L} (l : L) : M L unit :=
  fun s => (mkSt (table s) (clock s) (trace s) l, inr tt).

Definition lift_result {L A} (r : Exn + A) : M L A :=
  match r with
  | inl e => throw e
  | inr a => ret a
  end.

Definition console_error {L} (label : JsString) (e : Exn) : M L unit :=
  emit (EvConsoleError label e).

Fixpoint for_of {L A} (l : list A) (body : A -> M L unit) : M L unit :=
  match l with
  | [] => ret tt
  | x :: l' => body x ;;; for_of l' body
  end.

(* ================================================================== *)
(** ** Sorting used by ORDER BY

    Insertion sort; rows equal in every key of the ORDER BY keep the order
    of the table (PostgreSQL leaves their order unspecified). *)

Section Sort.
Context {A : Type} (leb : A -> A -> bool).

Fixpoint insert (x : A) (l : list A) : list A :=
  match l with
  | [] => [x]
  | y :: l' => if leb x y then x :: l else y :: insert x l'
  end.

Fixpoint isort (l : list A) : list A :=
  match l with
  | [] => []
  | x :: l' => insert x (isort l')
  end.
End Sort.

Fixpoint filter_map {A B} (f : A -> option B) (l : list A) : list B :=
  match l with
  | [] => []
  | x :: l' =>
      match f x with
      | Some y => y :: filter_map f l'
      | None => filter_map f l'
      end
  end.

Definition isNull {A} (o : option A) : bool :=
  match o with
  | None => true
  | Some _ => false
  end.

(* ================================================================== *)
(** ** The collaborators as monadic operations *)

Section Collaborators.
Variable W : World.
Context {L : Type}.

(** [hf.featureExtraction({ model, inputs })] *)
Definition hf_featureExtraction (inputs : JsString) : M L HfOutput :=
  t <- tick (EvEmbed inputs) ;;
  lift_result (featureExtraction W t inputs).

(** [pool.query(text, params)]: the connection or the server may fail;
    otherwise the statement [run] is evaluated on the table. *)
Definition pool_query {A} (q : Query)
    (run : list TariffCode -> Exn + (list TariffCode * A)) : M L A :=
  t <- tick (EvQuery q) ;;
  match query_failure W t q with
  | Some e => throw e
  | None =>
      tbl <- get_table ;;
      match run tbl with
      | inl e => throw e
      | inr (tbl', a) => set_table tbl' ;;; ret a
      end
  end.

(** [pool.end()] *)
Definition pool_end : M L unit := emit EvPoolEnd.
End Collaborators.

(* ================================================================== *)
(** ** backend/utils/retrieval.js *)

Section Retrieval.
Variable W : World.
Context {L : Type}.

(** WHERE and SELECT of the search statement on one row, paired with the
    value of [embedding <=> $1] that ORDER BY uses. *)
Definition search_row (q : Vector) (r : TariffCode) : option (Q * Candidate) :=
  if indent r <=? 2 then
    match embedding r, htsno r with
    | Some e, Some h =>
        let d := cosine_distance_op W e q in
        Some (d, {| code := h;
                    description := descript r;
                    c_general := general r;
                    c_special := special r;
                    c_indent := indent r;
                    similarity := (1 - d)%Q |})
    | _, _ => None
    end
  else None.

(** ORDER BY embedding <=> $1, indent DESC *)
Definition order_by_leb (a b : Q * Candidate) : bool :=
  match (fst a ?= fst b)%Q with
  | Lt => true
  | Gt => false
  | Eq => c_indent (snd b) <=? c_indent (snd a)
  end.

(** The search statement; PostgreSQL rejects a negative LIMIT. *)
Definition search_sql (q : Vector) (k : Z) (tbl : list TariffCode)
  : Exn + (list TariffCode * list Candidate) :=
  if k <? 0 then inl (lit "LIMIT must not be negative")
  else inr (tbl,
            map snd (firstn (Z.to_nat k)
                       (isort order_by_leb (filter_map (search_row q) tbl)))).

Definition retrieveHTSCodes (productDescription : JsString) (k : Z)
  : M L (list Candidate) :=
  try_catch
    (queryEmbedding <-
       hf_featureExtraction W (lit "Product: " ++ productDescription) ;;
     let flatEmbedding := flatten queryEmbedding in
     pool_query W (SearchQuery flatEmbedding k) (search_sql flatEmbedding k))
    (fun err =>
       console_error (10060%N :: lit " Retrieval error:") err ;;;
       throw err).
End Retrieval.

(* ================================================================== *)
(** ** routes/classify.routes.js *)

Record Request := {
  product_description : JsValue;
  country_of_origin : JsValue
}.

Record CodeDescription := {
  cd_code : JsString;
  cd_description : JsString
}.

Record Structure := {
  st_chapter : CodeDescription;
  st_heading : CodeDescription;
  st_subheading : CodeDescription
}.

Record ClassificationOut := {
  out_hts_code : JsString;
  out_description : JsString;
  out_confidence : Q;
  out_structure : Structure;
  alternatives_considered : list JsString
}.

Record RetrievedCandidate := {
  rc_code : JsString;
  rc_description : option JsString;
  rc_similarity : Q
}.

Record Metadata := {
  rag_enabled : bool;
  langchain_version : JsString;
  retrieval_count : Z
}.

Record Bundle := {
  classification : ClassificationOut;
  justification : JsString;
  retrieved_candidates : list RetrievedCandidate;
  metadata : Metadata
}.

Inductive Body :=
| ErrorBody (error : JsString)
| ErrorMessageBody (error message : JsString)
| ErrorDetailsBody (error details : JsString)
| SuccessBody (b : Bundle).

Record Response := {
  status : Z;
  body : Body
}.

(** [confidence: z.number().min(0).max(1)]; the other fields of
    [classificationSchema] are constrained by their types only. *)
Definition classificationSchema (c : Classification) : bool :=
  Qle_bool 0 (confidence c) && Qle_bool (confidence c) 1.

(** The lines of [candidatesText], numbered from [i + 1]. *)
Fixpoint candidate_lines (i : N) (cs : list Candidate) : list JsString :=
  match cs with
  | [] => []
  | c :: cs' =>
      (decimal (i + 1) ++ lit ". Code: " ++ code c ++ lit " | "
         ++ interpolate (description c) ++ lit " | Similarity: "
         ++ toFixed1 (js_mul (similarity c) 100) ++ lit "%")
        :: candidate_lines (i + 1) cs'
  end.

(** An element of [retrieved_candidates]:
    [{ code, description, similarity: parseFloat((c.similarity * 100).toFixed(1)) }] *)
Definition retrieved_candidate (c : Candidate) : RetrievedCandidate :=
  {| rc_code := code c;
     rc_description := description c;
     rc_similarity := parseFloat_toFixed1 (js_mul (similarity c) 100) |}.

(** The object passed to [res.json] at the end of the handler. *)
Definition success_bundle (candidates : list Candidate)
    (c : Classification) (j : JsString) : Bundle :=
  {| classification :=
       {| out_hts_code := hts_code c;
          out_description := hts_code_description c;
          out_confidence := confidence c;
          out_structure :=
            {| st_chapter := {| cd_code := chapter c;
                                cd_description := chapter_description c |};
               st_heading := {| cd_code := heading c;
                                cd_description := heading_description c |};
               st_subheading :=
                 {| cd_code := subheading c;
                    cd_description := subheading_description c |} |};
          alternatives_considered := alternative_codes c |};
     justification := j;
     retrieved_candidates := map retrieved_candidate candidates;
     metadata := {| rag_enabled := true;
                    langchain_version := lit "0.3.x";
                    retrieval_count := Z.of_nat (List.length candidates) |} |}.

(** [res.status(400).json({ error: "product_description is required" })] *)
Definition bad_request : Response :=
  {| status := 400;
     body := ErrorBody (lit "product_description is required") |}.

(** [res.status(404).json({ error: "no_candidates_found", message: ... })] *)
Definition no_candidates : Response :=
  {| status := 404;
     body := ErrorMessageBody (lit "no_candidates_found")
               (lit "No HTS codes found in database") |}.

(** [res.status(500).json({ error: "classification_failed",
    details: err.message })] *)
Definition classification_failed (cause : Exn) : Response :=
  {| status := 500;
     body := ErrorDetailsBody (lit "classification_failed") cause |}.

(** [res.json(bundle)], with the default status. *)
Definition success (b : Bundle) : Response :=
  {| status := 200; body := SuccessBody b |}.

(** The argument of [classificationChain.invoke]; [candidatesText] is the
    numbered lines joined by a line feed. *)
Definition classification_input (W : World) (d : JsString) (country : JsValue)
    (candidates : list Candidate) : ClassificationInput :=
  {| ci_product_description := d;
     ci_country_of_origin := country;
     ci_candidates := join [10%N] (candidate_lines 0 candidates);
     ci_format_instructions := getFormatInstructions W |}.

(** The argument of [justificationChain.invoke]. *)
Definition justification_input (d : JsString) (c : Classification)
  : JustificationInput :=
  {| ji_product_description := d;
     ji_hts_code := hts_code c;
     ji_hts_code_description := hts_code_description c;
     ji_chapter := chapter c;
     ji_chapter_description := chapter_description c;
     ji_heading := heading c;
     ji_heading_description := heading_description c;
     ji_subheading := subheading c;
     ji_subheading_description := subheading_description c;
     ji_alternatives := join (lit ", ") (alternative_codes c);
     ji_reasoning_brief := reasoning_brief c |}.

(** The country passed to the prompt: the default applies to [undefined]
    only. *)
Definition country_or_default (v : JsValue) : JsValue :=
  match v with
  | JsUndefined => JsStr (lit "Unknown")
  | v => v
  end.

(** The message of the exception of [StructuredOutputParser.parse]:
    [Failed to parse. Text: "${text}". Error: ${e}]. *)
Definition parser_exception (text e : JsString) : Exn :=
  lit "Failed to parse. Text: " ++ 34%N :: text
    ++ 34%N :: lit ". Error: " ++ e.

Section Classify.
Variable W : World.

(** [classificationPrompt.pipe(llm).pipe(parser)].invoke: the reply of the
    model parsed into the fields of the schema, then validated; a reply
    the schema rejects makes the parser throw its exception, which quotes
    the reply. *)
Definition classificationChain_invoke (i : ClassificationInput)
  : M unit Classification :=
  t <- tick (EvClassify i) ;;
  c <- lift_result (llm_structured W t i) ;;
  if classificationSchema c then ret c
  else throw (parser_exception (reply_text W t i) (zod_error_text W c)).

(** [justificationPrompt.pipe(llm)].invoke, then [.content]. *)
Definition justificationChain_invoke (i : JustificationInput)
  : M unit JsString :=
  t <- tick (EvJustify i) ;;
  lift_result (llm_content W t i).

(** The body of the [try] block of the handler. *)
Definition classify_pipeline (product_description : JsString)
    (country_of_origin : JsValue) : M unit Response :=
  candidates <- retrieveHTSCodes W product_description 5 ;;
  if Nat.eqb (List.length candidates) 0 then ret no_candidates
  else
    classification <-
      classificationChain_invoke
        (classification_input W product_description country_of_origin
           candidates) ;;
    justification <-
      justificationChain_invoke
        (justification_input product_description classification) ;;
    ret (success (success_bundle candidates classification justification)).

(** [router.post("/", async (req, res) => ...)].  A value returned is the
    response sent; an exception is a rejection of the handler's promise,
    with no response sent by the handler. *)
Definition classify_post (req : Request) : M unit Response :=
  let country := country_or_default (country_of_origin req) in
  match product_description req with
  | JsUndefined | JsNull => ret bad_request
  | JsStr s =>
      match trim s with
      | [] => ret bad_request
      | _ :: _ =>
          try_catch (classify_pipeline s country)
            (fun err =>
               console_error (10060%N :: lit " Classification error:") err ;;;
               ret (classification_failed err))
      end
  | JsNumber _ | JsBoolean _ | JsObject =>
      throw (lit "product_description?.trim is not a function")
  end.
End Classify.

(* ================================================================== *)
(** ** The embedding script *)

Definition BATCH_SIZE : Z := 10.

(** [let processed = 0; let batchNumber = 0;] *)
Record JobLocals := {
  processed : nat;
  batchNumber : nat
}.

(** SELECT COUNT( * ) FROM tariff_codes
    WHERE indent <= 2 AND embedding IS NULL *)
Definition count_sql (tbl : list TariffCode) : Exn + (list TariffCode * nat) :=
  inr (tbl,
       List.length
         (filter (fun r => (indent r <=? 2) && isNull (embedding r)) tbl)).

(** WHERE and SELECT of the batch statement on one row. *)
Definition batch_row (r : TariffCode) : option BatchRow :=
  if indent r <=? 2 then
    match embedding r, htsno r with
    | None, Some h =>
        Some {| b_htsno := h; b_descript := descript r; b_indent := indent r |}
    | _, _ => None
    end
  else None.

(** Text comparison for ORDER BY, by code units (the collation of the
    database is taken to be the binary one). *)
Fixpoint js_compare (a b : JsString) : comparison :=
  match a, b with
  | [], [] => Eq
  | [], _ :: _ => Lt
  | _ :: _, [] => Gt
  | x :: a', y :: b' =>
      match N.compare x y with
      | Eq => js_compare a' b'
      | c => c
      end
  end.

(** Ascending order of a nullable text column: NULL sorts last. *)
Definition nullable_compare (a b : option JsString) : comparison :=
  match a, b with
  | Some x, Some y => js_compare x y
  | Some _, None => Lt
  | None, Some _ => Gt
  | None, None => Eq
  end.

(** ORDER BY htsno, descript, indent *)
Definition batch_leb (a b : BatchRow) : bool :=
  match js_compare (b_htsno a) (b_htsno b) with
  | Lt => true
  | Gt => false
  | Eq =>
      match nullable_compare (b_descript a) (b_descript b) with
      | Lt => true
      | Gt => false
      | Eq => b_indent a <=? b_indent b
      end
  end.

Definition nullable_eqb (a b : option JsString) : bool :=
  match a, b with
  | Some x, Some y => js_eqb x y
  | None, None => true
  | _, _ => false
  end.

Definition batch_eqb (a b : BatchRow) : bool :=
  js_eqb (b_htsno a) (b_htsno b)
  && nullable_eqb (b_descript a) (b_descript b)
  && (b_indent a =? b_indent b).

(** DISTINCT ON (htsno, descript, indent) over the sorted rows: the first
    row of each set of rows with equal keys is kept. *)
Fixpoint distinct_on (l : list BatchRow) : list BatchRow :=
  match l with
  | [] => []
  | x :: l' => x :: filter (fun y => negb (batch_eqb x y)) (distinct_on l')
  end.

Definition batch_rows (limit : Z) (tbl : list TariffCode) : list BatchRow :=
  firstn (Z.to_nat limit)
    (distinct_on (isort batch_leb (filter_map batch_row tbl))).

Definition batch_sql (limit : Z) (tbl : list TariffCode)
  : Exn + (list TariffCode * list BatchRow) :=
  if limit <? 0 then inl (lit "LIMIT must not be negative")
  else inr (tbl, batch_rows limit tbl).

(** [htsno = $2]: never true of a NULL [htsno]. *)
Definition htsno_is (h : JsString) (r : TariffCode) : bool :=
  match htsno r with
  | Some h' => js_eqb h' h
  | None => false
  end.

Definition set_embedding (e : Vector) (r : TariffCode) : TariffCode :=
  {| id := id r;
     htsno := htsno r;
     descript := descript r;
     general := general r;
     special := special r;
     indent := indent r;
     embedding := Some e |}.

(** UPDATE tariff_codes SET embedding = $1 WHERE htsno = $2 *)
Definition update_rows (e : Vector) (h : JsString) (tbl : list TariffCode)
  : list TariffCode :=
  map (fun r => if htsno_is h r then set_embedding e r else r) tbl.

Definition update_sql (e : Vector) (h : JsString) (tbl : list TariffCode)
  : Exn + (list TariffCode * unit) :=
  inr (update_rows e h tbl, tt).

(** The prefix of the message logged by the [catch] of a row. *)
Definition row_failed : JsString := 10007%N :: lit " Failed: ".

(** The TypeError of [row.descript.substring] on a NULL description. *)
Definition substring_of_null : Exn :=
  lit "Cannot read properties of null (reading 'substring')".

Definition textToEmbed (row : BatchRow) : JsString :=
  if b_indent row =? 0 then
    lit "HTS " ++ b_htsno row ++ lit ": " ++ interpolate (b_descript row)
  else
    lit "HTS Code " ++ b_htsno row ++ lit " - " ++ interpolate (b_descript row).

Section Backfill.
Variable W : World.

(** The body of the [for (const row of result.rows)] loop. *)
Definition processRow (row : BatchRow) : M JobLocals unit :=
  try_catch
    (embedding <- hf_featureExtraction W (textToEmbed row) ;;
     let flatEmbedding := flatten embedding in
     pool_query W (UpdateQuery flatEmbedding (b_htsno row))
       (update_sql flatEmbedding (b_htsno row)) ;;;
     l <- get_locals ;;
     set_locals {| processed := S (processed l);
                   batchNumber := batchNumber l |} ;;;
     (* console.log(... row.descript.substring(0, 40) ...) *)
     match b_descript row with
     | Some _ => ret tt
     | None => throw substring_of_null
     end ;;;
     emit (EvSleep 700))
    (fun embedErr => console_error row_failed embedErr).

(** [while (processed < totalRows) { ... }]; [None] when the fuel does not
    suffice to see the loop exit. *)
Fixpoint while_loop (fuel : nat) (totalRows : nat) (s : St JobLocals)
  : option (St JobLocals * (Exn + unit)) :=
  match fuel with
  | O => None
  | S fuel' =>
      if Nat.ltb (processed (locals s)) totalRows then
        let s1 :=
          mkSt (table s) (clock s) (trace s)
            {| processed := processed (locals s);
               batchNumber := S (batchNumber (locals s)) |} in
        match pool_query W (BatchQuery BATCH_SIZE) (batch_sql BATCH_SIZE) s1 with
        | (s2, inl e) => Some (s2, inl e)
        | (s2, inr rows) =>
            if Nat.eqb (List.length rows) 0 then Some (s2, inr tt)
            else
              match for_of rows processRow s2 with
              | (s3, inl e) => Some (s3, inl e)
              | (s3, inr _) => while_loop fuel' totalRows s3
              end
        end
      else Some (s, inr tt)
  end.

(** [generateEmbeddings()]: try / catch / finally around the count and
    the loop. *)
Definition generateEmbeddings (fuel : nat) (s : St JobLocals)
  : option (St JobLocals) :=
  let tried :=
    match pool_query W CountQuery count_sql s with
    | (s1, inl e) => Some (s1, inl e)
    | (s1, inr totalRows) =>
        while_loop fuel totalRows
          (mkSt (table s1) (clock s1) (trace s1)
             {| processed := 0; batchNumber := 0 |})
    end in
  match tried with
  | None => None
  | Some (s', inl err) =>
      Some (fst ((console_error (lit "Fatal error:") err ;;; pool_end) s'))
  | Some (s', inr _) => Some (fst (pool_end s'))
  end.
End Backfill.

(* ================================================================== *)
(** ** Reading a trace *)

Definition embed_calls (tr : list Event) : list JsString :=
  filter_map (fun ev => match ev with EvEmbed t => Some t | _ => None end) tr.

Definition queries (tr : list Event) : list Query :=
  filter_map (fun ev => match ev with EvQuery q => Some q | _ => None end) tr.

Definition is_update (q : Query) : bool :=
  match q with
  | UpdateQuery _ _ => true
  | _ => false
  end.

Definition is_search (q : Query) : bool :=
  match q with
  | SearchQuery _ _ => true
  | _ => false
  end.


Definition is_console_error (ev : Event) : bool :=
  match ev with
  | EvConsoleError _ _ => true
  | _ => false
  end.

(** A row the batch statement selects: indent <= 2, no embedding, a code. *)
Definition pending (r : TariffCode) : bool :=
  (indent r <=? 2) && isNull (embedding r) && negb (isNull (htsno r)).

(** A fresh process: the given table, no call made yet. *)
Definition initial {L} (tbl : list TariffCode) (l : L) : St L :=
  mkSt tbl 0 [] l.

(* ================================================================== *)
(** ** Concrete collaborators used by the examples *)

Definition dot (a b : Vector) : Q :=
  fold_right Qplus 0%Q (map (fun p => (fst p * snd p)%Q) (combine a b)).

(** Square root of a non-negative rational, rounded down to a multiple of
    [1 / Qden x]; exact on squares of rationals. *)
Definition Qsqrt (x : Q) : Q :=
  let x := Qred x in
  Qmake (Z.sqrt (Qnum x * Zpos (Qden x))) (Qden x).

(** Cosine distance [1 - a.b / sqrt(|a|^2 |b|^2)] with the similarity
    clamped to [-1, 1]; exact whenever the product of the squared norms is
    the square of a non-zero rational. *)
Definition cosine_distance (a b : Vector) : Q :=
  let s := Qred (dot a b / Qsqrt (dot a a * dot b b))%Q in
  let s := if Qle_bool s (-1) then (-1)%Q else if Qle_bool 1 s then 1%Q else s in
  Qred (1 - s)%Q.

Definition sample_classification (h : JsString) (alts : list JsString)
  : Classification :=
  {| hts_code := h;
     hts_code_description := lit "Portable automatic data processing machines";
     confidence := (9 # 10)%Q;
     chapter := lit "84";
     chapter_description := lit "Machinery";
     heading := lit "8471";
     heading_description := lit "Automatic data processing machines";
     subheading := lit "8471.30";
     subheading_description := lit "Portable";
     reasoning_brief := lit "Closest description.";
     alternative_codes := alts |}.

(** Every service answers; the embedding of any text is [v] and the model
    selects [h] with alternatives [alts]. *)
Definition steady_world (v : Vector) (h : JsString) (alts : list JsString)
  : World :=
  {| featureExtraction := fun _ _ => inr (HfFlat v);
     query_failure := fun _ _ => None;
     cosine_distance_op := cosine_distance;
     llm_structured := fun _ _ => inr (sample_classification h alts);
     reply_text := fun _ _ => lit "{ ... }";
     zod_error_text := fun _ => lit "[]";
     llm_content := fun _ _ => inr (lit "# Classification Justification");
     getFormatInstructions := lit "Return a JSON object." |}.

(** The embedding service refuses every call; the rest is as in
    [steady_world]. *)
Definition embedding_down (v : Vector) (h : JsString) (alts : list JsString)
  : World :=
  {| featureExtraction := fun _ _ => inl (lit "Service Unavailable");
     query_failure := fun _ _ => None;
     cosine_distance_op := cosine_distance;
     llm_structured := fun _ _ => inr (sample_classification h alts);
     reply_text := fun _ _ => lit "{ ... }";
     zod_error_text := fun _ => lit "[]";
     llm_content := fun _ _ => inr (lit "# Classification Justification");
     getFormatInstructions := lit "Return a JSON object." |}.

(** The language model is unreachable at the justification call. *)
Definition justification_down (v : Vector) (h : JsString)
    (alts : list JsString) : World :=
  {| featureExtraction := fun _ _ => inr (HfFlat v);
     query_failure := fun _ _ => None;
     cosine_distance_op := cosine_distance;
     llm_structured := fun _ _ => inr (sample_classification h alts);
     reply_text := fun _ _ => lit "{ ... }";
     zod_error_text := fun _ => lit "[]";
     llm_content := fun _ _ => inl (lit "Rate limit reached");
     getFormatInstructions := lit "Return a JSON object." |}.

Definition row (i : Z) (h d : string) (ind : Z) (e : option Vector)
  : TariffCode :=
  {| id := i;
     htsno := Some (lit h);
     descript := Some (lit d);
     general := None;
     special := None;
     indent := ind;
     embedding := e |}.

Definition row_without_code (i : Z) (d : string) (ind : Z)
    (e : option Vector) : TariffCode :=
  {| id := i;
     htsno := None;
     descript := Some (lit d);
     general := None;
     special := None;
     indent := ind;
     embedding := e |}.

Definition sample_table : list TariffCode :=
  [ row 1 "8471" "Automatic data processing machines" 0 (Some [1; 0]%Q);
    row 2 "8471.30" "Portable machines" 1 (Some [1; 0]%Q);
    row 3 "7324" "Sanitary ware of iron or steel" 0 (Some [0; 1]%Q);
    row 4 "0101" "Live horses" 0 (Some [-1; 0]%Q);
    row 5 "8471.30.01" "Portable, weighing not more than 10 kg" 3
      (Some [1; 0]%Q);
    row_without_code 6 "Section note" 0 (Some [1; 0]%Q);
    row 7 "9999" "Not embedded" 1 None ].

Definition unembedded_table : list TariffCode :=
  [ row 1 "8471" "Automatic data processing machines" 0 None;
    row 2 "8471" "Other" 1 None;
    row 3 "8471" "Parts" 4 None;
    row 4 "7324" "Sanitary ware" 2 None;
    row_without_code 5 "Section note" 0 None ].

(** Every row the batch statement could select is embedded; the count
    statement still counts the row without code. *)
Definition embedded_table : list TariffCode :=
  [ row 1 "8471" "Automatic data processing machines" 0 (Some [1; 0]%Q);
    row 2 "8471.30" "Portable machines" 1 (Some [0; 1]%Q);
    row_without_code 3 "Section note" 0 None;
    row 4 "8471.30.01" "Portable, weighing not more than 10 kg" 3 None ].

Definition fresh_locals : JobLocals := {| processed := 0; batchNumber := 0 |}.

Definition request (d : string) : Request :=
  {| product_description := JsStr (lit d);
     country_of_origin := JsUndefined |}.

(* ================================================================== *)
(** ** Predicates used in the statements *)

(** [a] may stand before [b] in a ranking: [b] is not more similar, and
    when equally similar not more deeply indented. *)
Definition ranked (a b : Candidate) : Prop :=
  (similarity b <= similarity a)%Q
  /\ ((similarity a == similarity b)%Q -> c_indent b <= c_indent a).

(** [c] is the projection of a row of [tbl] that passes the WHERE clause
    of the search statement, scored against the query vector [q]. *)
Definition from_eligible_row (W : World) (q : Vector) (tbl : list TariffCode)
    (c : Candidate) : Prop :=
  exists r e,
    In r tbl
    /\ indent r <= 2
    /\ embedding r = Some e
    /\ htsno r = Some (code c)
    /\ description c = descript r
    /\ c_indent c = indent r
    /\ similarity c = (1 - cosine_distance_op W e q)%Q.

Definition whitespace_only (s : JsString) : Prop :=
  Forall (fun c => isWhiteSpace c = true) s.

(** The three stages of a request on description [d], run from state [s]:
    which stage raised [e], if any. *)
Inductive StageFailure (W : World) (d : JsString) (country : JsValue)
    (s : St unit) (e : Exn) : Prop :=
| RetrievalFailed s1 :
    retrieveHTSCodes W d 5 s = (s1, inl e) ->
    StageFailure W d country s e
| ClassificationFailed s1 candidates s2 :
    retrieveHTSCodes W d 5 s = (s1, inr candidates) ->
    candidates <> [] ->
    classificationChain_invoke W
      (classification_input W d country candidates) s1 = (s2, inl e) ->
    StageFailure W d country s e
| JustificationFailed s1 candidates s2 c s3 :
    retrieveHTSCodes W d 5 s = (s1, inr candidates) ->
    candidates <> [] ->
    classificationChain_invoke W
      (classification_input W d country candidates) s1 = (s2, inr c) ->
    justificationChain_invoke W (justification_input d c) s2 = (s3, inl e) ->
    StageFailure W d country s e.

(** All three stages ran to completion and produced the bundle [b]. *)
Definition StagesCompleted (W : World) (d : JsString) (country : JsValue)
    (s s' : St unit) (b : Bundle) : Prop :=
  exists s1 candidates s2 c j,
    retrieveHTSCodes W d 5 s = (s1, inr candidates)
    /\ candidates <> []
    /\ classificationChain_invoke W
         (classification_input W d country candidates) s1 = (s2, inr c)
    /\ justificationChain_invoke W (justification_input d c) s2 = (s', inr j)
    /\ b = success_bundle candidates c j.

(** [b] reports the candidates [candidates], the classification [c] and
    the justification [j], field by field. *)
Definition bundle_reports (candidates : list Candidate) (c : Classification)
    (j : JsString) (b : Bundle) : Prop :=
  out_hts_code (classification b) = hts_code c
  /\ out_description (classification b) = hts_code_description c
  /\ out_confidence (classification b) = confidence c
  /\ st_chapter (out_structure (classification b))
     = {| cd_code := chapter c; cd_description := chapter_description c |}
  /\ st_heading (out_structure (classification b))
     = {| cd_code := heading c; cd_description := heading_description c |}
  /\ st_subheading (out_structure (classification b))
     = {| cd_code := subheading c;
          cd_description := subheading_description c |}
  /\ alternatives_considered (classification b) = alternative_codes c
  /\ justification b = j
  /\ map rc_code (retrieved_candidates b) = map code candidates
  /\ map rc_description (retrieved_candidates b) = map description candidates
  /\ retrieval_count (metadata b) = Z.of_nat (List.length candidates).

(** [y] is a finite binary64 number: a significand below [2^53] in
    magnitude, scaled by a power of two of the format. *)
Definition binary64 (y : Q) : Prop :=
  exists m e : Z,
    Z.abs m < 2 ^ 53 /\ -1074 <= e <= 971 /\ (y == inject_Z m * 2 ^ e)%Q.

(** [p] is a binary64 number, and no binary64 number is nearer to [x]:
    what IEEE 754 asks of the result of an operation whose exact value is
    [x]. *)
Definition nearest_binary64 (x p : Q) : Prop :=
  binary64 p /\ forall y, binary64 y -> (Qabs (p - x) <= Qabs (y - x))%Q.

(** [r] is the number [p] written with one decimal: a whole number of
    tenths, within half a tenth of [p]. *)
Definition one_decimal_of (p r : Q) : Prop :=
  (exists n : Z, r == inject_Z n / 10)%Q
  /\ (- (1 # 20) <= r - p <= 1 # 20)%Q.

(** [2^-47], half the spacing of the binary64 numbers between 64 and
    128: the most by which a product below 128 in magnitude is rounded. *)
Definition product_rounding : Q := 1 # 140737488355328.

(** [r] is a percentage reported for the similarity [sim]: a whole number
    of tenths, as near to [100 * sim] as the rounding of the product and
    then of the decimal allow. *)
Definition reported_percent (sim r : Q) : Prop :=
  (exists n : Z, r == inject_Z n / 10)%Q
  /\ (- (1 # 20) - product_rounding <= r - sim * 100
      <= (1 # 20) + product_rounding)%Q.

Definition candidate_codes (cs : list Candidate) : list JsString :=
  map code cs.

Definition pending_count (tbl : list TariffCode) : nat :=
  List.length (filter pending tbl).

Definition console_errors (tr : list Event) : nat :=
  List.length (filter is_console_error tr).

Definition updates (tr : list Event) : list Query :=
  filter is_update (queries tr).


(** From clock [n] on, the embedding service and the database answer
    every call. *)
Definition settles (W : World) (n : nat) : Prop :=
  forall t, (n <= t)%nat ->
    (forall x, exists o, featureExtraction W t x = inr o)
    /\ (forall q, query_failure W t q = None).

(** A row of the table after some UPDATEs of the job: as it was, or with
    an embedding set. *)
Definition embedded_from (r r' : TariffCode) : Prop :=
  r' = r \/ exists e, r' = set_embedding e r.

(** The [catch] of [generateEmbeddings] has logged a fatal error. *)
Definition fatal_logged (tr : list Event) : Prop :=
  exists e, In (EvConsoleError (lit "Fatal error:") e) tr.

(** What the UPDATE of a processed row does to one row of the table. *)
Definition updated_row (e : Vector) (h : JsString) (r r' : TariffCode) : Prop :=
  (htsno r = Some h -> r' = set_embedding e r)
  /\ (htsno r <> Some h -> r' = r).

(** The same, column by column: a row of the code [h] now holds the
    embedding [e] and keeps its other columns; any other row is as it
    was. *)
Definition update_effect (e : Vector) (h : JsString) (r r' : TariffCode)
  : Prop :=
  (htsno r = Some h ->
   embedding r' = Some e
   /\ id r' = id r
   /\ htsno r' = htsno r
   /\ descript r' = descript r
   /\ general r' = general r
   /\ special r' = special r
   /\ indent r' = indent r)
  /\ (htsno r <> Some h -> r' = r).

(* ================================================================== *)
(** ** Further notions: retrieval *)

(** The rows the search statement returns for a non-negative limit. *)
Definition search_rows (W : World) (q : Vector) (k : Z)
    (tbl : list TariffCode) : list Candidate :=
  map snd (firstn (Z.to_nat k)
             (isort order_by_leb (filter_map (search_row W q) tbl))).


(** WHERE indent <= 2 AND embedding IS NOT NULL AND htsno IS NOT NULL *)
Definition search_where (r : TariffCode) : bool :=
  (indent r <=? 2) && negb (isNull (embedding r)) && negb (isNull (htsno r)).

(** The first argument of the [console.error] of [retrieveHTSCodes]. *)
Definition retrieval_error : JsString := 10060%N :: lit " Retrieval error:".

(** The same state with another table. *)
Definition with_table {L} (tbl : list TariffCode) (s : St L) : St L :=
  mkSt tbl (clock s) (trace s) (locals s).

(* ================================================================== *)
(** ** Further notions: the request handler *)

(** The first argument of the [console.error] of the handler. *)
Definition classification_error : JsString :=
  10060%N :: lit " Classification error:".

(** The message of the TypeError of [product_description?.trim()] on a
    value that is neither a string nor nullish. *)
Definition trim_is_not_a_function : Exn :=
  lit "product_description?.trim is not a function".

(** The status goes with the shape of the body. *)
Definition status_matches_body (r : Response) : Prop :=
  match body r with
  | ErrorBody _ => status r = 400
  | ErrorMessageBody _ _ => status r = 404
  | ErrorDetailsBody _ _ => status r = 500
  | SuccessBody _ => status r = 200
  end.

(** The [product_description] the validation rejects. *)
Definition blank_description (v : JsValue) : Prop :=
  v = JsUndefined \/ v = JsNull \/ exists d, v = JsStr d /\ whitespace_only d.

Definition is_embed_event (ev : Event) : bool :=
  match ev with
  | EvEmbed _ => true
  | _ => false
  end.

Definition is_search_event (ev : Event) : bool :=
  match ev with
  | EvQuery (SearchQuery _ _) => true
  | _ => false
  end.

Definition is_classify_event (ev : Event) : bool :=
  match ev with
  | EvClassify _ => true
  | _ => false
  end.

Definition is_justify_event (ev : Event) : bool :=
  match ev with
  | EvJustify _ => true
  | _ => false
  end.

(** An event a request can produce. *)
Definition is_request_event (ev : Event) : bool :=
  is_embed_event ev || is_search_event ev || is_classify_event ev
  || is_justify_event ev || is_console_error ev.

Definition count_events (p : Event -> bool) (evs : list Event) : nat :=
  List.length (filter p evs).

(** Two inputs of the classification chain that differ at most in the
    country of origin. *)
Definition same_but_country (i i' : ClassificationInput) : Prop :=
  ci_product_description i = ci_product_description i'
  /\ ci_candidates i = ci_candidates i'
  /\ ci_format_instructions i = ci_format_instructions i'.

(** A reply of the model with a confidence outside [0, 1]. *)
Definition overconfident_world (v : Vector) : World :=
  {| featureExtraction := fun _ _ => inr (HfFlat v);
     query_failure := fun _ _ => None;
     cosine_distance_op := cosine_distance;
     llm_structured :=
       fun _ _ =>
         inr {| hts_code := lit "8471.30";
                hts_code_description := lit "Portable machines";
                confidence := (3 # 2)%Q;
                chapter := lit "84";
                chapter_description := lit "Machinery";
                heading := lit "8471";
                heading_description := lit "Automatic data processing machines";
                subheading := lit "8471.30";
                subheading_description := lit "Portable";
                reasoning_brief := lit "Closest description.";
                alternative_codes := [] |};
     reply_text := fun _ _ => lit "{ confidence: 1.5 }";
     zod_error_text :=
       fun _ => lit "ZodError: Number must be less than or equal to 1";
     llm_content := fun _ _ => inr (lit "# Classification Justification");
     getFormatInstructions := lit "Return a JSON object." |}.

(* ================================================================== *)
(** ** Further notions: [parseFloat] on decimal literals *)

Definition is_digit (c : N) : bool := N.leb 48 c && N.leb c 57.

(** The longest prefix of decimal digits, and what follows it. *)
Fixpoint span_digits (s : JsString) : JsString * JsString :=
  match s with
  | c :: s' =>
      if is_digit c then
        let (ds, rest) := span_digits s' in (c :: ds, rest)
      else ([], s)
  | [] => ([], [])
  end.

(** The number written by a run of decimal digits. *)
Definition digits_value (ds : JsString) : N :=
  fold_left (fun acc c => (acc * 10 + (c - 48))%N) ds 0%N.

(** The digits, the point and the fraction at the head of [s], read as
    a number; [None] when there is no digit. *)
Definition parse_unsigned (negative : bool) (s : JsString) : option Q :=
  let '(int_part, rest) := span_digits s in
  let frac_part :=
    match rest with
    | 46%N :: rest' => fst (span_digits rest')
    | _ => []
    end in
  match int_part, frac_part with
  | [], [] => None
  | _, _ =>
      let v :=
        (inject_Z (Z.of_N (digits_value int_part))
         + inject_Z (Z.of_N (digits_value frac_part))
           / inject_Z (10 ^ Z.of_nat (List.length frac_part)))%Q in
      Some (if negative then (- v)%Q else v)
  end.

(** [parseFloat(s)] for a string whose numeric prefix, after leading
    whitespace, is an optional sign, digits and an optional fraction;
    [None] is NaN.  Exponents and [Infinity] are not read. *)
Definition parseFloat (s : JsString) : option Q :=
  match trimStart s with
  | 45%N :: s' => parse_unsigned true s'
  | 43%N :: s' => parse_unsigned false s'
  | s' => parse_unsigned false s'
  end.

(* ================================================================== *)
(** ** Further notions: the embedding script *)

(** WHERE indent <= 2 AND embedding IS NULL, the rows the count statement
    counts. *)
Definition counted (r : TariffCode) : bool :=
  (indent r <=? 2) && isNull (embedding r).

(** [r] has the code of a row of [tbl] that is still to embed. *)
Definition shares_pending_code (tbl : list TariffCode) (r : TariffCode)
  : Prop :=
  exists p, In p tbl /\ pending p = true /\ htsno p = htsno r.

(** What a run of the job may do to a row of the table [tbl] it started
    from: set its embedding, and only if the row has the code of a row
    that was to embed. *)
Definition job_frame (tbl : list TariffCode) (r r' : TariffCode) : Prop :=
  embedded_from r r' /\ (~ shares_pending_code tbl r -> r' = r).

Definition is_sleep_event (ev : Event) : bool :=
  match ev with
  | EvSleep _ => true
  | _ => false
  end.

(** The events of the count, of the loop and of the [catch]: no search,
    no call of the language model, no [pool.end()]. *)
Definition is_job_event (ev : Event) : bool :=
  match ev with
  | EvEmbed _ | EvQuery CountQuery | EvQuery (BatchQuery _)
  | EvQuery (UpdateQuery _ _) | EvConsoleError _ _ | EvSleep 700 => true
  | _ => false
  end.

(** The key of a table row, as the batch statement selects it. *)
Definition key_of (r : TariffCode) (h : JsString) : BatchRow :=
  {| b_htsno := h; b_descript := descript r; b_indent := indent r |}.

(* ================================================================== *)
(** ** Proof automation *)

(** Unfold the monadic operations and reduce the state projections. *)
Ltac io_step :=
  cbv [try_catch bind tick emit get_table set_table get_locals set_locals
       lift_result console_error throw ret pool_end hf_featureExtraction
       pool_query];
  cbn [clock table trace locals fst snd].

(* ================================================================== *)
(** ** Strings *)

Lemma js_eqb_eq (a b : JsString) : js_eqb a b = true <-> a = b.
Proof.
  revert b; induction a as [|x a IH]; intros [|y b]; simpl;
    try (split; [discriminate | discriminate]); try tauto.
  rewrite andb_true_iff, N.eqb_eq, IH.
  split; [intros [-> ->]; reflexivity | intros H; inversion H; auto].
Qed.

Lemma js_eqb_refl (a : JsString) : js_eqb a a = true.
Proof. apply js_eqb_eq; reflexivity. Qed.

Lemma trimStart_whitespace (s : JsString) :
  whitespace_only s -> trimStart s = [].
Proof.
  induction 1 as [|c s Hc _ IH]; cbn [trimStart]; [reflexivity|].
  rewrite Hc; exact IH.
Qed.

Lemma trim_whitespace (s : JsString) : whitespace_only s -> trim s = [].
Proof.
  intros H. unfold trim, trimEnd.
  rewrite (trimStart_whitespace s H). reflexivity.
Qed.

Lemma trimStart_nil_inv (s : JsString) :
  trimStart s = [] -> whitespace_only s.
Proof.
  induction s as [|c s IH]; cbn [trimStart]; intros H; [constructor|].
  destruct (isWhiteSpace c) eqn:Hc; [|discriminate].
  constructor; [exact Hc | exact (IH H)].
Qed.

Lemma trim_nil_inv (s : JsString) : trim s = [] -> whitespace_only s.
Proof.
  unfold trim, trimEnd. intros H.
  apply (f_equal (@rev N)) in H. rewrite rev_involutive in H. simpl in H.
  destruct (trimStart s) as [|c t] eqn:Hs.
  - apply trimStart_nil_inv; exact Hs.
  - (* the first character kept by [trimStart] is not whitespace, and it
       is the last one met by the scan from the end *)
    exfalso.
    assert (Hc : isWhiteSpace c = false).
    { clear H. induction s as [|x s IH]; cbn [trimStart] in Hs; [discriminate|].
      destruct (isWhiteSpace x) eqn:Hx; [auto|].
      inversion Hs; subst; exact Hx. }
    apply trimStart_nil_inv in H.
    unfold whitespace_only in H. rewrite Forall_forall in H.
    assert (Hin : In c (rev (c :: t))) by (rewrite <- in_rev; left; auto).
    rewrite (H c Hin) in Hc. discriminate.
Qed.

(* ================================================================== *)
(** ** Lists and sorting *)

Lemma filter_map_In {A B} (f : A -> option B) (l : list A) (y : B) :
  In y (filter_map f l) <-> exists x, In x l /\ f x = Some y.
Proof.
  induction l as [|x l IH]; simpl.
  - split; [tauto | intros (x & [] & _)].
  - destruct (f x) as [z|] eqn:Hx; simpl; rewrite IH; split.
    + intros [->|(x' & Hin & Hf)]; eauto.
    + intros (x' & [->|Hin] & Hf); [left; congruence | eauto].
    + intros (x' & Hin & Hf); eauto.
    + intros (x' & [->|Hin] & Hf); [congruence | eauto].
Qed.

Lemma filter_map_app {A B} (f : A -> option B) (l1 l2 : list A) :
  filter_map f (l1 ++ l2) = filter_map f l1 ++ filter_map f l2.
Proof.
  induction l1 as [|x l1 IH]; simpl; [reflexivity|].
  destruct (f x); simpl; rewrite IH; reflexivity.
Qed.

Section SortFacts.
Context {A : Type} (leb : A -> A -> bool).

Lemma insert_perm (x : A) (l : list A) : Permutation (insert leb x l) (x :: l).
Proof.
  induction l as [|y l IH]; simpl; [reflexivity|].
  destruct (leb x y); [reflexivity|].
  rewrite IH. apply perm_swap.
Qed.

Lemma isort_perm (l : list A) : Permutation (isort leb l) l.
Proof.
  induction l as [|x l IH]; simpl; [reflexivity|].
  rewrite insert_perm, IH. reflexivity.
Qed.

Lemma isort_In (x : A) (l : list A) : In x (isort leb l) <-> In x l.
Proof.
  split; apply Permutation_in;
    [apply isort_perm | apply Permutation_sym, isort_perm].
Qed.

Lemma isort_length (l : list A) : List.length (isort leb l) = List.length l.
Proof. apply Permutation_length, isort_perm. Qed.

Hypothesis leb_total : forall a b, leb a b = true \/ leb b a = true.
Hypothesis leb_trans :
  forall a b c, leb a b = true -> leb b c = true -> leb a c = true.

Lemma insert_sorted (x : A) (l : list A) :
  StronglySorted (fun a b => leb a b = true) l ->
  StronglySorted (fun a b => leb a b = true) (insert leb x l).
Proof.
  induction 1 as [|y l Hs IH Hy]; simpl.
  - repeat constructor.
  - destruct (leb x y) eqn:Hxy.
    + constructor; [constructor; assumption|].
      constructor; [exact Hxy|].
      rewrite Forall_forall in Hy |- *.
      intros z Hz. apply (leb_trans x y z Hxy). apply Hy, Hz.
    + constructor; [exact IH|].
      rewrite Forall_forall in Hy |- *.
      intros z Hz. apply (Permutation_in _ (insert_perm x l)) in Hz.
      destruct Hz as [<-|Hz]; [|apply Hy, Hz].
      destruct (leb_total x y) as [H|H]; [congruence | exact H].
Qed.

Lemma isort_sorted (l : list A) :
  StronglySorted (fun a b => leb a b = true) (isort leb l).
Proof.
  induction l as [|x l IH]; simpl; [constructor | apply insert_sorted, IH].
Qed.
End SortFacts.

Lemma firstn_In {A} (n : nat) (l : list A) (x : A) :
  In x (firstn n l) -> In x l.
Proof.
  revert l; induction n as [|n IH]; intros [|y l]; simpl; try tauto.
  intros [->|H]; auto.
Qed.

Lemma StronglySorted_firstn {A} (R : A -> A -> Prop) (n : nat) (l : list A) :
  StronglySorted R l -> StronglySorted R (firstn n l).
Proof.
  intros H; revert n; induction H as [|x l Hs IH Hx]; intros [|n]; simpl;
    try constructor.
  - apply IH.
  - rewrite Forall_forall in Hx |- *.
    intros y Hy. apply Hx. eapply firstn_In, Hy.
Qed.

(* ================================================================== *)
(** ** Candidate retrieval *)

Lemma order_by_leb_spec (a b : Q * Candidate) :
  order_by_leb a b = true <->
  (fst a < fst b)%Q
  \/ ((fst a == fst b)%Q /\ c_indent (snd b) <= c_indent (snd a)).
Proof.
  unfold order_by_leb.
  destruct (Qcompare_spec (fst a) (fst b)) as [H|H|H].
  - rewrite Z.leb_le. split; [auto | intros [H'|[_ H']]; [lra | exact H']].
  - split; [auto | reflexivity].
  - split; [discriminate | intros [H'|[H' _]]; lra].
Qed.

Lemma order_by_leb_total (a b : Q * Candidate) :
  order_by_leb a b = true \/ order_by_leb b a = true.
Proof.
  rewrite !order_by_leb_spec.
  destruct (Qcompare_spec (fst a) (fst b)) as [H|H|H]; auto.
  destruct (Z.le_ge_cases (c_indent (snd a)) (c_indent (snd b))).
  - right; right; split; [symmetry; exact H | assumption].
  - left; right; split; assumption.
Qed.

Lemma order_by_leb_trans (a b c : Q * Candidate) :
  order_by_leb a b = true -> order_by_leb b c = true ->
  order_by_leb a c = true.
Proof.
  rewrite !order_by_leb_spec.
  intros [H1|[H1 I1]] [H2|[H2 I2]].
  - left; lra.
  - left; lra.
  - left; lra.
  - right; split; [lra | lia].
Qed.

Lemma search_row_spec (W : World) (q : Vector) (r : TariffCode)
    (d : Q) (c : Candidate) :
  search_row W q r = Some (d, c) ->
  exists e,
    indent r <= 2 /\ embedding r = Some e /\ htsno r = Some (code c)
    /\ description c = descript r /\ c_indent c = indent r
    /\ d = cosine_distance_op W e q /\ similarity c = (1 - d)%Q.
Proof.
  unfold search_row.
  destruct (indent r <=? 2) eqn:Hi; [|discriminate].
  destruct (embedding r) as [e|]; [|discriminate].
  destruct (htsno r) as [h|]; [|discriminate].
  intros H; inversion H; subst; clear H. simpl.
  exists e. apply Z.leb_le in Hi. repeat split; auto.
Qed.

(** The rows produced by the search statement for a non-negative limit. *)
Lemma search_sql_rows (W : World) (q : Vector) (k : Z) (tbl : list TariffCode) :
  0 <= k ->
  exists rows,
    search_sql W q k tbl = inr (tbl, rows)
    /\ Z.of_nat (List.length rows) <= k
    /\ StronglySorted ranked rows
    /\ Forall (from_eligible_row W q tbl) rows.
Proof.
  intros Hk. unfold search_sql.
  destruct (k <? 0) eqn:Hneg; [apply Z.ltb_lt in Hneg; lia|].
  eexists; split; [reflexivity|].
  set (hits := filter_map (search_row W q) tbl).
  set (top := firstn (Z.to_nat k) (isort order_by_leb hits)).
  assert (Hsrc : forall p, In p top -> exists r, In r tbl /\ search_row W q r = Some p).
  { intros p Hp. apply firstn_In in Hp. apply isort_In in Hp.
    apply filter_map_In in Hp. exact Hp. }
  split; [|split].
  - rewrite length_map. unfold top.
    pose proof (firstn_le_length (Z.to_nat k) (isort order_by_leb hits)). lia.
  - assert (Hs : StronglySorted (fun a b => order_by_leb a b = true) top).
    { apply StronglySorted_firstn, isort_sorted.
      - apply order_by_leb_total.
      - apply order_by_leb_trans. }
    clearbody top. clear hits.
    induction Hs as [|p l Hs IH Hp]; simpl; constructor.
    + apply IH. intros p' Hp'. apply Hsrc. right; exact Hp'.
    + rewrite Forall_forall in Hp |- *.
      intros c Hc. apply in_map_iff in Hc. destruct Hc as (p' & <- & Hin).
      specialize (Hp p' Hin). apply order_by_leb_spec in Hp.
      destruct (Hsrc p (or_introl eq_refl)) as (r & _ & Hr).
      destruct (Hsrc p' (or_intror Hin)) as (r' & _ & Hr').
      destruct p as [d c0], p' as [d' c']. simpl in *.
      apply search_row_spec in Hr. apply search_row_spec in Hr'.
      destruct Hr as (e & _ & _ & _ & _ & _ & _ & Hsim).
      destruct Hr' as (e' & _ & _ & _ & _ & _ & _ & Hsim').
      unfold ranked. rewrite Hsim, Hsim'.
      destruct Hp as [Hlt|[Heq Hind]].
      * split; [lra | intros Habs; lra].
      * split; [lra | intros _; exact Hind].
  - rewrite Forall_forall. intros c Hc.
    apply in_map_iff in Hc. destruct Hc as ([d c'] & <- & Hin). simpl.
    destruct (Hsrc _ Hin) as (r & Hr & Hrow).
    apply search_row_spec in Hrow.
    destruct Hrow as (e & H1 & H2 & H3 & H4 & H5 & H6 & H7).
    exists r, e. subst d. repeat split; assumption.
Qed.

(** C1. For every description and every [k], [retrieveHTSCodes] either
    throws -- the embedding call failed, the query failed or [k] is
    negative -- or returns at most [k] candidates, ordered by
    similarity descending and, among equally similar ones, by indent
    descending, each one the projection of a row of [tariff_codes] with
    indent <= 2, a non-null embedding and a non-null code. *)
Theorem retrieveHTSCodes_top_k (W : World) {L : Type}
    (productDescription : JsString) (k : Z) (s : St L) :
  let inputs := lit "Product: " ++ productDescription in
  match snd (retrieveHTSCodes W productDescription k s) with
  | inr rows =>
      exists o,
        featureExtraction W (clock s) inputs = inr o
        /\ Z.of_nat (List.length rows) <= k
        /\ StronglySorted ranked rows
        /\ Forall (from_eligible_row W (flatten o) (table s)) rows
  | inl e =>
      featureExtraction W (clock s) inputs = inl e
      \/ (exists o,
            featureExtraction W (clock s) inputs = inr o
            /\ query_failure W (S (clock s)) (SearchQuery (flatten o) k) = Some e)
      \/ k < 0
  end.
Proof.
  intros inputs.
  unfold retrieveHTSCodes, try_catch, bind, hf_featureExtraction, pool_query,
    bind, tick, lift_result, get_table, console_error, emit, throw, ret.
  fold inputs. cbn [clock table trace locals fst snd].
  destruct (featureExtraction W (clock s) inputs) as [e|o] eqn:Hhf;
    cbn [clock table trace locals fst snd].
  - left; reflexivity.
  - destruct (query_failure W (S (clock s)) (SearchQuery (flatten o) k))
      as [e|] eqn:Hq; cbn [clock table trace locals fst snd].
    + right; left. exists o; auto.
    + destruct (Z.ltb_spec k 0) as [Hk|Hk].
      * unfold search_sql. destruct (Z.ltb_spec k 0); [|lia].
        cbn. right; right; exact Hk.
      * destruct (search_sql_rows W (flatten o) k (table s) Hk)
          as (rows & -> & Hlen & Hsorted & Hfrom).
        cbn. exists o. auto.
Qed.

(* ================================================================== *)
(** ** Running monadic programs *)

Lemma bind_inl {L A B} (m : M L A) (f : A -> M L B) s s' e :
  m s = (s', inl e) -> bind m f s = (s', inl e).
Proof. unfold bind; intros ->; reflexivity. Qed.

Lemma bind_inr {L A B} (m : M L A) (f : A -> M L B) s s' a :
  m s = (s', inr a) -> bind m f s = f a s'.
Proof. unfold bind; intros ->; reflexivity. Qed.

Lemma try_catch_inl {L A} (m : M L A) (h : Exn -> M L A) s s' e :
  m s = (s', inl e) -> try_catch m h s = h e s'.
Proof. unfold try_catch; intros ->; reflexivity. Qed.

Lemma try_catch_inr {L A} (m : M L A) (h : Exn -> M L A) s s' a :
  m s = (s', inr a) -> try_catch m h s = (s', inr a).
Proof. unfold try_catch; intros ->; reflexivity. Qed.


(* ================================================================== *)
(** ** The request pipeline *)

Section Pipeline.
Variable W : World.
Variables (d : JsString) (country : JsValue).

Lemma pipeline_retrieval_failed s s1 e :
  retrieveHTSCodes W d 5 s = (s1, inl e) ->
  classify_pipeline W d country s = (s1, inl e).
Proof. intros H. unfold classify_pipeline. apply bind_inl, H. Qed.

Lemma pipeline_no_candidates s s1 :
  retrieveHTSCodes W d 5 s = (s1, inr []) ->
  classify_pipeline W d country s = (s1, inr no_candidates).
Proof.
  intros H. unfold classify_pipeline. rewrite (bind_inr _ _ _ _ _ H).
  reflexivity.
Qed.

Lemma pipeline_classification_failed s s1 candidates s2 e :
  retrieveHTSCodes W d 5 s = (s1, inr candidates) ->
  candidates <> [] ->
  classificationChain_invoke W
    (classification_input W d country candidates) s1 = (s2, inl e) ->
  classify_pipeline W d country s = (s2, inl e).
Proof.
  intros H Hne Hc. unfold classify_pipeline. rewrite (bind_inr _ _ _ _ _ H).
  destruct candidates as [|c0 cs]; [congruence|].
  cbn [List.length Nat.eqb].
  apply bind_inl, Hc.
Qed.

Lemma pipeline_justification_failed s s1 candidates s2 c s3 e :
  retrieveHTSCodes W d 5 s = (s1, inr candidates) ->
  candidates <> [] ->
  classificationChain_invoke W
    (classification_input W d country candidates) s1 = (s2, inr c) ->
  justificationChain_invoke W (justification_input d c) s2 = (s3, inl e) ->
  classify_pipeline W d country s = (s3, inl e).
Proof.
  intros H Hne Hc Hj. unfold classify_pipeline.
  rewrite (bind_inr _ _ _ _ _ H).
  destruct candidates as [|c0 cs]; [congruence|].
  cbn [List.length Nat.eqb].
  change (classificationChain_invoke W _)
    with (classificationChain_invoke W
            (classification_input W d country (c0 :: cs))).
  rewrite (bind_inr _ _ _ _ _ Hc).
  apply bind_inl, Hj.
Qed.

Lemma pipeline_completed s s1 candidates s2 c s3 j :
  retrieveHTSCodes W d 5 s = (s1, inr candidates) ->
  candidates <> [] ->
  classificationChain_invoke W
    (classification_input W d country candidates) s1 = (s2, inr c) ->
  justificationChain_invoke W (justification_input d c) s2 = (s3, inr j) ->
  classify_pipeline W d country s
  = (s3, inr (success (success_bundle candidates c j))).
Proof.
  intros H Hne Hc Hj. unfold classify_pipeline.
  rewrite (bind_inr _ _ _ _ _ H).
  destruct candidates as [|c0 cs]; [congruence|].
  cbn [List.length Nat.eqb].
  change (classificationChain_invoke W _)
    with (classificationChain_invoke W
            (classification_input W d country (c0 :: cs))).
  rewrite (bind_inr _ _ _ _ _ Hc).
  change (justificationChain_invoke W _)
    with (justificationChain_invoke W (justification_input d c)).
  rewrite (bind_inr _ _ _ _ _ Hj).
  reflexivity.
Qed.

(** The pipeline ends in exactly one of four ways. *)
Lemma pipeline_cases s :
  exists s' out,
    classify_pipeline W d country s = (s', out)
    /\ ((exists e, out = inl e /\ StageFailure W d country s e)
        \/ (out = inr no_candidates
            /\ retrieveHTSCodes W d 5 s = (s', inr []))
        \/ (exists b, out = inr (success b)
                      /\ StagesCompleted W d country s s' b)).
Proof.
  destruct (retrieveHTSCodes W d 5 s) as [s1 [e|candidates]] eqn:Hr.
  - exists s1, (inl e). split; [apply pipeline_retrieval_failed, Hr|].
    left. exists e; split; [reflexivity|]. eapply RetrievalFailed, Hr.
  - destruct candidates as [|c0 cs].
    + exists s1, (inr no_candidates).
      split; [apply pipeline_no_candidates, Hr|]. right; left. auto.
    + assert (Hne : c0 :: cs <> []) by discriminate.
      destruct (classificationChain_invoke W
                  (classification_input W d country (c0 :: cs)) s1)
        as [s2 [e|c]] eqn:Hc.
      * exists s2, (inl e).
        split; [eapply pipeline_classification_failed; eauto|].
        left. exists e; split; [reflexivity|].
        eapply ClassificationFailed; eauto.
      * destruct (justificationChain_invoke W (justification_input d c) s2)
          as [s3 [e|j]] eqn:Hj.
        -- exists s3, (inl e).
           split; [eapply pipeline_justification_failed; eauto|].
           left. exists e; split; [reflexivity|].
           eapply JustificationFailed; eauto.
        -- exists s3, (inr (success (success_bundle (c0 :: cs) c j))).
           split; [eapply pipeline_completed; eauto|].
           right; right. eexists; split; [reflexivity|].
           exists s1, (c0 :: cs), s2, c, j. auto.
Qed.
End Pipeline.

Lemma classify_post_valid (W : World) (req : Request) (d : JsString) s :
  product_description req = JsStr d ->
  trim d <> [] ->
  classify_post W req s
  = try_catch
      (classify_pipeline W d (country_or_default (country_of_origin req)))
      (fun err =>
         console_error (10060%N :: lit " Classification error:") err ;;;
         ret (classification_failed err)) s.
Proof.
  intros Hd Ht. unfold classify_post. rewrite Hd.
  destruct (trim d); [congruence | reflexivity].
Qed.

(** C3. A request whose [product_description] is missing, null, empty or
    made of whitespace only is answered with the validation failure, and
    the state is left as it was: the trace gains no event, so there was no
    embedding call, no query and no language-model call. *)
Theorem blank_description_rejected (W : World) (req : Request) (s : St unit) :
  product_description req = JsUndefined
  \/ product_description req = JsNull
  \/ (exists d, product_description req = JsStr d /\ whitespace_only d) ->
  classify_post W req s = (s, inr bad_request).
Proof.
  intros [H|[H|(d & H & Hws)]]; unfold classify_post; rewrite H;
    try reflexivity.
  rewrite (trim_whitespace d Hws). reflexivity.
Qed.

Lemma blank_description_rejected_witness :
  classify_post (steady_world [1; 0]%Q (lit "8471.30") [])
    {| product_description := JsStr (lit "   ");
       country_of_origin := JsUndefined |}
    (initial sample_table tt)
  = (initial sample_table tt, inr bad_request).
Proof.
  apply blank_description_rejected.
  right; right. exists (lit "   "). split; [reflexivity|].
  repeat constructor.
Defined.


(** A success response is sent only after the three stages completed. *)
Lemma success_inv (W : World) (req : Request) (d : JsString)
    (s s' : St unit) (b : Bundle) :
  product_description req = JsStr d ->
  classify_post W req s = (s', inr (success b)) ->
  StagesCompleted W d (country_or_default (country_of_origin req)) s s' b.
Proof.
  intros Hd Hrun.
  destruct (trim d) as [|c0 t] eqn:Ht.
  - unfold classify_post in Hrun. rewrite Hd, Ht in Hrun. discriminate.
  - assert (Hne : trim d <> []) by (rewrite Ht; discriminate).
    rewrite (classify_post_valid W req d s Hd Hne) in Hrun.
    destruct (pipeline_cases W d (country_or_default (country_of_origin req)) s)
      as (s1 & out & Hp & [(e & -> & _)|[(-> & _)|(b' & -> & Hdone)]]).
    + rewrite (try_catch_inl _ _ _ _ _ Hp) in Hrun. cbn in Hrun.
      discriminate.
    + rewrite (try_catch_inr _ _ _ _ _ Hp) in Hrun. discriminate.
    + rewrite (try_catch_inr _ _ _ _ _ Hp) in Hrun.
      inversion Hrun; subst. exact Hdone.
Qed.

(** The bundle of the handler reports what it was built from. *)
Lemma success_bundle_reports (candidates : list Candidate)
    (c : Classification) (j : JsString) :
  bundle_reports candidates c j (success_bundle candidates c j).
Proof.
  unfold bundle_reports.
  cbn [success_bundle classification justification retrieved_candidates
         metadata out_hts_code out_description out_confidence out_structure
         st_chapter st_heading st_subheading alternatives_considered
         retrieval_count].
  rewrite !map_map. cbn [retrieved_candidate rc_code rc_description].
  repeat split; reflexivity.
Qed.

(** C5. When retrieval, classification or justification synthesis raises
    an error the response has status 500 and carries the cause as its
    details; a response with a bundle has status 200 and is sent only
    after all three stages completed, the bundle holding the
    classification and the justification they produced.  The handler
    sends nothing else than these and the no-candidates outcome. *)
Theorem stage_failure_is_generic_failure (W : World) (req : Request)
    (d : JsString) (s : St unit) :
  product_description req = JsStr d ->
  trim d <> [] ->
  let country := country_or_default (country_of_origin req) in
  (forall e, StageFailure W d country s e ->
             exists resp,
               snd (classify_post W req s) = inr resp
               /\ status resp = 500
               /\ body resp = ErrorDetailsBody (lit "classification_failed") e)
  /\ (forall s' resp b,
        classify_post W req s = (s', inr resp) ->
        body resp = SuccessBody b ->
        status resp = 200
        /\ exists s1 candidates s2 c j,
             retrieveHTSCodes W d 5 s = (s1, inr candidates)
             /\ candidates <> []
             /\ classificationChain_invoke W
                  (classification_input W d country candidates) s1
                = (s2, inr c)
             /\ justificationChain_invoke W (justification_input d c) s2
                = (s', inr j)
             /\ b = success_bundle candidates c j
             /\ bundle_reports candidates c j b)
  /\ (exists s' resp,
        classify_post W req s = (s', inr resp)
        /\ ((status resp = 404
             /\ body resp = ErrorMessageBody (lit "no_candidates_found")
                              (lit "No HTS codes found in database"))
            \/ (exists e,
                  status resp = 500
                  /\ body resp
                     = ErrorDetailsBody (lit "classification_failed") e
                  /\ StageFailure W d country s e)
            \/ (exists b,
                  status resp = 200
                  /\ body resp = SuccessBody b
                  /\ StagesCompleted W d country s s' b))).
Proof.
  intros Hd Ht country.
  rewrite (classify_post_valid W req d s Hd Ht). fold country.
  destruct (pipeline_cases W d country s)
    as (s1 & out & Hrun & Hout).
  split; [|split].
  - intros e Hfail.
    assert (Hrun' : exists s', classify_pipeline W d country s = (s', inl e)).
    { destruct Hfail as [s2 H|s2 cs s3 H Hne Hc|s2 cs s3 c s4 H Hne Hc Hj].
      - exists s2. apply pipeline_retrieval_failed, H.
      - exists s3. eapply pipeline_classification_failed; eauto.
      - exists s4. eapply pipeline_justification_failed; eauto. }
    destruct Hrun' as (s' & Hrun').
    rewrite (try_catch_inl _ _ _ _ _ Hrun'). cbn.
    eexists. split; [reflexivity|]. split; reflexivity.
  - intros s' resp b Hpost Hbody.
    destruct Hout as [(e & -> & _)|[(-> & _)|(b' & -> & Hdone)]].
    + rewrite (try_catch_inl _ _ _ _ _ Hrun) in Hpost. cbn in Hpost.
      inversion Hpost; subst. discriminate Hbody.
    + rewrite (try_catch_inr _ _ _ _ _ Hrun) in Hpost.
      inversion Hpost; subst. discriminate Hbody.
    + rewrite (try_catch_inr _ _ _ _ _ Hrun) in Hpost.
      inversion Hpost; subst. cbn in Hbody. inversion Hbody; subst b'.
      split; [reflexivity|].
      destruct Hdone
        as (s2 & candidates & s3 & c & j & Hr & Hne & Hc & Hj & Hb).
      exists s2, candidates, s3, c, j.
      split; [exact Hr|]. split; [exact Hne|]. split; [exact Hc|].
      split; [exact Hj|]. split; [exact Hb|].
      rewrite Hb. apply success_bundle_reports.
  - destruct Hout as [(e & -> & Hfail)|[(-> & _)|(b' & -> & Hdone)]].
    + rewrite (try_catch_inl _ _ _ _ _ Hrun). cbn.
      eexists _, _. split; [reflexivity|]. right; left.
      exists e. split; [reflexivity|]. split; [reflexivity | exact Hfail].
    + rewrite (try_catch_inr _ _ _ _ _ Hrun).
      eexists _, _. split; [reflexivity|]. left. split; reflexivity.
    + rewrite (try_catch_inr _ _ _ _ _ Hrun).
      eexists _, _. split; [reflexivity|]. right; right.
      exists b'. split; [reflexivity|]. split; [reflexivity | exact Hdone].
Qed.


Lemma stage_failure_is_generic_failure_witness :
  exists resp,
    snd (classify_post (justification_down [1; 0]%Q (lit "8471.30") [])
           (request "laptop") (initial sample_table tt))
    = inr resp
    /\ status resp = 500
    /\ body resp
       = ErrorDetailsBody (lit "classification_failed")
           (lit "Rate limit reached").
Proof.
  refine (proj1 (stage_failure_is_generic_failure
                   (justification_down [1; 0]%Q (lit "8471.30") [])
                   (request "laptop") (lit "laptop")
                   (initial sample_table tt) eq_refl _) _ _).
  - vm_compute. discriminate.
  - eapply JustificationFailed.
    + vm_compute. reflexivity.
    + discriminate.
    + vm_compute. reflexivity.
    + vm_compute. reflexivity.
Defined.

(* ================================================================== *)
(** ** The success bundle *)

(** *** Rounding to binary64 *)

Lemma Qfloor_bounds (q : Q) :
  (inject_Z (Qfloor q) <= q /\ q < inject_Z (Qfloor q) + 1)%Q.
Proof.
  pose proof (Qfloor_le q) as Hle.
  pose proof (Qlt_floor q) as Hlt.
  rewrite inject_Z_plus in Hlt. change (inject_Z 1) with 1%Q in Hlt.
  split; assumption.
Qed.

Lemma Qcompare_cases (p q : Q) :
  match (p ?= q)%Q with
  | Eq => (p == q)%Q
  | Lt => (p < q)%Q
  | Gt => (q < p)%Q
  end.
Proof.
  destruct (p ?= q)%Q eqn:H.
  - apply Qeq_alt, H.
  - apply Qlt_alt, H.
  - apply Qgt_alt, H.
Qed.

Lemma round_half_even_floor (q : Q) :
  Qfloor q <= round_half_even q <= Qfloor q + 1.
Proof.
  unfold round_half_even.
  destruct (q - inject_Z (Qfloor q) ?= 1 # 2)%Q; try lia.
  destruct (Z.even (Qfloor q)); lia.
Qed.

Lemma round_half_even_ge (n : Z) (q : Q) :
  (inject_Z n <= q)%Q -> n <= round_half_even q.
Proof.
  intros H. pose proof (round_half_even_floor q) as [Hf _].
  apply Qfloor_resp_le in H. rewrite Qfloor_Z in H. lia.
Qed.

Lemma round_half_even_le (n : Z) (q : Q) :
  (q <= inject_Z n)%Q -> round_half_even q <= n.
Proof.
  intros H. pose proof (round_half_even_floor q) as [_ Hf].
  pose proof (Qfloor_resp_le _ _ H) as Hfl. rewrite Qfloor_Z in Hfl.
  destruct (Z.eq_dec (Qfloor q) n) as [Heq|Hne]; [|lia].
  unfold round_half_even.
  destruct (Qfloor_bounds q) as [Hlo _]. rewrite Heq in *.
  assert (Hlt : (q - inject_Z n < 1 # 2)%Q) by lra.
  rewrite (proj1 (Qlt_alt _ _) Hlt). lia.
Qed.

Lemma round_half_even_monotone (p q : Q) :
  (p <= q)%Q -> round_half_even p <= round_half_even q.
Proof.
  intros H.
  pose proof (Qfloor_resp_le _ _ H) as Hfl.
  destruct (Z.eq_dec (Qfloor p) (Qfloor q)) as [Heq|Hne].
  - unfold round_half_even. rewrite Heq.
    pose proof (Qcompare_cases (p - inject_Z (Qfloor q)) (1 # 2)) as Hp.
    pose proof (Qcompare_cases (q - inject_Z (Qfloor q)) (1 # 2)) as Hq.
    destruct (p - inject_Z (Qfloor q) ?= 1 # 2)%Q;
      destruct (q - inject_Z (Qfloor q) ?= 1 # 2)%Q;
      try (destruct (Z.even (Qfloor q))); try lia; exfalso; lra.
  - pose proof (round_half_even_floor p). pose proof (round_half_even_floor q).
    lia.
Qed.

Lemma round_half_even_error (q : Q) :
  (- (1 # 2) <= inject_Z (round_half_even q) - q <= 1 # 2)%Q.
Proof.
  destruct (Qfloor_bounds q) as [Hlo Hhi].
  unfold round_half_even.
  pose proof (Qcompare_cases (q - inject_Z (Qfloor q)) (1 # 2)) as Hc.
  destruct (q - inject_Z (Qfloor q) ?= 1 # 2)%Q.
  - destruct (Z.even (Qfloor q)).
    + lra.
    + rewrite inject_Z_plus. change (inject_Z 1) with 1%Q. lra.
  - lra.
  - rewrite inject_Z_plus. change (inject_Z 1) with 1%Q. lra.
Qed.

Lemma pow2_pos (e : Z) : (0 < 2 ^ e)%Q.
Proof. apply Qpower_0_lt. reflexivity. Qed.

Lemma pow2_inject (n : Z) : 0 <= n -> (inject_Z (2 ^ n) == 2 ^ n)%Q.
Proof. intros H. rewrite (Zpower_Qpower 2 n H). reflexivity. Qed.

Lemma pow2_plus (n m : Z) : (2 ^ (n + m) == 2 ^ n * 2 ^ m)%Q.
Proof. apply Qpower_plus. discriminate. Qed.

Lemma ilog2_spec (x : Q) :
  (0 < x)%Q -> (2 ^ ilog2 x <= x /\ x < 2 ^ (ilog2 x + 1))%Q.
Proof.
  intros Hx. destruct x as [n d].
  assert (Hn : 0 < n).
  { unfold Qlt in Hx. cbn in Hx. lia. }
  unfold ilog2. cbn [Qnum Qden].
  set (a := Z.log2 n). set (b := Z.log2 (Z.pos d)). set (k := a - b).
  destruct (Z.log2_spec n Hn) as [Ha1 Ha2]. fold a in Ha1, Ha2.
  destruct (Z.log2_spec (Z.pos d) (Pos2Z.is_pos d)) as [Hb1 Hb2].
  fold b in Hb1, Hb2.
  assert (Ha0 : 0 <= a) by apply Z.log2_nonneg.
  assert (Hb0 : 0 <= b) by apply Z.log2_nonneg.
  rewrite Zle_Qle in Ha1, Hb1. rewrite Zlt_Qlt in Ha2, Hb2.
  replace (Z.succ a) with (a + 1) in Ha2 by lia.
  replace (Z.succ b) with (b + 1) in Hb2 by lia.
  rewrite pow2_inject in Ha1, Ha2, Hb1, Hb2 by lia.
  assert (Hxd : (n # d) * inject_Z (Z.pos d) == inject_Z n).
  { rewrite (Qmake_Qdiv n d). field.
    intros H. unfold Qeq in H. cbn in H. lia. }
  assert (Hup : (n # d < 2 ^ (k + 1))%Q).
  { assert (He : (2 ^ (a + 1) == 2 ^ (k + 1) * 2 ^ b)%Q).
    { rewrite <- pow2_plus. replace (k + 1 + b) with (a + 1) by (unfold k; lia).
      reflexivity. }
    pose proof (pow2_pos (k + 1)). pose proof (pow2_pos b).
    rewrite He in Ha2.
    apply Qnot_le_lt. intros Hcontra. nra. }
  assert (Hlow : (2 ^ (k - 1) < n # d)%Q).
  { assert (He : (2 ^ a == 2 ^ (k - 1) * 2 ^ (b + 1))%Q).
    { rewrite <- pow2_plus. replace (k - 1 + (b + 1)) with a by (unfold k; lia).
      reflexivity. }
    pose proof (pow2_pos (k - 1)). pose proof (pow2_pos (b + 1)).
    rewrite He in Ha1.
    apply Qnot_le_lt. intros Hcontra. nra. }
  destruct (Qle_bool (2 ^ k) (n # d)) eqn:Hk.
  - apply Qle_bool_iff in Hk. split; assumption.
  - assert (Hlt : (n # d < 2 ^ k)%Q).
    { apply Qnot_le_lt. intros H. apply Qle_bool_iff in H. congruence. }
    replace (k - 1 + 1) with k by lia. split; [apply Qlt_le_weak|]; assumption.
Qed.

Lemma pow2_le (n m : Z) : n <= m -> (2 ^ n <= 2 ^ m)%Q.
Proof. intros H. apply Qpower_le_compat_l; [exact H | discriminate]. Qed.

Lemma fl64_magnitude_nonneg (x : Q) : (0 <= x)%Q -> (0 <= fl64_magnitude x)%Q.
Proof.
  intros Hx. unfold fl64_magnitude. cbv zeta.
  generalize (Z.max (ilog2 x - 52) (-1074)). intros e.
  pose proof (pow2_pos e) as He. set (p := (2 ^ e)%Q) in *. clearbody p.
  assert (H0 : 0 <= round_half_even (x / p)).
  { apply round_half_even_ge. change (inject_Z 0) with 0%Q.
    apply Qle_shift_div_l; [exact He | lra]. }
  rewrite Zle_Qle in H0. change (inject_Z 0) with 0%Q in H0.
  set (r := inject_Z (round_half_even (x / p))) in *. clearbody r. nra.
Qed.

Lemma fl64_magnitude_0 (x : Q) : (x == 0)%Q -> (fl64_magnitude x == 0)%Q.
Proof.
  intros Hx. unfold fl64_magnitude. cbv zeta.
  generalize (Z.max (ilog2 x - 52) (-1074)). intros e.
  pose proof (pow2_pos e) as He. set (p := (2 ^ e)%Q) in *. clearbody p.
  assert (H0 : round_half_even (x / p) = 0).
  { assert (Hq : (x / p == 0)%Q) by (rewrite Hx; field; lra).
    set (q := (x / p)%Q) in *. clearbody q.
    apply Z.le_antisymm;
      [apply round_half_even_le | apply round_half_even_ge];
      change (inject_Z 0) with 0%Q; lra. }
  rewrite H0. ring.
Qed.

Lemma Qdiv_mult_cancel (x p : Q) : (0 < p)%Q -> (x / p * p == x)%Q.
Proof. intros H. field. lra. Qed.

Lemma fl64_magnitude_monotone (x y : Q) :
  (0 < x)%Q -> (x <= y)%Q -> (fl64_magnitude x <= fl64_magnitude y)%Q.
Proof.
  intros Hx Hxy.
  assert (Hy : (0 < y)%Q) by lra.
  destruct (ilog2_spec x Hx) as [Hx1 Hx2].
  destruct (ilog2_spec y Hy) as [Hy1 Hy2].
  assert (Hl : ilog2 x <= ilog2 y).
  { assert (H : (2 ^ ilog2 x < 2 ^ (ilog2 y + 1))%Q).
    { apply Qle_lt_trans with x; [exact Hx1|].
      apply Qle_lt_trans with y; assumption. }
    apply Qpower_lt_compat_l_inv in H; [lia | reflexivity]. }
  unfold fl64_magnitude. cbv zeta.
  set (ex := Z.max (ilog2 x - 52) (-1074)).
  set (ey := Z.max (ilog2 y - 52) (-1074)).
  pose proof (pow2_pos ex) as Hpx. pose proof (pow2_pos ey) as Hpy.
  destruct (Z.eq_dec ex ey) as [Heq|Hne].
  - rewrite Heq.
    assert (Hq : (x / 2 ^ ey <= y / 2 ^ ey)%Q).
    { apply Qle_shift_div_l; [exact Hpy|].
      rewrite Qdiv_mult_cancel by exact Hpy. exact Hxy. }
    apply round_half_even_monotone in Hq. rewrite Zle_Qle in Hq.
    apply Qmult_le_compat_r; [exact Hq | apply Qlt_le_weak, Hpy].
  - assert (Hey : ey = ilog2 y - 52) by lia.
    assert (Hlt : ilog2 x + 1 <= ilog2 y) by lia.
    assert (Hx3 : (x <= 2 ^ ilog2 y)%Q).
    { apply Qle_trans with (2 ^ (ilog2 x + 1))%Q;
        [apply Qlt_le_weak, Hx2 | apply pow2_le, Hlt]. }
    assert (Hd : 0 <= ilog2 y - ex) by lia.
    assert (E1 : (2 ^ (ilog2 y - ex) * 2 ^ ex == 2 ^ ilog2 y)%Q).
    { rewrite <- pow2_plus. replace (ilog2 y - ex + ex) with (ilog2 y) by lia.
      reflexivity. }
    assert (E2 : (2 ^ 52 * 2 ^ ey == 2 ^ ilog2 y)%Q).
    { rewrite <- pow2_plus. replace (52 + ey) with (ilog2 y) by lia.
      reflexivity. }
    assert (Hfx : round_half_even (x / 2 ^ ex) <= 2 ^ (ilog2 y - ex)).
    { apply round_half_even_le. rewrite (pow2_inject _ Hd).
      apply Qle_shift_div_r; [exact Hpx|]. rewrite E1. exact Hx3. }
    assert (Hfy : 2 ^ 52 <= round_half_even (y / 2 ^ ey)).
    { apply round_half_even_ge. rewrite pow2_inject by lia.
      apply Qle_shift_div_l; [exact Hpy|]. rewrite E2. exact Hy1. }
    rewrite Zle_Qle in Hfx, Hfy.
    rewrite (pow2_inject _ Hd) in Hfx. rewrite pow2_inject in Hfy by lia.
    apply Qle_trans with (2 ^ ilog2 y)%Q.
    + rewrite <- E1.
      apply Qmult_le_compat_r; [exact Hfx | apply Qlt_le_weak, Hpx].
    + rewrite <- E2.
      apply Qmult_le_compat_r; [exact Hfy | apply Qlt_le_weak, Hpy].
Qed.

Lemma Qle_bool_false (x y : Q) : Qle_bool x y = false -> (y < x)%Q.
Proof.
  intros H. apply Qnot_le_lt. intros Hle. apply Qle_bool_iff in Hle.
  congruence.
Qed.

Lemma fl64_monotone (x y : Q) : (x <= y)%Q -> (fl64 x <= fl64 y)%Q.
Proof.
  intros Hxy. unfold fl64.
  assert (Hmono : forall a b, (0 <= a)%Q -> (a <= b)%Q ->
                   (fl64_magnitude a <= fl64_magnitude b)%Q).
  { intros a b Ha Hab. destruct (Qlt_le_dec 0 a) as [Hpos|Hzero].
    - apply fl64_magnitude_monotone; assumption.
    - rewrite (fl64_magnitude_0 a) by lra.
      apply fl64_magnitude_nonneg. lra. }
  destruct (Qle_bool 0 x) eqn:Hx, (Qle_bool 0 y) eqn:Hy.
  - apply Qle_bool_iff in Hx. apply Hmono; assumption.
  - apply Qle_bool_iff in Hx. apply Qle_bool_false in Hy. lra.
  - apply Qle_bool_iff in Hy. apply Qle_bool_false in Hx.
    pose proof (fl64_magnitude_nonneg (- x)).
    pose proof (fl64_magnitude_nonneg y Hy). lra.
  - apply Qle_bool_false in Hx. apply Qle_bool_false in Hy.
    pose proof (Hmono (- y) (- x))%Q. lra.
Qed.

(** Below 128 the spacing of binary64 is at most 2^-46, so rounding moves
    a number by at most 2^-47. *)
Lemma fl64_magnitude_error (x : Q) :
  (0 <= x < 128)%Q ->
  (- (1 # 140737488355328) <= fl64_magnitude x - x <= 1 # 140737488355328)%Q.
Proof.
  intros [H0 H1].
  destruct (Qlt_le_dec 0 x) as [Hpos|Hzero].
  - destruct (ilog2_spec x Hpos) as [Hx1 _].
    assert (Hl : ilog2 x < 7).
    { assert (H : (2 ^ ilog2 x < 2 ^ 7)%Q).
      { apply Qle_lt_trans with x; [exact Hx1|]. exact H1. }
      apply Qpower_lt_compat_l_inv in H; [lia | reflexivity]. }
    unfold fl64_magnitude. cbv zeta.
    set (e := Z.max (ilog2 x - 52) (-1074)).
    assert (He : e <= -46) by lia.
    pose proof (pow2_pos e) as Hp.
    pose proof (pow2_le _ _ He) as Hp46.
    assert (Hc : (2 ^ (-46) == 1 # 70368744177664)%Q) by reflexivity.
    rewrite Hc in Hp46. clear Hc.
    pose proof (round_half_even_error (x / 2 ^ e)) as [Hr1 Hr2].
    pose proof (Qdiv_mult_cancel x _ Hp) as Hd.
    clearbody e.
    set (p := (2 ^ e)%Q) in *. clearbody p.
    set (q := (x / p)%Q) in *. clearbody q.
    set (r := inject_Z (round_half_even q)) in *. clearbody r.
    assert (A1 : ((r - q) * p <= (1 # 2) * p)%Q)
      by (apply Qmult_le_compat_r; lra).
    assert (A2 : (- (1 # 2) * p <= (r - q) * p)%Q)
      by (apply Qmult_le_compat_r; lra).
    split; lra.
  - rewrite (fl64_magnitude_0 x) by lra. lra.
Qed.

Lemma fl64_error (x : Q) :
  (-128 < x < 128)%Q ->
  (- (1 # 140737488355328) <= fl64 x - x <= 1 # 140737488355328)%Q.
Proof.
  intros [H0 H1]. unfold fl64.
  destruct (Qle_bool 0 x) eqn:Hx.
  - apply Qle_bool_iff in Hx. apply fl64_magnitude_error. lra.
  - apply Qle_bool_false in Hx.
    pose proof (fl64_magnitude_error (- x)). lra.
Qed.

Lemma round_half_even_nearest (q : Q) (n : Z) :
  (Qabs (inject_Z (round_half_even q) - q) <= Qabs (inject_Z n - q))%Q.
Proof.
  destruct (Qfloor_bounds q) as [Hlo Hhi].
  pose proof (round_half_even_error q) as [He1 He2].
  pose proof (round_half_even_floor q) as [Hf1 Hf2].
  assert (Hr : (inject_Z (round_half_even q) == inject_Z (Qfloor q)
                \/ inject_Z (round_half_even q) == inject_Z (Qfloor q) + 1)%Q).
  { destruct (Z.eq_dec (round_half_even q) (Qfloor q)) as [->|Hne].
    - left; reflexivity.
    - right. replace (round_half_even q) with (Qfloor q + 1) by lia.
      rewrite inject_Z_plus. reflexivity. }
  assert (Hn : (inject_Z n <= inject_Z (Qfloor q)
                \/ inject_Z (Qfloor q) + 1 <= inject_Z n)%Q).
  { destruct (Z_le_gt_dec n (Qfloor q)) as [Hle|Hgt].
    - left. rewrite <- Zle_Qle. exact Hle.
    - right. change 1%Q with (inject_Z 1). rewrite <- inject_Z_plus.
      rewrite <- Zle_Qle. lia. }
  clear Hf1 Hf2.
  set (r := inject_Z (round_half_even q)) in *. clearbody r.
  set (f := inject_Z (Qfloor q)) in *. clearbody f.
  set (m := inject_Z n) in *. clearbody m.
  apply (Qabs_case (r - q)); intros Hs1;
    apply (Qabs_case (m - q)); intros Hs2;
    destruct Hr as [Hr|Hr], Hn as [Hn|Hn]; lra.
Qed.

(** On the grid of the multiples of [2^e], [fl64_magnitude] picks a
    nearest point. *)
Lemma grid_nearest (x : Q) (e n : Z) :
  (Qabs (inject_Z (round_half_even (x / 2 ^ e)) * 2 ^ e - x)
   <= Qabs (inject_Z n * 2 ^ e - x))%Q.
Proof.
  pose proof (pow2_pos e) as Hp.
  pose proof (Qdiv_mult_cancel x _ Hp) as Hd.
  pose proof (round_half_even_nearest (x / 2 ^ e) n) as Hn.
  set (p := (2 ^ e)%Q) in *. clearbody p.
  set (q := (x / p)%Q) in *. clearbody q.
  set (r := inject_Z (round_half_even q)) in *. clearbody r.
  set (m := inject_Z n) in *. clearbody m.
  assert (E1 : (r * p - x == (r - q) * p)%Q) by (rewrite <- Hd; ring).
  assert (E2 : (m * p - x == (m - q) * p)%Q) by (rewrite <- Hd; ring).
  rewrite E1, E2, !Qabs_Qmult, (Qabs_pos p) by lra.
  apply Qmult_le_compat_r; [exact Hn | lra].
Qed.

Lemma binary64_opp (y : Q) : binary64 y -> binary64 (- y).
Proof.
  intros (m & e & Hm & He & Hy). exists (- m), e.
  split; [lia|]. split; [exact He|].
  rewrite Hy, inject_Z_opp. ring.
Qed.

Lemma fl64_magnitude_nearest (x : Q) :
  (0 <= x < 128)%Q -> nearest_binary64 x (fl64_magnitude x).
Proof.
  intros [H0 H1].
  destruct (Qlt_le_dec 0 x) as [Hpos|Hzero].
  - destruct (ilog2_spec x Hpos) as [Hx1 Hx2].
    assert (Hl : ilog2 x < 7).
    { assert (H : (2 ^ ilog2 x < 2 ^ 7)%Q).
      { apply Qle_lt_trans with x; [exact Hx1|]. exact H1. }
      apply Qpower_lt_compat_l_inv in H; [lia | reflexivity]. }
    unfold fl64_magnitude. cbv zeta.
    set (l := ilog2 x) in *.
    set (e := Z.max (l - 52) (-1074)).
    assert (He : -1074 <= e <= -46) by lia.
    pose proof (pow2_pos e) as Hp.
    assert (Hr0 : 0 <= round_half_even (x / 2 ^ e)).
    { apply round_half_even_ge. change (inject_Z 0) with 0%Q.
      apply Qle_shift_div_l; [exact Hp|].
      apply Qlt_le_weak. apply Qle_lt_trans with 0%Q; [|exact Hpos].
      apply Qle_lteq. right. ring. }
    assert (Hr1 : round_half_even (x / 2 ^ e) <= 2 ^ 53).
    { apply round_half_even_le. rewrite pow2_inject by lia.
      apply Qle_shift_div_r; [exact Hp|].
      rewrite <- pow2_plus.
      apply Qle_trans with (2 ^ (l + 1))%Q; [apply Qlt_le_weak, Hx2|].
      apply pow2_le. lia. }
    split.
    + destruct (Z.eq_dec (round_half_even (x / 2 ^ e)) (2 ^ 53)) as [Heq|Hne].
      * exists (2 ^ 52), (e + 1). split; [lia|]. split; [lia|].
        rewrite Heq, pow2_plus.
        change (inject_Z (2 ^ 53)) with (inject_Z (2 ^ 52) * 2 ^ 1)%Q.
        ring.
      * exists (round_half_even (x / 2 ^ e)), e.
        split; [lia|]. split; [lia | reflexivity].
    + intros y (m & f & Hm & Hf & Hy).
      destruct (Z_le_gt_dec e f) as [Hef|Hef].
      * assert (Hyg : (y == inject_Z (m * 2 ^ (f - e)) * 2 ^ e)%Q).
        { rewrite Hy, inject_Z_mult, pow2_inject by lia.
          rewrite <- Qmult_assoc, <- pow2_plus.
          replace (f - e + e) with f by lia. reflexivity. }
        rewrite Hyg. apply grid_nearest.
      * assert (Hel : e = l - 52) by lia.
        assert (Hgrid : (2 ^ l == inject_Z (2 ^ 52) * 2 ^ e)%Q).
        { rewrite pow2_inject by lia. rewrite <- pow2_plus.
          replace (52 + e) with l by lia. reflexivity. }
        pose proof (grid_nearest x e (2 ^ 52)) as Hn.
        rewrite <- Hgrid in Hn.
        assert (Hy2 : (y <= 2 ^ l)%Q).
        { rewrite Hy.
          apply Qle_trans with (inject_Z (2 ^ 53) * 2 ^ f)%Q.
          - apply Qmult_le_compat_r;
              [rewrite <- Zle_Qle; lia | apply Qlt_le_weak, pow2_pos].
          - rewrite pow2_inject by lia. rewrite <- pow2_plus.
            apply pow2_le. lia. }
        eapply Qle_trans; [exact Hn|].
        set (t := (2 ^ l)%Q) in *. clearbody t.
        apply (Qabs_case (t - x)); intros Hs1;
          apply (Qabs_case (y - x)); intros Hs2; lra.
  - assert (Hx : (x == 0)%Q) by lra.
    pose proof (fl64_magnitude_0 x Hx) as Hf.
    split.
    + exists 0, 0. split; [reflexivity|]. split; [lia|].
      rewrite Hf. reflexivity.
    + intros y _. rewrite Hf.
      apply (Qabs_case (0 - x)); intros Hs1;
        apply (Qabs_case (y - x)); intros Hs2; lra.
Qed.

Lemma fl64_nearest (x : Q) :
  (-128 < x < 128)%Q -> nearest_binary64 x (fl64 x).
Proof.
  intros [H0 H1]. unfold fl64.
  destruct (Qle_bool 0 x) eqn:Hx.
  - apply Qle_bool_iff in Hx. apply fl64_magnitude_nearest. lra.
  - apply Qle_bool_false in Hx.
    destruct (fl64_magnitude_nearest (- x)) as [Hb Hn]; [lra|].
    split; [apply binary64_opp, Hb|].
    intros y Hy. specialize (Hn (- y)%Q (binary64_opp y Hy)).
    assert (E1 : (- fl64_magnitude (- x) - x
                  == - (fl64_magnitude (- x) - - x))%Q) by ring.
    assert (E2 : (y - x == - (- y - - x))%Q) by ring.
    rewrite E1, E2, !Qabs_opp. exact Hn.
Qed.

Lemma fl64_0 : (fl64 0 == 0)%Q.
Proof. vm_compute. reflexivity. Qed.

Lemma fl64_100 : (fl64 100 == 100)%Q.
Proof. vm_compute. reflexivity. Qed.

(** The product by 100 of a similarity in [-1, 1] is rounded by at most
    [2^-47]. *)
Lemma js_mul_100_error (sim : Q) :
  (-1 <= sim <= 1)%Q ->
  (- product_rounding <= js_mul sim 100 - sim * 100 <= product_rounding)%Q.
Proof.
  intros [H0 H1]. unfold js_mul, product_rounding. apply fl64_error. lra.
Qed.

Lemma js_mul_100_nearest (sim : Q) :
  (-1 <= sim <= 1)%Q -> nearest_binary64 (sim * 100) (js_mul sim 100).
Proof.
  intros [H0 H1]. unfold js_mul. apply fl64_nearest. lra.
Qed.

Lemma js_mul_100_range (sim : Q) :
  (0 <= sim <= 1)%Q -> (0 <= js_mul sim 100 <= 100)%Q.
Proof.
  intros [H0 H1]. unfold js_mul. split.
  - rewrite <- fl64_0. apply fl64_monotone. lra.
  - rewrite <- fl64_100 at 2. apply fl64_monotone. lra.
Qed.

(** *** One decimal *)

Lemma nearest_tenth_bounds (x : Q) :
  (inject_Z (nearest_tenth x) <= x * 10 + (1 # 2)
   /\ x * 10 - (1 # 2) < inject_Z (nearest_tenth x))%Q.
Proof.
  unfold nearest_tenth.
  pose proof (Qfloor_le (x * 10 + (1 # 2))) as Hle.
  pose proof (Qlt_floor (x * 10 + (1 # 2))) as Hlt.
  rewrite inject_Z_plus in Hlt.
  change (inject_Z 1) with 1%Q in Hlt.
  split; lra.
Qed.

Lemma Qdiv_10 (n : Q) : (n / 10 == n * (1 # 10))%Q.
Proof. unfold Qdiv. reflexivity. Qed.

Lemma parseFloat_toFixed1_rounds (p : Q) :
  one_decimal_of p (parseFloat_toFixed1 p).
Proof.
  unfold one_decimal_of, parseFloat_toFixed1, toFixed1_tenths,
    toFixed1_sign.
  destruct (Qle_bool 0 p) eqn:Hs; cbn [negb]; cbv zeta.
  - split.
    + exists (nearest_tenth p). reflexivity.
    + destruct (nearest_tenth_bounds p). rewrite Qdiv_10. lra.
  - split.
    + exists (- nearest_tenth (- p)). rewrite inject_Z_opp.
      rewrite !Qdiv_10. ring.
    + destruct (nearest_tenth_bounds (- p)). rewrite Qdiv_10. lra.
Qed.

Lemma parseFloat_toFixed1_in_range (p : Q) :
  (0 <= p <= 100)%Q ->
  (0 <= parseFloat_toFixed1 p <= 100)%Q.
Proof.
  intros [H0 H1].
  unfold parseFloat_toFixed1, toFixed1_tenths, toFixed1_sign.
  assert (Hs : Qle_bool 0 p = true) by (apply Qle_bool_iff; lra).
  rewrite Hs. cbn [negb]. cbv zeta. unfold nearest_tenth.
  assert (Hlo : 0 <= Qfloor (p * 10 + (1 # 2))%Q).
  { change 0 with (Qfloor 0). apply Qfloor_resp_le. lra. }
  assert (Hhi : Qfloor (p * 10 + (1 # 2))%Q <= 1000).
  { change 1000 with (Qfloor (1000 + (1 # 2))). apply Qfloor_resp_le. lra. }
  rewrite Zle_Qle in Hlo, Hhi.
  change (inject_Z 0) with 0%Q in Hlo.
  change (inject_Z 1000) with 1000%Q in Hhi.
  rewrite Qdiv_10. lra.
Qed.

(** The chain returns what the model replied, provided it passes the
    schema. *)
Lemma classificationChain_invoke_inr (W : World) (i : ClassificationInput)
    (s s' : St unit) (c : Classification) :
  classificationChain_invoke W i s = (s', inr c) ->
  llm_structured W (clock s) i = inr c /\ classificationSchema c = true.
Proof.
  unfold classificationChain_invoke, bind, tick, lift_result, throw, ret.
  cbn [clock table trace locals].
  destruct (llm_structured W (clock s) i) as [e|c']; [discriminate|].
  destruct (classificationSchema c') eqn:Hok; [|discriminate].
  intros H; inversion H; subst. auto.
Qed.

(** C6, as the code has it.  In every success bundle the reported
    similarity of each retrieved candidate is the double-precision product
    [similarity * 100] written with one decimal: a whole number of tenths
    within half a tenth of that product.  For a similarity in [-1, 1] the
    product is a binary64 number nearest to the exact percentage, and the
    reported value is within half a tenth and [2^-47] of the exact
    percentage.  It lies in [0, 100] whenever the candidate's similarity
    lies in [0, 1].  Nothing clamps the similarity [1 - distance], which
    is negative for a distance above 1. *)
Theorem similarity_percent_one_decimal (W : World) (req : Request)
    (d : JsString) (s s' : St unit) (b : Bundle) :
  product_description req = JsStr d ->
  classify_post W req s = (s', inr (success b)) ->
  exists s1 candidates,
    retrieveHTSCodes W d 5 s = (s1, inr candidates)
    /\ Forall2
         (fun c rc =>
            rc_code rc = code c
            /\ one_decimal_of (js_mul (similarity c) 100) (rc_similarity rc)
            /\ ((-1 <= similarity c <= 1)%Q ->
                nearest_binary64 (similarity c * 100)
                  (js_mul (similarity c) 100)
                /\ reported_percent (similarity c) (rc_similarity rc))
            /\ ((0 <= similarity c <= 1)%Q ->
                (0 <= rc_similarity rc <= 100)%Q))
         candidates (retrieved_candidates b).
Proof.
  intros Hd Hrun.
  destruct (success_inv W req d s s' b Hd Hrun)
    as (s1 & candidates & s2 & c & j & Hr & _ & _ & _ & ->).
  exists s1, candidates. split; [exact Hr|].
  cbn [retrieved_candidates success_bundle].
  clear. induction candidates as [|c cs IH]; simpl; constructor; [|exact IH].
  cbn [retrieved_candidate rc_code rc_similarity].
  pose proof (parseFloat_toFixed1_rounds (js_mul (similarity c) 100))
    as [Htenths Hnear].
  split; [reflexivity|]. split; [split; assumption|]. split.
  - intros Hsim. split; [apply js_mul_100_nearest, Hsim|].
    split; [exact Htenths|].
    pose proof (js_mul_100_error (similarity c) Hsim). lra.
  - intros Hsim. apply parseFloat_toFixed1_in_range, js_mul_100_range, Hsim.
Qed.

Lemma similarity_percent_one_decimal_witness :
  exists b s1 candidates,
    retrieveHTSCodes (steady_world [1; 0]%Q (lit "8471.30") []) (lit "laptop")
      5 (initial sample_table tt) = (s1, inr candidates)
    /\ Forall2
         (fun c rc =>
            rc_code rc = code c
            /\ one_decimal_of (js_mul (similarity c) 100) (rc_similarity rc)
            /\ ((-1 <= similarity c <= 1)%Q ->
                nearest_binary64 (similarity c * 100)
                  (js_mul (similarity c) 100)
                /\ reported_percent (similarity c) (rc_similarity rc))
            /\ ((0 <= similarity c <= 1)%Q ->
                (0 <= rc_similarity rc <= 100)%Q))
         candidates (retrieved_candidates b).
Proof.
  eexists.
  eapply (similarity_percent_one_decimal
            (steady_world [1; 0]%Q (lit "8471.30") []) (request "laptop")
            (lit "laptop") (initial sample_table tt)).
  - reflexivity.
  - vm_compute. reflexivity.
Defined.

(** The product is rounded before the decimal is: the double nearest to
    0.0065 is below 0.0065, its exact percentage would be written 0.6,
    and the handler reports 0.7; likewise 69.5 and not 69.6 for the
    double nearest to 0.6955. *)
Example product_is_rounded_first :
  (parseFloat_toFixed1 (js_mul (fl64 (65 # 10000)) 100) == 7 # 10)%Q
  /\ (parseFloat_toFixed1 (fl64 (65 # 10000) * 100) == 6 # 10)%Q
  /\ (parseFloat_toFixed1 (js_mul (fl64 (6955 # 10000)) 100) == 695 # 10)%Q
  /\ (parseFloat_toFixed1 (fl64 (6955 # 10000) * 100) == 696 # 10)%Q.
Proof. vm_compute. repeat split; reflexivity. Qed.

(** C6 as stated fails: a row whose embedding points away from the query
    has cosine distance 2, similarity -1, and is reported at -100. *)
Lemma similarity_percent_below_zero :
  exists s' b rc,
    classify_post (steady_world [1; 0]%Q (lit "8471.30") []) (request "laptop")
      (initial sample_table tt) = (s', inr (success b))
    /\ In rc (retrieved_candidates b)
    /\ rc_code rc = lit "0101"
    /\ ~ (0 <= rc_similarity rc <= 100)%Q.
Proof.
  eexists _, _, _. split; [vm_compute; reflexivity|].
  split; [right; right; right; left; reflexivity|].
  split; [reflexivity|].
  intros [H _]. vm_compute in H. apply H. reflexivity.
Qed.

(** C2, as the code has it.  In every success response the selected code
    and the alternatives are the ones of the model's validated reply,
    passed through unchanged; they belong to the candidate set of the
    request whenever the model's reply chose them there. *)
Theorem selected_codes_are_the_models (W : World) (req : Request)
    (d : JsString) (s s' : St unit) (b : Bundle) :
  product_description req = JsStr d ->
  classify_post W req s = (s', inr (success b)) ->
  exists s1 candidates c,
    retrieveHTSCodes W d 5 s = (s1, inr candidates)
    /\ llm_structured W (clock s1)
         (classification_input W d
            (country_or_default (country_of_origin req)) candidates) = inr c
    /\ map rc_code (retrieved_candidates b) = candidate_codes candidates
    /\ out_hts_code (classification b) = hts_code c
    /\ alternatives_considered (classification b) = alternative_codes c
    /\ (In (hts_code c) (candidate_codes candidates) ->
        incl (alternative_codes c) (candidate_codes candidates) ->
        In (out_hts_code (classification b)) (candidate_codes candidates)
        /\ incl (alternatives_considered (classification b))
             (candidate_codes candidates)).
Proof.
  intros Hd Hrun.
  destruct (success_inv W req d s s' b Hd Hrun)
    as (s1 & candidates & s2 & c & j & Hr & _ & Hc & _ & ->).
  apply classificationChain_invoke_inr in Hc. destruct Hc as [Hc _].
  exists s1, candidates, c.
  cbn [retrieved_candidates classification success_bundle out_hts_code
         alternatives_considered].
  repeat split; auto.
  unfold candidate_codes. rewrite map_map. reflexivity.
Qed.

Lemma selected_codes_are_the_models_witness :
  exists b s1 candidates c,
    retrieveHTSCodes (steady_world [1; 0]%Q (lit "8471.30") [lit "8471"])
      (lit "laptop") 5 (initial sample_table tt) = (s1, inr candidates)
    /\ llm_structured (steady_world [1; 0]%Q (lit "8471.30") [lit "8471"])
         (clock s1)
         (classification_input
            (steady_world [1; 0]%Q (lit "8471.30") [lit "8471"])
            (lit "laptop")
            (country_or_default (country_of_origin (request "laptop")))
            candidates) = inr c
    /\ map rc_code (retrieved_candidates b) = candidate_codes candidates
    /\ out_hts_code (classification b) = hts_code c
    /\ alternatives_considered (classification b) = alternative_codes c
    /\ (In (hts_code c) (candidate_codes candidates) ->
        incl (alternative_codes c) (candidate_codes candidates) ->
        In (out_hts_code (classification b)) (candidate_codes candidates)
        /\ incl (alternatives_considered (classification b))
             (candidate_codes candidates)).
Proof.
  eexists.
  eapply (selected_codes_are_the_models
            (steady_world [1; 0]%Q (lit "8471.30") [lit "8471"])
            (request "laptop") (lit "laptop") (initial sample_table tt)).
  - reflexivity.
  - vm_compute. reflexivity.
Defined.

(** C2 as stated fails: nothing in the handler compares the model's reply
    with the candidates, so a reply naming other codes is returned as a
    success. *)
Lemma selected_code_outside_candidates :
  exists s' b,
    classify_post (steady_world [1; 0]%Q (lit "8542.31") [lit "8542.39"])
      (request "laptop") (initial sample_table tt) = (s', inr (success b))
    /\ ~ In (out_hts_code (classification b))
            (map rc_code (retrieved_candidates b))
    /\ ~ incl (alternatives_considered (classification b))
              (map rc_code (retrieved_candidates b)).
Proof.
  eexists _, _. split; [vm_compute; reflexivity|].
  split.
  - cbn. intros H.
    repeat (destruct H as [H|H]; [discriminate H|]). exact H.
  - intros Hincl.
    specialize (Hincl (lit "8542.39") (or_introl eq_refl)).
    cbn in Hincl.
    repeat (destruct Hincl as [Hincl|Hincl]; [discriminate Hincl|]).
    exact Hincl.
Qed.

(* ================================================================== *)
(** ** The embedding script: one row *)

Section RowFacts.
Variable W : World.

(** The three ways the body of the [for] loop can go.  In each of them
    the [try] / [catch] returns normally. *)
Lemma processRow_embedding_failed (row : BatchRow) (s : St JobLocals) e :
  featureExtraction W (clock s) (textToEmbed row) = inl e ->
  processRow W row s
  = (mkSt (table s) (S (clock s))
       (EvConsoleError row_failed e :: EvEmbed (textToEmbed row) :: trace s)
       (locals s),
     inr tt).
Proof.
  intros H. unfold processRow. io_step. rewrite H. reflexivity.
Qed.

Lemma processRow_update_failed (row : BatchRow) (s : St JobLocals) o e :
  featureExtraction W (clock s) (textToEmbed row) = inr o ->
  query_failure W (S (clock s)) (UpdateQuery (flatten o) (b_htsno row))
  = Some e ->
  processRow W row s
  = (mkSt (table s) (S (S (clock s)))
       (EvConsoleError row_failed e
          :: EvQuery (UpdateQuery (flatten o) (b_htsno row))
          :: EvEmbed (textToEmbed row) :: trace s)
       (locals s),
     inr tt).
Proof.
  intros H Hq. unfold processRow. io_step. rewrite H. io_step.
  rewrite Hq. reflexivity.
Qed.

Lemma processRow_embedded (row : BatchRow) (s : St JobLocals) o :
  featureExtraction W (clock s) (textToEmbed row) = inr o ->
  query_failure W (S (clock s)) (UpdateQuery (flatten o) (b_htsno row))
  = None ->
  processRow W row s
  = (mkSt (update_rows (flatten o) (b_htsno row) (table s))
       (S (S (clock s)))
       ((match b_descript row with
         | Some _ => EvSleep 700
         | None => EvConsoleError row_failed substring_of_null
         end)
          :: EvQuery (UpdateQuery (flatten o) (b_htsno row))
          :: EvEmbed (textToEmbed row) :: trace s)
       {| processed := S (processed (locals s));
          batchNumber := batchNumber (locals s) |},
     inr tt).
Proof.
  intros H Hq. unfold processRow. io_step. rewrite H. io_step.
  rewrite Hq. unfold update_sql. io_step.
  destruct (b_descript row); reflexivity.
Qed.
End RowFacts.

(* ------------------------------------------------------------------ *)
(** *** The UPDATE and the rows still to embed *)

Lemma htsno_is_spec (h : JsString) (r : TariffCode) :
  htsno_is h r = true <-> htsno r = Some h.
Proof.
  unfold htsno_is. destruct (htsno r) as [h'|].
  - rewrite js_eqb_eq. split; congruence.
  - split; discriminate.
Qed.

Lemma update_rows_Forall2 (e : Vector) (h : JsString) (tbl : list TariffCode) :
  Forall2 (updated_row e h) tbl (update_rows e h tbl).
Proof.
  unfold update_rows.
  induction tbl as [|r tbl IH]; simpl; constructor; [|exact IH].
  unfold updated_row.
  destruct (htsno_is h r) eqn:Hh.
  - split; [reflexivity|]. apply htsno_is_spec in Hh. congruence.
  - split; [|reflexivity]. intros Hr. apply htsno_is_spec in Hr. congruence.
Qed.

Lemma pending_set_embedding (e : Vector) (r : TariffCode) :
  pending (set_embedding e r) = false.
Proof.
  unfold pending, set_embedding; cbn.
  rewrite andb_false_r. reflexivity.
Qed.

Lemma pending_update_le (e : Vector) (h : JsString) (tbl : list TariffCode) :
  (pending_count (update_rows e h tbl) <= pending_count tbl)%nat.
Proof.
  unfold pending_count, update_rows.
  induction tbl as [|r tbl IH]; simpl; [lia|].
  destruct (htsno_is h r).
  - rewrite pending_set_embedding. destruct (pending r); simpl; lia.
  - destruct (pending r); simpl; lia.
Qed.

Lemma pending_update_lt (e : Vector) (h : JsString) (tbl : list TariffCode) r :
  In r tbl -> pending r = true -> htsno r = Some h ->
  (pending_count (update_rows e h tbl) < pending_count tbl)%nat.
Proof.
  intros Hin Hp Hh. unfold pending_count.
  induction tbl as [|r0 tbl IH]; [contradiction|].
  pose proof (pending_update_le e h tbl) as Hle. unfold pending_count in Hle.
  change (update_rows e h (r0 :: tbl))
    with ((if htsno_is h r0 then set_embedding e r0 else r0)
            :: update_rows e h tbl).
  destruct Hin as [->|Hin].
  - apply htsno_is_spec in Hh. rewrite Hh. simpl.
    rewrite pending_set_embedding, Hp. simpl. lia.
  - specialize (IH Hin). simpl.
    destruct (htsno_is h r0).
    + rewrite pending_set_embedding. destruct (pending r0); simpl; lia.
    + destruct (pending r0); simpl; lia.
Qed.

Lemma batch_row_pending (r : TariffCode) (row : BatchRow) :
  batch_row r = Some row ->
  pending r = true /\ htsno r = Some (b_htsno row).
Proof.
  unfold batch_row, pending.
  destruct (indent r <=? 2); [|discriminate].
  destruct (embedding r); [discriminate|].
  destruct (htsno r); [|discriminate].
  intros H; inversion H; subst. auto.
Qed.

Lemma pending_batch_row (r : TariffCode) :
  pending r = true -> exists row, batch_row r = Some row.
Proof.
  unfold batch_row, pending.
  destruct (indent r <=? 2); [|discriminate].
  destruct (embedding r); [discriminate|].
  destruct (htsno r); [|discriminate].
  intros _. eexists; reflexivity.
Qed.

Lemma nullable_eqb_eq (a b : option JsString) :
  nullable_eqb a b = true <-> a = b.
Proof.
  destruct a as [x|], b as [y|]; cbn;
    try (split; [discriminate | discriminate]); try tauto.
  rewrite js_eqb_eq. split; congruence.
Qed.

Lemma batch_eqb_eq (a b : BatchRow) : batch_eqb a b = true <-> a = b.
Proof.
  destruct a as [h d i], b as [h' d' i']. unfold batch_eqb. cbn.
  rewrite !andb_true_iff, js_eqb_eq, nullable_eqb_eq, Z.eqb_eq.
  split; [intros [[-> ->] ->]; reflexivity | intros H; inversion H; auto].
Qed.

Lemma distinct_on_In (x : BatchRow) (l : list BatchRow) :
  In x (distinct_on l) -> In x l.
Proof.
  induction l as [|y l IH]; [tauto|].
  cbn [distinct_on]. intros [->|H]; [left; reflexivity|].
  apply filter_In in H. right. apply IH, H.
Qed.

Lemma distinct_on_nil (l : list BatchRow) : distinct_on l = [] -> l = [].
Proof. destruct l; [reflexivity | discriminate]. Qed.

Lemma distinct_on_NoDup (l : list BatchRow) : NoDup (distinct_on l).
Proof.
  induction l as [|x l IH]; cbn [distinct_on]; constructor.
  - intros H. apply filter_In in H. destruct H as [_ H].
    rewrite (proj2 (batch_eqb_eq x x) eq_refl) in H. discriminate.
  - apply NoDup_filter, IH.
Qed.

Lemma NoDup_firstn {A} (n : nat) (l : list A) : NoDup l -> NoDup (firstn n l).
Proof.
  intros H; revert n; induction H as [|x l Hx Hl IH]; intros [|n]; simpl;
    try constructor.
  - intros Hin. apply Hx. eapply firstn_In, Hin.
  - apply IH.
Qed.

Lemma batch_rows_nil (tbl : list TariffCode) :
  filter_map batch_row tbl = [] <-> pending_count tbl = 0%nat.
Proof.
  unfold pending_count.
  induction tbl as [|r tbl IH]; simpl; [tauto|].
  destruct (pending r) eqn:Hp.
  - destruct (pending_batch_row r Hp) as (row & ->).
    split; discriminate.
  - destruct (batch_row r) as [row|] eqn:Hrow; [|exact IH].
    apply batch_row_pending in Hrow. destruct Hrow as [Hp' _]. congruence.
Qed.

(** The rows of a batch: each is the key of a row still to embed, and
    there is one as long as such a row exists. *)
Lemma batch_sql_rows (tbl : list TariffCode) :
  batch_sql BATCH_SIZE tbl = inr (tbl, batch_rows BATCH_SIZE tbl)
  /\ (forall row, In row (batch_rows BATCH_SIZE tbl) ->
        exists r, In r tbl /\ pending r = true
                  /\ htsno r = Some (b_htsno row))
  /\ (batch_rows BATCH_SIZE tbl = [] <-> pending_count tbl = 0%nat).
Proof.
  unfold batch_sql, batch_rows. change (BATCH_SIZE <? 0) with false.
  split; [reflexivity|]. split.
  - intros row Hin.
    apply firstn_In, distinct_on_In in Hin.
    apply isort_In, filter_map_In in Hin.
    destruct Hin as (r & Hr & Hrow).
    apply batch_row_pending in Hrow. exists r. tauto.
  - change (Z.to_nat BATCH_SIZE) with 10%nat.
    rewrite <- batch_rows_nil. split.
    + intros Hnil.
      assert (Hd : distinct_on (isort batch_leb (filter_map batch_row tbl)) = []).
      { destruct (distinct_on _); [reflexivity | discriminate Hnil]. }
      apply distinct_on_nil in Hd.
      apply (f_equal (@List.length _)) in Hd. rewrite isort_length in Hd.
      destruct (filter_map batch_row tbl); [reflexivity | discriminate Hd].
    + intros ->. reflexivity.
Qed.

(* ================================================================== *)
(** ** The embedding script: one batch *)

Section BatchFacts.
Variable W : World.

Lemma for_of_cons {A} (x : A) (l : list A) (body : A -> M JobLocals unit)
    s s' :
  body x s = (s', inr tt) ->
  for_of (x :: l) body s = for_of l body s'.
Proof. intros H. cbn [for_of]. unfold bind. rewrite H. reflexivity. Qed.

(** What one row does to the state, whichever way it goes. *)
Lemma processRow_summary (row : BatchRow) (s : St JobLocals) :
  exists s',
    processRow W row s = (s', inr tt)
    /\ (S (clock s) <= clock s')%nat
    /\ (pending_count (table s') <= pending_count (table s))%nat
    /\ embed_calls (trace s') = textToEmbed row :: embed_calls (trace s)
    /\ (processed (locals s) <= processed (locals s'))%nat
    /\ (S (processed (locals s) + console_errors (trace s))
        <= processed (locals s') + console_errors (trace s'))%nat.
Proof.
  destruct (featureExtraction W (clock s) (textToEmbed row)) as [e|o] eqn:Hhf.
  - rewrite (processRow_embedding_failed W row s e Hhf).
    eexists; split; [reflexivity|].
    cbn [clock table trace locals]. unfold console_errors. cbn.
    repeat split; lia.
  - destruct (query_failure W (S (clock s))
                (UpdateQuery (flatten o) (b_htsno row))) as [e|] eqn:Hq.
    + rewrite (processRow_update_failed W row s o e Hhf Hq).
      eexists; split; [reflexivity|].
      cbn [clock table trace locals]. unfold console_errors. cbn.
      repeat split; lia.
    + rewrite (processRow_embedded W row s o Hhf Hq).
      eexists; split; [reflexivity|].
      cbn [clock table trace locals processed].
      pose proof (pending_update_le (flatten o) (b_htsno row) (table s)).
      unfold console_errors.
      destruct (b_descript row); cbn; repeat split; lia.
Qed.

Lemma for_of_processRow_summary (rows : list BatchRow) (s : St JobLocals) :
  exists s',
    for_of rows (processRow W) s = (s', inr tt)
    /\ (clock s + List.length rows <= clock s')%nat
    /\ (pending_count (table s') <= pending_count (table s))%nat
    /\ embed_calls (trace s')
       = rev (map textToEmbed rows) ++ embed_calls (trace s)
    /\ (processed (locals s) <= processed (locals s'))%nat
    /\ (List.length rows + processed (locals s) + console_errors (trace s)
        <= processed (locals s') + console_errors (trace s'))%nat.
Proof.
  revert s. induction rows as [|row rows IH]; intros s.
  - exists s. cbn. repeat split; lia.
  - destruct (processRow_summary row s)
      as (s1 & Hrun & Hc & Hp & He & Hn & Hl).
    destruct (IH s1) as (s' & Hrun' & Hc' & Hp' & He' & Hn' & Hl').
    exists s'. rewrite (for_of_cons _ _ _ _ _ Hrun).
    split; [exact Hrun'|].
    cbn [List.length map rev].
    repeat split; try lia.
    rewrite He', He, <- app_assoc. reflexivity.
Qed.
End BatchFacts.

(** C8. The [for] loop over a batch never ends in an exception, whatever
    the embedding service and the database answer: every row of the batch
    gets its embedding call, in order, and each row either counts as
    processed or has its failure logged.  A row whose embedding call or
    whose UPDATE fails logs the cause and leaves the table as it was. *)
Theorem row_failure_does_not_abort_batch (W : World) (rows : list BatchRow)
    (s : St JobLocals) :
  (exists s',
     for_of rows (processRow W) s = (s', inr tt)
     /\ embed_calls (trace s')
        = rev (map textToEmbed rows) ++ embed_calls (trace s)
     /\ (List.length rows + processed (locals s) + console_errors (trace s)
         <= processed (locals s') + console_errors (trace s'))%nat)
  /\ (forall row s0 e,
        featureExtraction W (clock s0) (textToEmbed row) = inl e
        \/ (exists o,
              featureExtraction W (clock s0) (textToEmbed row) = inr o
              /\ query_failure W (S (clock s0))
                   (UpdateQuery (flatten o) (b_htsno row)) = Some e) ->
        exists s1 evs,
          processRow W row s0 = (s1, inr tt)
          /\ trace s1 = EvConsoleError row_failed e :: evs
          /\ table s1 = table s0
          /\ locals s1 = locals s0).
Proof.
  split.
  - destruct (for_of_processRow_summary W rows s)
      as (s' & Hrun & _ & _ & He & _ & Hl).
    exists s'. auto.
  - intros row s0 e [Hhf|(o & Hhf & Hq)].
    + rewrite (processRow_embedding_failed W row s0 e Hhf).
      eexists _, _. repeat split.
    + rewrite (processRow_update_failed W row s0 o e Hhf Hq).
      eexists _, _. repeat split.
Qed.

Lemma update_rows_effect (e : Vector) (h : JsString) (tbl : list TariffCode) :
  Forall2 (update_effect e h) tbl (update_rows e h tbl).
Proof.
  unfold update_rows.
  induction tbl as [|r tbl IH]; simpl; constructor; [|exact IH].
  unfold update_effect.
  destruct (htsno_is h r) eqn:Hh.
  - split.
    + intros _. cbn. repeat split; reflexivity.
    + apply htsno_is_spec in Hh. congruence.
  - split; [|reflexivity]. intros Hr. apply htsno_is_spec in Hr. congruence.
Qed.

(** C10. When the embedding call of a batch row succeeds and its UPDATE
    goes through, every row of [tariff_codes] whose [htsno] is the code of
    the batch row holds that embedding afterwards -- whatever its indent
    and its description, which it keeps with its other columns -- and
    every other row is left as it was. *)
Theorem update_reaches_every_row_of_the_code (W : World) (row : BatchRow)
    (s : St JobLocals) (o : HfOutput) :
  featureExtraction W (clock s) (textToEmbed row) = inr o ->
  query_failure W (S (clock s)) (UpdateQuery (flatten o) (b_htsno row)) = None ->
  Forall2
    (fun r r' =>
       (htsno r = Some (b_htsno row) ->
        embedding r' = Some (flatten o)
        /\ update_effect (flatten o) (b_htsno row) r r')
       /\ (htsno r <> Some (b_htsno row) -> r' = r))
    (table s) (table (fst (processRow W row s))).
Proof.
  intros Hhf Hq. rewrite (processRow_embedded W row s o Hhf Hq).
  cbn [fst table].
  pose proof (update_rows_effect (flatten o) (b_htsno row) (table s)) as H.
  induction H as [|r r' l l' Hr _ IH]; constructor; [|exact IH].
  split.
  - intros Hcode. split; [|exact Hr]. apply Hr, Hcode.
  - intros Hcode. apply Hr, Hcode.
Qed.

Lemma update_reaches_every_row_of_the_code_witness :
  Forall2
    (fun r r' =>
       (htsno r = Some (lit "8471") ->
        embedding r' = Some [1; 0]%Q
        /\ update_effect [1; 0]%Q (lit "8471") r r')
       /\ (htsno r <> Some (lit "8471") -> r' = r))
    unembedded_table
    (table (fst (processRow (steady_world [1; 0]%Q (lit "8471") [])
                   {| b_htsno := lit "8471";
                      b_descript := Some (lit "Other");
                      b_indent := 1 |}
                   (initial unembedded_table
                      {| processed := 0; batchNumber := 1 |})))).
Proof.
  apply (update_reaches_every_row_of_the_code
           (steady_world [1; 0]%Q (lit "8471") [])
           {| b_htsno := lit "8471";
              b_descript := Some (lit "Other");
              b_indent := 1 |}
           (initial unembedded_table {| processed := 0; batchNumber := 1 |})
           (HfFlat [1; 0]%Q)).
  - reflexivity.
  - reflexivity.
Defined.

(** The row of indent 4 and the row with another description share the
    code 8471 and receive the embedding; the rows of code 7324 and without
    code keep none. *)
Example update_reaches_indent_4 :
  map embedding
    (table (fst (processRow (steady_world [1; 0]%Q (lit "8471") [])
                   {| b_htsno := lit "8471";
                      b_descript := Some (lit "Other");
                      b_indent := 1 |}
                   (initial unembedded_table
                      {| processed := 0; batchNumber := 1 |}))))
  = [Some [1; 0]%Q; Some [1; 0]%Q; Some [1; 0]%Q; None; None].
Proof. vm_compute. reflexivity. Qed.

(* ================================================================== *)
(** ** The embedding script: the loop *)

Section LoopFacts.
Variable W : World.

(** The batch statement reads the table and changes nothing in it. *)
Lemma batch_query_run (s : St JobLocals) :
  pool_query W (BatchQuery BATCH_SIZE) (batch_sql BATCH_SIZE) s
  = (mkSt (table s) (S (clock s))
       (EvQuery (BatchQuery BATCH_SIZE) :: trace s) (locals s),
     match query_failure W (clock s) (BatchQuery BATCH_SIZE) with
     | Some e => inl e
     | None => inr (batch_rows BATCH_SIZE (table s))
     end).
Proof.
  io_step.
  destruct (query_failure W (clock s) (BatchQuery BATCH_SIZE)); [reflexivity|].
  cbn [clock table trace locals].
  rewrite (proj1 (batch_sql_rows (table s))). reflexivity.
Qed.

Lemma count_query_run (s : St JobLocals) :
  pool_query W CountQuery count_sql s
  = (mkSt (table s) (S (clock s)) (EvQuery CountQuery :: trace s) (locals s),
     match query_failure W (clock s) CountQuery with
     | Some e => inl e
     | None =>
         inr (List.length
                (filter (fun r => (indent r <=? 2) && isNull (embedding r))
                   (table s)))
     end).
Proof.
  io_step. destruct (query_failure W (clock s) CountQuery); reflexivity.
Qed.

(** Exit of the loop on an empty batch, within one iteration. *)
Lemma while_loop_nothing_pending (fuel total : nat) (s : St JobLocals) :
  pending_count (table s) = 0%nat ->
  exists s' r,
    while_loop W (S fuel) total s = Some (s', r)
    /\ table s' = table s
    /\ embed_calls (trace s') = embed_calls (trace s)
    /\ updates (trace s') = updates (trace s).
Proof.
  intros H0. cbn [while_loop].
  destruct (Nat.ltb (processed (locals s)) total).
  - rewrite batch_query_run. cbn [clock table trace locals].
    destruct (query_failure W (clock s) (BatchQuery BATCH_SIZE)).
    + eexists _, _. split; [reflexivity|]. repeat split.
    + rewrite (proj2 (proj2 (proj2 (batch_sql_rows (table s)))) H0).
      cbn [List.length Nat.eqb].
      eexists _, _. split; [reflexivity|]. repeat split.
  - eexists _, _. split; [reflexivity|]. repeat split.
Qed.

(** Once the services answer every call, each iteration that does not
    leave the loop embeds at least one more row; before that, each
    iteration at least advances the clock. *)
Lemma while_loop_terminates (n : nat) :
  settles W n ->
  forall fuel total s,
    (n - clock s + pending_count (table s) < fuel)%nat ->
    exists out, while_loop W fuel total s = Some out.
Proof.
  intros Hsettle. induction fuel as [|fuel IH]; intros total s Hfuel; [lia|].
  cbn [while_loop].
  destruct (Nat.ltb (processed (locals s)) total); [|eexists; reflexivity].
  rewrite batch_query_run. cbn [clock table trace locals].
  destruct (query_failure W (clock s) (BatchQuery BATCH_SIZE));
    [eexists; reflexivity|].
  destruct (batch_sql_rows (table s)) as (_ & Hsrc & _).
  destruct (batch_rows BATCH_SIZE (table s)) as [|row rows];
    [eexists; reflexivity|].
  cbn [List.length Nat.eqb].
  set (s2 := mkSt (table s) (S (clock s))
               (EvQuery (BatchQuery BATCH_SIZE) :: trace s)
               {| processed := processed (locals s);
                  batchNumber := S (batchNumber (locals s)) |}).
  destruct (processRow_summary W row s2) as (s2' & Hrow & Hc & Hp & _).
  destruct (for_of_processRow_summary W rows s2')
    as (s3 & Hrest & Hc' & Hp' & _).
  rewrite (for_of_cons _ _ _ _ _ Hrow), Hrest.
  apply IH.
  assert (Hs2c : clock s2 = S (clock s)) by reflexivity.
  assert (Hs2t : table s2 = table s) by reflexivity.
  assert (Hp2 : (pending_count (table s2') <= pending_count (table s))%nat)
    by (rewrite <- Hs2t; exact Hp).
  destruct (Nat.le_gt_cases n (clock s)) as [Hn|Hn]; [|lia].
  (* the services answer: the first row of the batch is embedded *)
  destruct (Hsettle (clock s2)) as [Hhf _]; [lia|].
  destruct (Hhf (textToEmbed row)) as (o & Ho).
  destruct (Hsettle (S (clock s2))) as [_ Hq]; [lia|].
  specialize (Hq (UpdateQuery (flatten o) (b_htsno row))).
  rewrite (processRow_embedded W row s2 o Ho Hq) in Hrow.
  inversion Hrow as [Hs2']; clear Hrow.
  destruct (Hsrc row (or_introl eq_refl)) as (r & Hin & Hpend & Hcode).
  pose proof (pending_update_lt (flatten o) (b_htsno row) (table s) r
                Hin Hpend Hcode) as Hlt.
  rewrite <- Hs2' in Hp'. cbn [table] in Hp'. subst s2. cbn [table] in Hp'.
  lia.
Qed.

(** While the embedding service refuses every call and the database
    answers, a row still to embed keeps the loop running. *)
Lemma for_of_all_refused (rows : list BatchRow) (s : St JobLocals) :
  (forall t x, exists e, featureExtraction W t x = inl e) ->
  exists s',
    for_of rows (processRow W) s = (s', inr tt)
    /\ table s' = table s
    /\ processed (locals s') = processed (locals s).
Proof.
  intros Hdown. revert s. induction rows as [|row rows IH]; intros s.
  - exists s. auto.
  - destruct (Hdown (clock s) (textToEmbed row)) as (e & He).
    pose proof (processRow_embedding_failed W row s e He) as Hrow.
    rewrite (for_of_cons _ _ _ _ _ Hrow).
    destruct (IH (mkSt (table s) (S (clock s))
                    (EvConsoleError row_failed e
                       :: EvEmbed (textToEmbed row) :: trace s)
                    (locals s)))
      as (s' & Hrun & Ht & Hl).
    exists s'. auto.
Qed.

Lemma while_loop_stuck :
  (forall t x, exists e, featureExtraction W t x = inl e) ->
  (forall t q, query_failure W t q = None) ->
  forall fuel total s,
    (processed (locals s) < total)%nat ->
    (0 < pending_count (table s))%nat ->
    while_loop W fuel total s = None.
Proof.
  intros Hdown Hdb. induction fuel as [|fuel IH]; intros total s Hlt Hpend;
    [reflexivity|].
  cbn [while_loop].
  destruct (Nat.ltb_spec (processed (locals s)) total) as [_|Hge]; [|lia].
  rewrite batch_query_run, Hdb. cbn [clock table trace locals].
  destruct (batch_sql_rows (table s)) as (_ & _ & Hnil).
  destruct (batch_rows BATCH_SIZE (table s)) as [|row rows].
  - pose proof (proj1 Hnil eq_refl). lia.
  - cbn [List.length Nat.eqb].
    match goal with
    | |- context [for_of _ _ ?s2] =>
        destruct (for_of_all_refused (row :: rows) s2 Hdown)
          as (s3 & -> & Ht & Hl)
    end.
    apply IH.
    + rewrite Hl. exact Hlt.
    + rewrite Ht. exact Hpend.
Qed.
End LoopFacts.

Lemma no_pending_count (tbl : list TariffCode) :
  (forall r, In r tbl -> pending r = false) -> pending_count tbl = 0%nat.
Proof.
  unfold pending_count. induction tbl as [|r tbl IH]; intros H; [reflexivity|].
  simpl. rewrite (H r (or_introl eq_refl)). apply IH.
  intros r' Hr'. apply H. right; exact Hr'.
Qed.

(* ------------------------------------------------------------------ *)
(** *** Rows embedded against rows counted *)

Lemma batch_row_set_embedding (e : Vector) (r : TariffCode) :
  batch_row (set_embedding e r) = None.
Proof.
  unfold batch_row, set_embedding; cbn.
  destruct (indent r <=? 2); reflexivity.
Qed.

Lemma pending_as_batch_row (r : TariffCode) :
  pending r = match batch_row r with Some _ => true | None => false end.
Proof.
  unfold pending, batch_row.
  destruct (indent r <=? 2), (embedding r), (htsno r); reflexivity.
Qed.

Lemma embedded_from_batch_row (r r' : TariffCode) :
  embedded_from r r' -> batch_row r' = None \/ r' = r.
Proof.
  intros [->|(e & ->)]; [right; reflexivity|].
  left. apply batch_row_set_embedding.
Qed.

Lemma count_covers_pending (tbl : list TariffCode) :
  (pending_count tbl
   <= List.length
        (filter (fun r => andb (Z.leb (indent r) 2) (isNull (embedding r)))
           tbl))%nat.
Proof.
  unfold pending_count, pending.
  induction tbl as [|r tbl IH]; simpl; [lia|].
  destruct (indent r <=? 2), (isNull (embedding r)), (isNull (htsno r));
    simpl; lia.
Qed.

Lemma batch_rows_NoDup (tbl : list TariffCode) :
  NoDup (batch_rows BATCH_SIZE tbl).
Proof. unfold batch_rows. apply NoDup_firstn, distinct_on_NoDup. Qed.

Lemma batch_rows_source (tbl : list TariffCode) (k : BatchRow) :
  In k (batch_rows BATCH_SIZE tbl) ->
  exists r, In r tbl /\ batch_row r = Some k.
Proof.
  unfold batch_rows. intros Hin.
  apply firstn_In, distinct_on_In in Hin.
  apply isort_In, filter_map_In in Hin. exact Hin.
Qed.

Lemma without_key_length (k : BatchRow) (ks : list BatchRow) :
  NoDup ks -> In k ks ->
  S (List.length (filter (fun y => negb (batch_eqb k y)) ks)) = List.length ks.
Proof.
  induction 1 as [|x ks Hx Hnd IH]; [contradiction|].
  intros [->|Hin]; cbn [filter].
  - rewrite (proj2 (batch_eqb_eq k k) eq_refl). cbn [negb List.length].
    f_equal.
    clear IH Hnd. induction ks as [|y ks IH]; [reflexivity|].
    cbn [filter]. destruct (batch_eqb k y) eqn:Hky.
    + apply batch_eqb_eq in Hky. subst y. exfalso. apply Hx. left; reflexivity.
    + cbn [negb List.length]. f_equal. apply IH.
      intros H. apply Hx. right; exact H.
  - destruct (batch_eqb k x) eqn:Hkx.
    + apply batch_eqb_eq in Hkx. subst x. contradiction.
    + cbn [negb List.length]. f_equal. apply IH, Hin.
Qed.

Lemma In_key_dec (k : BatchRow) (ks : list BatchRow) : In k ks \/ ~ In k ks.
Proof.
  induction ks as [|x ks [IH|IH]]; [right; intros [] | left; right; exact IH |].
  destruct (batch_eqb k x) eqn:Hkx.
  - apply batch_eqb_eq in Hkx. left; left; congruence.
  - right. intros [->|H]; [|exact (IH H)].
    rewrite (proj2 (batch_eqb_eq k k) eq_refl) in Hkx. discriminate.
Qed.

(** Keys that were embedded each take at least one row of their own out
    of the rows still to embed. *)
Lemma pending_count_drop (tbl tbl' : list TariffCode) :
  Forall2 embedded_from tbl tbl' ->
  forall ks : list BatchRow,
    NoDup ks ->
    (forall k, In k ks -> exists r, In r tbl /\ batch_row r = Some k) ->
    Forall2 (fun r r' => forall k, In k ks -> batch_row r = Some k ->
                                   batch_row r' = None) tbl tbl' ->
    (pending_count tbl' + List.length ks <= pending_count tbl)%nat.
Proof.
  unfold pending_count.
  induction 1 as [|r r' tbl tbl' Hr Hrest IH]; intros ks Hnd Hsrc Hdone.
  - destruct ks as [|k ks]; [cbn; lia|].
    destruct (Hsrc k (or_introl eq_refl)) as (r & [] & _).
  - inversion Hdone as [|? ? ? ? Hhead Htail]; subst.
    cbn [filter]. rewrite (pending_as_batch_row r), (pending_as_batch_row r').
    destruct (batch_row r) as [k|] eqn:Hk.
    + destruct (In_key_dec k ks) as [Hin|Hnin].
      * rewrite (Hhead k Hin eq_refl).
        set (ks' := filter (fun y => negb (batch_eqb k y)) ks).
        assert (Hlen : S (List.length ks') = List.length ks)
          by (apply without_key_length; assumption).
        assert (Hks' : forall k', In k' ks' -> In k' ks /\ k' <> k).
        { intros k' Hk'. apply filter_In in Hk'. destruct Hk' as [Hk' Hne].
          split; [exact Hk'|]. intros ->.
          rewrite (proj2 (batch_eqb_eq k k) eq_refl) in Hne. discriminate. }
        specialize (IH ks').
        cbn [List.length]. rewrite <- Hlen.
        enough ((List.length (filter pending tbl') + List.length ks'
                 <= List.length (filter pending tbl))%nat) by lia.
        apply IH.
        -- apply NoDup_filter, Hnd.
        -- intros k' Hk'. destruct (Hks' k' Hk') as [Hin' Hne].
           destruct (Hsrc k' Hin') as (r0 & [<-|Hr0] & Hb); [congruence|].
           eauto.
        -- eapply Forall2_impl; [|exact Htail].
           intros a b Hab k' Hk'. apply Hab, Hks', Hk'.
      * specialize (IH ks).
        enough ((List.length (filter pending tbl') + List.length ks
                 <= List.length (filter pending tbl))%nat)
          by (destruct (batch_row r'); cbn [List.length]; lia).
        apply IH; [exact Hnd | | exact Htail].
        intros k' Hk'.
        destruct (Hsrc k' Hk') as (r0 & [<-|Hr0] & Hb); [congruence|].
        eauto.
    + destruct (embedded_from_batch_row r r' Hr) as [->| ->];
        [|rewrite Hk]; apply IH; try assumption;
        intros k' Hk';
        destruct (Hsrc k' Hk') as (r0 & [<-|Hr0] & Hb); try congruence; eauto.
Qed.

Lemma Forall2_compose {A} (P Q T : A -> A -> Prop) (l1 l2 l3 : list A) :
  (forall a b c, P a b -> Q b c -> T a c) ->
  Forall2 P l1 l2 -> Forall2 Q l2 l3 -> Forall2 T l1 l3.
Proof.
  intros HT H12. revert l3.
  induction H12 as [|a b l1 l2 Hab _ IH]; intros l3 H23;
    inversion H23; subst; constructor; eauto.
Qed.

Lemma Forall2_diag {A} (P : A -> A -> Prop) (l : list A) :
  (forall a, P a a) -> Forall2 P l l.
Proof. intros HP. induction l; constructor; auto. Qed.

Lemma Forall2_conj {A} (P Q : A -> A -> Prop) (l l' : list A) :
  Forall2 (fun a b => P a b /\ Q a b) l l' -> Forall2 P l l' /\ Forall2 Q l l'.
Proof.
  induction 1 as [|a b l l' [Hp Hq] _ [IH1 IH2]]; split; constructor; auto.
Qed.

Section Progress.
Variable W : World.

(** The rows of a batch whose UPDATE went through: there are as many as
    [processed] grew by, and every row of the table with the code of one of
    them is embedded at the end of the batch. *)
Lemma for_of_processRow_progress (rows : list BatchRow) :
  NoDup rows ->
  forall s,
  exists s' done,
    for_of rows (processRow W) s = (s', inr tt)
    /\ NoDup done
    /\ incl done rows
    /\ processed (locals s') = (processed (locals s) + List.length done)%nat
    /\ Forall2
         (fun r r' =>
            embedded_from r r'
            /\ forall k, In k done -> htsno r = Some (b_htsno k) ->
                         batch_row r' = None)
         (table s) (table s').
Proof.
  induction 1 as [|row rows Hrow Hnd IH]; intros s.
  - exists s, []. cbn. repeat split; try constructor; try lia.
    + intros k [].
    + apply Forall2_diag. intros r. split; [left; reflexivity | intros k []].
  - assert (Hskip :
      forall s1, processRow W row s = (s1, inr tt) ->
                 table s1 = table s -> locals s1 = locals s ->
                 exists s' done,
                   for_of (row :: rows) (processRow W) s = (s', inr tt)
                   /\ NoDup done
                   /\ incl done (row :: rows)
                   /\ processed (locals s')
                      = (processed (locals s) + List.length done)%nat
                   /\ Forall2
                        (fun r r' =>
                           embedded_from r r'
                           /\ forall k, In k done ->
                                        htsno r = Some (b_htsno k) ->
                                        batch_row r' = None)
                        (table s) (table s')).
    { intros s1 Hrun Ht Hl.
      destruct (IH s1) as (s' & done & Hrest & Hd & Hincl & Hp & Hall).
      exists s', done. rewrite (for_of_cons _ _ _ _ _ Hrun).
      rewrite Ht, Hl in *. repeat split; auto.
      intros k Hk. right. apply Hincl, Hk. }
    destruct (featureExtraction W (clock s) (textToEmbed row)) as [e|o] eqn:Hhf.
    { eapply Hskip; [apply (processRow_embedding_failed W row s e Hhf) | | ];
        reflexivity. }
    destruct (query_failure W (S (clock s))
                (UpdateQuery (flatten o) (b_htsno row))) as [e|] eqn:Hq.
    { eapply Hskip; [apply (processRow_update_failed W row s o e Hhf Hq) | | ];
        reflexivity. }
    clear Hskip.
    pose proof (processRow_embedded W row s o Hhf Hq) as Hrun.
    match type of Hrun with
    | _ = (?s1, _) => destruct (IH s1) as (s' & done & Hrest & Hd & Hincl & Hp & Hall)
    end.
    exists s', (row :: done). rewrite (for_of_cons _ _ _ _ _ Hrun).
    split; [exact Hrest|]. split; [|split; [|split]].
    + constructor; [|exact Hd]. intros Hin. apply Hrow, Hincl, Hin.
    + intros k [<-|Hk]; [left; reflexivity | right; apply Hincl, Hk].
    + rewrite Hp. cbn [locals processed List.length]. lia.
    + cbn [table] in Hall.
      eapply Forall2_compose;
        [|apply (update_rows_Forall2 (flatten o) (b_htsno row) (table s))
         |exact Hall].
      intros r r1 r' [Hsame Hother] [Hemb Hdone].
      assert (Hr1 : embedded_from r r1).
      { destruct (htsno_is (b_htsno row) r) eqn:Hh.
        - right. exists (flatten o). apply Hsame, htsno_is_spec, Hh.
        - left. apply Hother. intros Hr. apply htsno_is_spec in Hr. congruence. }
      assert (Hcode : htsno r1 = htsno r)
        by (destruct Hr1 as [->|(e1 & ->)]; reflexivity).
      split.
      * destruct Hr1 as [->|(e1 & ->)]; [exact Hemb|].
        destruct Hemb as [->|(e2 & ->)]; right; eexists; reflexivity.
      * intros k [<-|Hk] Hr.
        -- rewrite (Hsame Hr) in Hemb.
           destruct Hemb as [->|(e2 & ->)]; apply batch_row_set_embedding.
        -- apply (Hdone k Hk). congruence.
Qed.

(** Over a batch, [processed] grows by no more than the number of rows
    that stop being unembedded. *)
Lemma batch_progress (s : St JobLocals) :
  exists s',
    for_of (batch_rows BATCH_SIZE (table s)) (processRow W) s = (s', inr tt)
    /\ (pending_count (table s') + processed (locals s')
        <= pending_count (table s) + processed (locals s))%nat.
Proof.
  destruct (for_of_processRow_progress _ (batch_rows_NoDup (table s)) s)
    as (s' & done & Hrun & Hnd & Hincl & Hp & Hall).
  exists s'. split; [exact Hrun|].
  apply Forall2_conj in Hall. destruct Hall as [Hemb Hdone].
  pose proof (pending_count_drop (table s) (table s') Hemb done Hnd) as Hdrop.
  rewrite Hp.
  enough ((pending_count (table s') + List.length done
           <= pending_count (table s))%nat) by lia.
  apply Hdrop.
  - intros k Hk. apply batch_rows_source, Hincl, Hk.
  - eapply Forall2_impl; [|exact Hdone].
    intros r r' H k Hk Hrow. apply (H k Hk).
    apply batch_row_pending in Hrow. tauto.
Qed.

(** A loop that leaves without an error leaves no row to embed, provided
    the rows to embed and the rows processed never exceed the count. *)
Lemma while_loop_leaves_none (fuel total : nat) :
  forall s s',
    (pending_count (table s) + processed (locals s) <= total)%nat ->
    while_loop W fuel total s = Some (s', inr tt) ->
    pending_count (table s') = 0%nat.
Proof.
  induction fuel as [|fuel IH]; intros s s' Hinv; [discriminate|].
  cbn [while_loop].
  destruct (Nat.ltb_spec (processed (locals s)) total) as [Hlt|Hge].
  - rewrite batch_query_run. cbn [clock table trace locals].
    destruct (query_failure W (clock s) (BatchQuery BATCH_SIZE));
      [discriminate|].
    destruct (Nat.eqb_spec (List.length (batch_rows BATCH_SIZE (table s))) 0)
      as [Hnil|Hne].
    + intros H; inversion H; subst; clear H. cbn [table].
      apply (proj2 (proj2 (batch_sql_rows (table s)))).
      destruct (batch_rows BATCH_SIZE (table s)); [reflexivity | discriminate].
    + match goal with
      | |- context [for_of _ _ ?s2] =>
          destruct (batch_progress s2) as (s3 & Hrun & Hle)
      end.
      cbn [table locals processed] in Hrun, Hle. rewrite Hrun.
      apply IH. lia.
  - intros H; inversion H; subst. lia.
Qed.

(** A run of the job that ends without a fatal error has embedded every
    eligible row. *)
Lemma generateEmbeddings_leaves_none (fuel : nat) (s s' : St JobLocals) :
  generateEmbeddings W fuel s = Some s' ->
  fatal_logged (trace s') \/ pending_count (table s') = 0%nat.
Proof.
  unfold generateEmbeddings. rewrite count_query_run.
  destruct (query_failure W (clock s) CountQuery) as [e|].
  - intros H; inversion H; subst; clear H. left. exists e.
    io_step. right; left; reflexivity.
  - match goal with
    | |- context [while_loop W fuel ?total ?s0] =>
        pose proof (while_loop_leaves_none fuel total s0) as Hclean;
        destruct (while_loop W fuel total s0) as [[s1 [e|[]]]|]
    end; [| |discriminate].
    + intros H; inversion H; subst; clear H. left. exists e.
      io_step. right; left; reflexivity.
    + intros H; inversion H; subst; clear H. right. io_step.
      apply (Hclean s1); [|reflexivity].
      cbn [table locals processed].
      pose proof (count_covers_pending (table s)). lia.
Qed.
End Progress.

Lemma pending_count_zero (tbl : list TariffCode) :
  pending_count tbl = 0%nat -> forall r, In r tbl -> pending r = false.
Proof.
  unfold pending_count. induction tbl as [|r0 tbl IH]; [intros _ r []|].
  cbn [filter]. destruct (pending r0) eqn:Hp; [discriminate|].
  intros H0 r [<-|Hr]; [exact Hp | exact (IH H0 r Hr)].
Qed.

(** C7, as the code has it.  The loop leaves within one pass whenever no
    unembedded eligible row remains, whatever happened before.  A row that
    a failure leaves unembedded is selected again by the next batch: the
    job ends once the embedding service and the database answer every call
    from some time on, and a run that ends without a fatal error leaves no
    unembedded eligible row. *)
Theorem generateEmbeddings_terminates (W : World) :
  (forall total s,
     (forall r, In r (table s) -> pending r = false) ->
     exists out, while_loop W 1 total s = Some out)
  /\ (forall n s, settles W n ->
                  exists fuel s', generateEmbeddings W fuel s = Some s')
  /\ (forall fuel s s',
        generateEmbeddings W fuel s = Some s' ->
        fatal_logged (trace s')
        \/ forall r, In r (table s') -> pending r = false).
Proof.
  split; [|split].
  - intros total s Hnone.
    destruct (while_loop_nothing_pending W 0 total s) as (s' & r & -> & _).
    + apply no_pending_count, Hnone.
    + eexists; reflexivity.
  - intros n s Hsettle.
    exists (S (n + pending_count (table s))).
    unfold generateEmbeddings. rewrite count_query_run.
    destruct (query_failure W (clock s) CountQuery); [eexists; reflexivity|].
    match goal with
    | |- context [while_loop W ?fuel ?total ?s0] =>
        destruct (while_loop_terminates W n Hsettle fuel total s0)
          as ([s' [e|[]]] & ->)
    end; try (eexists; reflexivity).
    cbn [clock table]. lia.
  - intros fuel s s' Hrun.
    destruct (generateEmbeddings_leaves_none W fuel s s' Hrun) as [H|H];
      [left; exact H | right; apply pending_count_zero, H].
Qed.

Lemma generateEmbeddings_terminates_witness :
  exists fuel s',
    generateEmbeddings (steady_world [1; 0]%Q (lit "8471") []) fuel
      (initial unembedded_table fresh_locals) = Some s'.
Proof.
  apply (proj1 (proj2 (generateEmbeddings_terminates
                         (steady_world [1; 0]%Q (lit "8471") []))) 0%nat
           (initial unembedded_table fresh_locals)).
  intros t _. split.
  - intros x. exists (HfFlat [1; 0]%Q). reflexivity.
  - intros q. reflexivity.
Defined.

(** C7 as stated fails: when the embedding call of a row keeps failing the
    row stays unembedded, every batch selects it again, and no amount of
    fuel sees the job end. *)
Lemma backfill_spins_on_refused_rows :
  ~ exists fuel s',
      generateEmbeddings (embedding_down [1; 0]%Q (lit "8471") []) fuel
        (initial unembedded_table fresh_locals) = Some s'.
Proof.
  intros (fuel & s' & H).
  unfold generateEmbeddings in H. rewrite count_query_run in H.
  cbn [embedding_down query_failure] in H.
  rewrite while_loop_stuck in H; [discriminate H | | | | ].
  - intros t x. eexists; reflexivity.
  - intros t q. reflexivity.
  - vm_compute. lia.
  - vm_compute. lia.
Qed.

Lemma pending_false_iff (r : TariffCode) :
  pending r = false <->
  (indent r <= 2 -> htsno r <> None -> embedding r <> None).
Proof.
  unfold pending.
  destruct (Z.leb_spec (indent r) 2) as [Hi|Hi];
    destruct (embedding r) as [e|], (htsno r) as [h|]; cbn;
    split; intros H; try reflexivity; try discriminate; try congruence;
    try lia.
  exfalso. apply H; [exact Hi | discriminate | reflexivity].
Qed.

(** C9. On a table in which every row with indent <= 2 and a code already
    has an embedding, a run of the job ends within one pass of the loop,
    makes no embedding call, sends no UPDATE and leaves the table as it
    was; so does every run after it. *)
Theorem rerun_is_noop (W : World) (fuel : nat) (s : St JobLocals) :
  (forall r, In r (table s) ->
             indent r <= 2 -> htsno r <> None -> embedding r <> None) ->
  exists s',
    generateEmbeddings W (S fuel) s = Some s'
    /\ table s' = table s
    /\ embed_calls (trace s') = embed_calls (trace s)
    /\ updates (trace s') = updates (trace s).
Proof.
  intros Hdone.
  assert (H0 : pending_count (table s) = 0%nat).
  { apply no_pending_count. intros r Hr. apply pending_false_iff.
    apply Hdone, Hr. }
  unfold generateEmbeddings. rewrite count_query_run.
  destruct (query_failure W (clock s) CountQuery).
  - eexists; split; [reflexivity|]. repeat split.
  - match goal with
    | |- context [while_loop W (S fuel) ?total ?s0] =>
        destruct (while_loop_nothing_pending W fuel total s0 H0)
          as (s' & [e|[]] & -> & Ht & He & Hu)
    end.
    + eexists; split; [reflexivity|]. io_step.
      unfold updates in *. cbn [embed_calls queries filter_map] in *.
      repeat split; assumption.
    + eexists; split; [reflexivity|]. io_step.
      unfold updates in *. cbn [embed_calls queries filter_map] in *.
      repeat split; assumption.
Qed.

Lemma rerun_is_noop_witness :
  exists s',
    generateEmbeddings (steady_world [1; 0]%Q (lit "8471") []) 1
      (initial embedded_table fresh_locals) = Some s'
    /\ table s' = embedded_table
    /\ embed_calls (trace s') = []
    /\ updates (trace s') = [].
Proof.
  apply (rerun_is_noop (steady_world [1; 0]%Q (lit "8471") []) 0
           (initial embedded_table fresh_locals)).
  intros r Hr Hi Hh.
  cbn in Hr.
  destruct Hr as [<-|[<-|[<-|[<-|[]]]]]; cbn in *;
    try discriminate; try congruence; try lia.
Defined.

(** The run of the job on [embedded_table]: the count is 1, the batch is
    empty, and the loop leaves at once. *)
Example rerun_trace :
  option_map (fun s' => rev (trace s'))
    (generateEmbeddings (steady_world [1; 0]%Q (lit "8471") []) 1
       (initial embedded_table fresh_locals))
  = Some [EvQuery CountQuery; EvQuery (BatchQuery BATCH_SIZE); EvPoolEnd].
Proof. vm_compute. reflexivity. Qed.

(* ================================================================== *)
(** ** Runs on the sample tables *)

(** The query vector [1; 0] against [sample_table]: the two rows of
    distance 0 come first, the deeper one before the shallower; the row of
    indent 3, the row without code and the row without embedding are not
    candidates. *)
Example retrieval_on_sample_table :
  snd (retrieveHTSCodes (steady_world [1; 0]%Q (lit "8471.30") [])
         (lit "laptop") 3 (initial sample_table tt))
  = inr (map (fun p =>
                {| code := lit (fst (fst p));
                   description := Some (lit (snd (fst p)));
                   c_general := None;
                   c_special := None;
                   c_indent := fst (snd p);
                   similarity := snd (snd p) |})
           [ ("8471.30", "Portable machines", (1, 1%Q));
             ("8471", "Automatic data processing machines", (0, 1%Q));
             ("7324", "Sanitary ware of iron or steel", (0, 0%Q)) ]%string).
Proof. vm_compute. reflexivity. Qed.

(** A negative limit is an error of the query, logged and thrown again. *)
Example retrieval_negative_limit :
  snd (retrieveHTSCodes (steady_world [1; 0]%Q (lit "8471.30") [])
         (lit "laptop") (-1) (initial sample_table tt))
  = inl (lit "LIMIT must not be negative").
Proof. vm_compute. reflexivity. Qed.

(** A numeric [product_description] is not rejected by the validation: the
    call of [trim] throws outside the [try] block. *)
Example numeric_description_throws :
  snd (classify_post (steady_world [1; 0]%Q (lit "8471.30") [])
         {| product_description := JsNumber 5;
            country_of_origin := JsUndefined |}
         (initial sample_table tt))
  = inl (lit "product_description?.trim is not a function").
Proof. vm_compute. reflexivity. Qed.

(** The job on [unembedded_table] with services that answer: one batch of
    three rows, then an empty batch; the two rows of code 8471 in the batch
    each update the three rows of that code. *)
Example backfill_on_unembedded_table :
  option_map (fun s' => (map embedding (table s'), locals s'))
    (generateEmbeddings (steady_world [1; 0]%Q (lit "8471") []) 2
       (initial unembedded_table fresh_locals))
  = Some ([Some [1; 0]%Q; Some [1; 0]%Q; Some [1; 0]%Q; Some [1; 0]%Q; None],
          {| processed := 3; batchNumber := 2 |}).
Proof. vm_compute. reflexivity. Qed.

(** With the embedding service down the same table is left untouched by a
    batch, each row logging its failure. *)
Example batch_with_service_down :
  let s' :=
    fst (for_of (batch_rows BATCH_SIZE unembedded_table)
           (processRow (embedding_down [1; 0]%Q (lit "8471") []))
           (initial unembedded_table fresh_locals)) in
  (table s', locals s', console_errors (trace s'),
   List.length (embed_calls (trace s')))
  = (unembedded_table, fresh_locals, 3%nat, 3%nat).
Proof. vm_compute. reflexivity. Qed.

(* ================================================================== *)
(** ** Retrieval: what is returned, what is left out, what is touched *)

(** The run of [retrieveHTSCodes], case by case. *)
Lemma retrieveHTSCodes_run (W : World) {L : Type} (d : JsString) (k : Z)
    (s : St L) :
  retrieveHTSCodes W d k s
  = match featureExtraction W (clock s) (lit "Product: " ++ d) with
    | inl e =>
        (mkSt (table s) (S (clock s))
           (EvConsoleError retrieval_error e
              :: EvEmbed (lit "Product: " ++ d) :: trace s)
           (locals s),
         inl e)
    | inr o =>
        match query_failure W (S (clock s)) (SearchQuery (flatten o) k) with
        | Some e =>
            (mkSt (table s) (S (S (clock s)))
               (EvConsoleError retrieval_error e
                  :: EvQuery (SearchQuery (flatten o) k)
                  :: EvEmbed (lit "Product: " ++ d) :: trace s)
               (locals s),
             inl e)
        | None =>
            if k <? 0 then
              (mkSt (table s) (S (S (clock s)))
                 (EvConsoleError retrieval_error
                    (lit "LIMIT must not be negative")
                    :: EvQuery (SearchQuery (flatten o) k)
                    :: EvEmbed (lit "Product: " ++ d) :: trace s)
                 (locals s),
               inl (lit "LIMIT must not be negative"))
            else
              (mkSt (table s) (S (S (clock s)))
                 (EvQuery (SearchQuery (flatten o) k)
                    :: EvEmbed (lit "Product: " ++ d) :: trace s)
                 (locals s),
               inr (search_rows W (flatten o) k (table s)))
        end
    end.
Proof.
  unfold retrieveHTSCodes. io_step.
  destruct (featureExtraction W (clock s) (lit "Product: " ++ d)) as [e|o];
    [reflexivity|].
  io_step.
  destruct (query_failure W (S (clock s)) (SearchQuery (flatten o) k));
    [reflexivity|].
  io_step. unfold search_sql, search_rows.
  destruct (k <? 0); reflexivity.
Qed.

(** What a successful retrieval returned. *)
Lemma retrieveHTSCodes_inr (W : World) {L : Type} (d : JsString) (k : Z)
    (s s' : St L) (rows : list Candidate) :
  retrieveHTSCodes W d k s = (s', inr rows) ->
  exists o,
    featureExtraction W (clock s) (lit "Product: " ++ d) = inr o
    /\ query_failure W (S (clock s)) (SearchQuery (flatten o) k) = None
    /\ 0 <= k
    /\ rows = search_rows W (flatten o) k (table s)
    /\ s' = mkSt (table s) (S (S (clock s)))
              (EvQuery (SearchQuery (flatten o) k)
                 :: EvEmbed (lit "Product: " ++ d) :: trace s)
              (locals s).
Proof.
  rewrite retrieveHTSCodes_run.
  destruct (featureExtraction W (clock s) (lit "Product: " ++ d))
    as [e|o] eqn:Hhf; [discriminate|].
  destruct (query_failure W (S (clock s)) (SearchQuery (flatten o) k))
    eqn:Hq; [discriminate|].
  destruct (Z.ltb_spec k 0) as [Hk|Hk]; [discriminate|].
  intros Hrun; inversion Hrun; subst. exists o. repeat split; auto.
Qed.



(** The rows kept by the WHERE clause are the rows that yield a
    candidate. *)
Lemma filter_map_search_row_length (W : World) (q : Vector)
    (tbl : list TariffCode) :
  List.length (filter_map (search_row W q) tbl)
  = List.length (filter search_where tbl).
Proof.
  induction tbl as [|r tbl IH]; [reflexivity|].
  cbn [filter_map filter]. unfold search_row at 1, search_where at 1.
  destruct (indent r <=? 2), (embedding r), (htsno r);
    cbn [andb negb isNull List.length]; rewrite ?IH; reflexivity.
Qed.

(** X1. A successful retrieval returns exactly [min k n] candidates, where
    [n] is the number of rows of the table with indent <= 2, an embedding
    and a code: the limit is reached whenever enough rows are eligible,
    and there is a candidate for every eligible row when there are at most
    [k]. *)
Theorem retrieval_returns_min_k_eligible (W : World) {L : Type}
    (d : JsString) (k : Z) (s s' : St L) (rows : list Candidate) :
  retrieveHTSCodes W d k s = (s', inr rows) ->
  0 <= k
  /\ List.length rows
     = Nat.min (Z.to_nat k) (List.length (filter search_where (table s))).
Proof.
  intros Hrun.
  destruct (retrieveHTSCodes_inr W d k s s' rows Hrun)
    as (o & Hhf & _ & Hk & -> & _).
  split; [exact Hk|].
  unfold search_rows.
  rewrite !length_map, length_firstn, isort_length.
  rewrite filter_map_search_row_length. reflexivity.
Qed.

Lemma retrieval_returns_min_k_eligible_witness :
  0 <= 3
  /\ List.length
       (search_rows (steady_world [1; 0]%Q (lit "8471.30") [])
          [1; 0]%Q 3 sample_table)
     = Nat.min (Z.to_nat 3) (List.length (filter search_where sample_table)).
Proof.
  apply (retrieval_returns_min_k_eligible
           (steady_world [1; 0]%Q (lit "8471.30") []) (lit "laptop") 3
           (initial sample_table tt)
           (mkSt sample_table 2
              [EvQuery (SearchQuery [1; 0]%Q 3);
               EvEmbed (lit "Product: " ++ lit "laptop")] tt)).
  rewrite retrieveHTSCodes_run. reflexivity.
Defined.

(** On the sample table four rows are eligible: a limit of 3 is reached,
    a limit of 5 returns the four. *)
Example retrieval_count_on_sample_table :
  List.length (filter search_where sample_table) = 4%nat
  /\ List.length
       (search_rows (steady_world [1; 0]%Q (lit "8471.30") [])
          [1; 0]%Q 3 sample_table) = 3%nat
  /\ List.length
       (search_rows (steady_world [1; 0]%Q (lit "8471.30") [])
          [1; 0]%Q 5 sample_table) = 4%nat.
Proof. vm_compute. repeat split; reflexivity. Qed.



Lemma search_row_where (W : World) (q : Vector) (r : TariffCode) :
  search_where r = false -> search_row W q r = None.
Proof.
  unfold search_where, search_row.
  destruct (indent r <=? 2), (embedding r), (htsno r); cbn;
    intros H; try discriminate; reflexivity.
Qed.

Lemma filter_map_filter {A B} (f : A -> option B) (p : A -> bool)
    (l : list A) :
  (forall x, p x = false -> f x = None) ->
  filter_map f (filter p l) = filter_map f l.
Proof.
  intros Hp. induction l as [|x l IH]; [reflexivity|].
  cbn [filter]. destruct (p x) eqn:Hx; cbn [filter_map].
  - rewrite IH. reflexivity.
  - rewrite (Hp x Hx). exact IH.
Qed.

(** X3. Rows with indent above 2, without embedding or without code have no
    influence on retrieval: the outcome is the one obtained on the table
    with those rows removed. *)
Theorem retrieval_ignores_ineligible_rows (W : World) {L : Type}
    (d : JsString) (k : Z) (s : St L) :
  snd (retrieveHTSCodes W d k s)
  = snd (retrieveHTSCodes W d k (with_table (filter search_where (table s)) s)).
Proof.
  rewrite !retrieveHTSCodes_run. unfold with_table.
  cbn [clock table trace locals].
  destruct (featureExtraction W (clock s) (lit "Product: " ++ d)) as [e|o];
    [reflexivity|].
  destruct (query_failure W (S (clock s)) (SearchQuery (flatten o) k));
    [reflexivity|].
  destruct (k <? 0); [reflexivity|].
  cbn [snd]. unfold search_rows.
  rewrite (filter_map_filter (search_row W (flatten o)) search_where);
    [reflexivity|].
  intros r. apply search_row_where.
Qed.

(** X4. Retrieval never writes: in every outcome the table and the local
    variables are as before.  It embeds the description exactly as given,
    prefixed by "Product: ", in exactly one embedding call, sends at most
    one query, and none when the embedding call failed.  An error is logged
    once and thrown again unchanged; a successful retrieval logs no
    error. *)
Theorem retrieval_effects (W : World) {L : Type} (d : JsString) (k : Z)
    (s : St L) :
  let s' := fst (retrieveHTSCodes W d k s) in
  table s' = table s
  /\ locals s' = locals s
  /\ embed_calls (trace s') = (lit "Product: " ++ d) :: embed_calls (trace s)
  /\ match featureExtraction W (clock s) (lit "Product: " ++ d) with
     | inl _ => queries (trace s') = queries (trace s)
     | inr o =>
         queries (trace s') = SearchQuery (flatten o) k :: queries (trace s)
     end
  /\ match snd (retrieveHTSCodes W d k s) with
     | inl e =>
         exists evs,
           trace s' = EvConsoleError retrieval_error e :: evs
           /\ console_errors (trace s') = S (console_errors (trace s))
     | inr _ => console_errors (trace s') = console_errors (trace s)
     end.
Proof.
  rewrite retrieveHTSCodes_run.
  destruct (featureExtraction W (clock s) (lit "Product: " ++ d)) as [e|o].
  - cbn. repeat split. eexists; split; reflexivity.
  - destruct (query_failure W (S (clock s)) (SearchQuery (flatten o) k)).
    + cbn. repeat split. eexists; split; reflexivity.
    + destruct (k <? 0); cbn; repeat split.
      eexists; split; reflexivity.
Qed.

(* ================================================================== *)
(** ** The request handler: outcomes, calls and frame *)

(** The run of the [try] block, case by case. *)
Lemma classify_pipeline_run (W : World) (d : JsString) (country : JsValue)
    (s : St unit) :
  classify_pipeline W d country s
  = match retrieveHTSCodes W d 5 s with
    | (s1, inl e) => (s1, inl e)
    | (s1, inr candidates) =>
        if Nat.eqb (List.length candidates) 0 then (s1, inr no_candidates)
        else
          let s2 :=
            mkSt (table s1) (S (clock s1))
              (EvClassify (classification_input W d country candidates)
                 :: trace s1) (locals s1) in
          match llm_structured W (clock s1)
                  (classification_input W d country candidates) with
          | inl e => (s2, inl e)
          | inr c =>
              if classificationSchema c then
                let s3 :=
                  mkSt (table s1) (S (S (clock s1)))
                    (EvJustify (justification_input d c) :: trace s2)
                    (locals s1) in
                match llm_content W (S (clock s1)) (justification_input d c)
                with
                | inl e => (s3, inl e)
                | inr j =>
                    (s3, inr (success (success_bundle candidates c j)))
                end
              else
                (s2,
                 inl (parser_exception
                        (reply_text W (clock s1)
                           (classification_input W d country candidates))
                        (zod_error_text W c)))
          end
    end.
Proof.
  unfold classify_pipeline, bind at 1.
  destruct (retrieveHTSCodes W d 5 s) as [s1 [e|candidates]]; [reflexivity|].
  destruct (Nat.eqb (List.length candidates) 0); [reflexivity|].
  unfold classificationChain_invoke, justificationChain_invoke. io_step.
  destruct (llm_structured W (clock s1)
              (classification_input W d country candidates)) as [e|c];
    [reflexivity|].
  io_step. destruct (classificationSchema c); [|reflexivity].
  io_step.
  destruct (llm_content W (S (clock s1)) (justification_input d c));
    reflexivity.
Qed.

(** The handler on a string that is not blank: the [catch] turns an
    exception of the [try] block into the 500 response, after logging. *)
Lemma classify_post_run (W : World) (req : Request) (d : JsString)
    (s : St unit) :
  product_description req = JsStr d ->
  trim d <> [] ->
  classify_post W req s
  = match classify_pipeline W d (country_or_default (country_of_origin req)) s
    with
    | (s', inl e) =>
        (mkSt (table s') (clock s')
           (EvConsoleError classification_error e :: trace s') (locals s'),
         inr (classification_failed e))
    | (s', inr resp) => (s', inr resp)
    end.
Proof.
  intros Hd Ht. rewrite (classify_post_valid W req d s Hd Ht).
  unfold try_catch.
  destruct (classify_pipeline W d _ s) as [s' [e|resp]]; reflexivity.
Qed.

(** Evaluate the counts of events over an explicit list, then conclude by
    arithmetic. *)
Ltac count_step :=
  cbn [filter is_sleep_event is_console_error List.length locals processed];
  lia.

(** Split a conjunction into its parts, and nothing else. *)
Ltac split_ands := repeat match goal with |- _ /\ _ => split end.

(** Split a run of the handler on a non-blank string into its cases; each
    goal gets the answers of the collaborators as equations. *)
Ltac handler_cases W req d s Hd Ht :=
  rewrite (classify_post_run W req d s Hd Ht);
  rewrite classify_pipeline_run, retrieveHTSCodes_run;
  change (5 <? 0) with false; cbv iota;
  let o := fresh "o" in
  let Hhf := fresh "Hhf" in
  let Hq := fresh "Hq" in
  let Hlen := fresh "Hlen" in
  let c := fresh "c" in
  let Hc := fresh "Hc" in
  let Hok := fresh "Hok" in
  let Hj := fresh "Hj" in
  destruct (featureExtraction W (clock s) (lit "Product: " ++ d))
    as [?e|o] eqn:Hhf;
  [|destruct (query_failure W (S (clock s)) (SearchQuery (flatten o) 5))
      as [?e|] eqn:Hq;
    [|destruct (Nat.eqb (List.length (search_rows W (flatten o) 5 (table s))) 0)
        eqn:Hlen;
      [|cbv zeta; cbn [clock table trace locals];
        destruct (llm_structured W (S (S (clock s)))
                    (classification_input W d
                       (country_or_default (country_of_origin req))
                       (search_rows W (flatten o) 5 (table s))))
          as [?e|c] eqn:Hc;
        [|destruct (classificationSchema c) eqn:Hok;
          [destruct (llm_content W (S (S (S (clock s))))
                       (justification_input d c)) as [?e|?j] eqn:Hj|]]]]];
  cbn [clock table trace locals fst snd].

(** X5. The handler answers every request whose [product_description] is
    a string, undefined or null: no error of a collaborator escapes it, and
    the status sent goes with the body (400 validation, 404 no candidates,
    500 failure, 200 bundle).  For any other JSON value the call of [trim]
    throws before the [try] block: the handler sends nothing and has
    called nothing. *)
Theorem classify_post_responds_or_throws (W : World) (req : Request)
    (s : St unit) :
  match product_description req with
  | JsNumber _ | JsBoolean _ | JsObject =>
      classify_post W req s = (s, inl trim_is_not_a_function)
  | JsUndefined | JsNull | JsStr _ =>
      exists resp,
        snd (classify_post W req s) = inr resp /\ status_matches_body resp
  end.
Proof.
  destruct (product_description req) as [| |d|q|b|] eqn:Hd;
    try (unfold classify_post; rewrite Hd; reflexivity);
    try (exists bad_request; unfold classify_post; rewrite Hd;
         split; reflexivity).
  destruct (trim d) as [|c0 t] eqn:Ht.
  - exists bad_request. unfold classify_post. rewrite Hd, Ht.
    split; reflexivity.
  - assert (Hne : trim d <> []) by (rewrite Ht; discriminate).
    handler_cases W req d s Hd Hne;
      eexists; split; reflexivity.
Qed.

(** X6. The handler never writes to [tariff_codes]: whatever the request
    and whatever the collaborators answer, the table after the request is
    the table before it. *)
Theorem classify_post_never_writes (W : World) (req : Request) (s : St unit) :
  table (fst (classify_post W req s)) = table s.
Proof.
  destruct (product_description req) as [| |d|q|b|] eqn:Hd;
    try (unfold classify_post; rewrite Hd; reflexivity).
  destruct (trim d) as [|c0 t] eqn:Ht.
  - unfold classify_post. rewrite Hd, Ht. reflexivity.
  - assert (Hne : trim d <> []) by (rewrite Ht; discriminate).
    handler_cases W req d s Hd Hne; reflexivity.
Qed.



(** X8. Whatever the request and the answers of the collaborators, a
    request makes at most one embedding call, one search, one
    classification call and one justification call, each only after the
    one before it; it sends no other query, never waits and never closes
    the pool. *)
Theorem request_call_budget (W : World) (req : Request) (s : St unit) :
  exists evs,
    trace (fst (classify_post W req s)) = evs ++ trace s
    /\ (count_events is_justify_event evs
        <= count_events is_classify_event evs
        <= count_events is_search_event evs)%nat
    /\ (count_events is_search_event evs
        <= count_events is_embed_event evs <= 1)%nat
    /\ forallb is_request_event evs = true
    /\ clock (fst (classify_post W req s))
       = (clock s + count_events is_embed_event evs
          + count_events is_search_event evs
          + count_events is_classify_event evs
          + count_events is_justify_event evs)%nat.
Proof.
  assert (Hnone :
    trace s = [] ++ trace s
    /\ (count_events is_justify_event []
        <= count_events is_classify_event []
        <= count_events is_search_event [])%nat
    /\ (count_events is_search_event []
        <= count_events is_embed_event [] <= 1)%nat
    /\ forallb is_request_event [] = true
    /\ clock s
       = (clock s + count_events is_embed_event []
          + count_events is_search_event []
          + count_events is_classify_event []
          + count_events is_justify_event [])%nat)
    by (cbn; repeat split; lia).
  destruct (product_description req) as [| |d|q|b|] eqn:Hd;
    try (exists []; unfold classify_post; rewrite Hd; exact Hnone).
  destruct (trim d) as [|c0 t] eqn:Ht.
  - exists []. unfold classify_post. rewrite Hd, Ht. exact Hnone.
  - assert (Hne : trim d <> []) by (rewrite Ht; discriminate).
    clear Hnone.
    handler_cases W req d s Hd Hne;
      match goal with
      | |- exists evs, ?l = evs ++ trace s /\ _ =>
          let rec prefix l :=
            lazymatch l with
            | trace s => constr:(@nil Event)
            | ?x :: ?l' => let p := prefix l' in constr:(x :: p)
            end in
          let p := prefix l in exists p
      end;
      cbn; repeat split; lia.
Qed.

(** X9. The confidence of every success response lies in [0, 1]: a reply
    of the model is returned only after it passed the schema. *)
Theorem success_confidence_in_range (W : World) (req : Request)
    (d : JsString) (s s' : St unit) (b : Bundle) :
  product_description req = JsStr d ->
  classify_post W req s = (s', inr (success b)) ->
  (0 <= out_confidence (classification b) <= 1)%Q.
Proof.
  intros Hd Hrun.
  destruct (success_inv W req d s s' b Hd Hrun)
    as (s1 & candidates & s2 & c & j & _ & _ & Hc & _ & ->).
  apply classificationChain_invoke_inr in Hc. destruct Hc as [_ Hok].
  unfold classificationSchema in Hok. apply andb_true_iff in Hok.
  destruct Hok as [H0 H1]. apply Qle_bool_iff in H0, H1.
  cbn. split; assumption.
Qed.

Lemma success_confidence_in_range_witness :
  exists b, (0 <= out_confidence (classification b) <= 1)%Q.
Proof.
  eexists.
  eapply (success_confidence_in_range
            (steady_world [1; 0]%Q (lit "8471.30") []) (request "laptop")
            (lit "laptop") (initial sample_table tt)).
  - reflexivity.
  - vm_compute. reflexivity.
Defined.

(** X10. A reply of the model whose confidence is outside [0, 1] is treated
    as a failure of the classification stage: the response has status 500
    and carries as details the exception of the parser, which begins with
    "Failed to parse. Text: " and quotes the reply; that exception is
    logged, and the justification call is not made. *)
Theorem schema_violation_is_failure (W : World) (req : Request)
    (d : JsString) (s s1 : St unit) (candidates : list Candidate)
    (c : Classification) :
  product_description req = JsStr d ->
  trim d <> [] ->
  retrieveHTSCodes W d 5 s = (s1, inr candidates) ->
  candidates <> [] ->
  llm_structured W (clock s1)
    (classification_input W d (country_or_default (country_of_origin req))
       candidates) = inr c ->
  ~ (0 <= confidence c <= 1)%Q ->
  exists s' resp cause,
    classify_post W req s = (s', inr resp)
    /\ status resp = 500
    /\ body resp = ErrorDetailsBody (lit "classification_failed") cause
    /\ cause
       = lit "Failed to parse. Text: "
           ++ 34%N
           :: reply_text W (clock s1)
                (classification_input W d
                   (country_or_default (country_of_origin req)) candidates)
           ++ 34%N :: lit ". Error: " ++ zod_error_text W c
    /\ trace s'
       = EvConsoleError classification_error cause
           :: EvClassify
                (classification_input W d
                   (country_or_default (country_of_origin req)) candidates)
           :: trace s1
    /\ clock s' = S (clock s1)
    /\ table s' = table s1.
Proof.
  intros Hd Ht Hr Hne Hc Hrange.
  rewrite (classify_post_run W req d s Hd Ht), classify_pipeline_run, Hr.
  destruct candidates as [|c0 cs]; [congruence|].
  cbn [List.length Nat.eqb]. cbv zeta. rewrite Hc.
  destruct (classificationSchema c) eqn:Hok.
  - exfalso. apply Hrange.
    unfold classificationSchema in Hok. apply andb_true_iff in Hok.
    destruct Hok as [H0 H1]. apply Qle_bool_iff in H0, H1. split; assumption.
  - eexists _, _, _. split; [reflexivity|].
    cbn [status body classification_failed trace clock table].
    split; [reflexivity|]. split; [reflexivity|].
    split; [reflexivity|]. split; [reflexivity|]. split; reflexivity.
Qed.

Lemma schema_violation_is_failure_witness :
  exists (s' : St unit) resp cause,
    classify_post (overconfident_world [1; 0]%Q) (request "laptop")
      (initial sample_table tt) = (s', inr resp)
    /\ status resp = 500
    /\ body resp = ErrorDetailsBody (lit "classification_failed") cause
    /\ cause
       = lit "Failed to parse. Text: "
           ++ 34%N
           :: lit "{ confidence: 1.5 }"
           ++ 34%N
           :: lit ". Error: "
           ++ lit "ZodError: Number must be less than or equal to 1"
    /\ trace s'
       = EvConsoleError classification_error cause
           :: EvClassify
                (classification_input (overconfident_world [1; 0]%Q)
                   (lit "laptop")
                   (country_or_default (country_of_origin (request "laptop")))
                   (search_rows (overconfident_world [1; 0]%Q) [1; 0]%Q 5
                      sample_table))
           :: [EvQuery (SearchQuery [1; 0]%Q 5);
               EvEmbed (lit "Product: " ++ lit "laptop")]
    /\ clock s' = 3%nat
    /\ table s' = sample_table.
Proof.
  refine (schema_violation_is_failure (overconfident_world [1; 0]%Q)
            (request "laptop") (lit "laptop") (initial sample_table tt)
            (mkSt sample_table 2
               [EvQuery (SearchQuery [1; 0]%Q 5);
                EvEmbed (lit "Product: " ++ lit "laptop")] tt)
            _ _ eq_refl _ _ _ eq_refl _).
  - vm_compute. discriminate.
  - rewrite retrieveHTSCodes_run. reflexivity.
  - vm_compute. discriminate.
  - intros [_ H]. vm_compute in H. apply H. reflexivity.
Defined.

(** X11. The country of origin reaches the classification prompt and
    nothing else: two requests with the same description make the same
    embedding call and the same query, whatever the model does; and if
    the model's reply does not depend on the country given in its prompt,
    they receive the same response. *)
Theorem country_of_origin_only_reaches_the_prompt (W : World)
    (req req' : Request) (s : St unit) :
  product_description req = product_description req' ->
  (embed_calls (trace (fst (classify_post W req s)))
   = embed_calls (trace (fst (classify_post W req' s)))
   /\ queries (trace (fst (classify_post W req s)))
      = queries (trace (fst (classify_post W req' s))))
  /\ ((forall t i i', same_but_country i i' ->
                      llm_structured W t i = llm_structured W t i'
                      /\ reply_text W t i = reply_text W t i') ->
      snd (classify_post W req s) = snd (classify_post W req' s)).
Proof.
  intros Hsame.
  destruct (product_description req) as [| |d|q|b|] eqn:Hd;
    try solve [unfold classify_post; rewrite <- Hsame, Hd;
               repeat split; reflexivity].
  symmetry in Hsame.
  destruct (trim d) as [|c0 t] eqn:Ht.
  - unfold classify_post. rewrite Hsame, Hd, Ht. repeat split.
  - assert (Hne : trim d <> []) by (rewrite Ht; discriminate).
    rewrite (classify_post_run W req d s Hd Hne),
      (classify_post_run W req' d s Hsame Hne).
    rewrite !classify_pipeline_run, retrieveHTSCodes_run.
    change (5 <? 0) with false. cbv iota.
    destruct (featureExtraction W (clock s) (lit "Product: " ++ d)) as [e|o];
      [repeat split|].
    destruct (query_failure W (S (clock s)) (SearchQuery (flatten o) 5));
      [repeat split|].
    destruct (Nat.eqb (List.length (search_rows W (flatten o) 5 (table s))) 0);
      [repeat split|].
    cbv zeta. cbn [clock table trace locals].
    set (i := classification_input W d
                (country_or_default (country_of_origin req))
                (search_rows W (flatten o) 5 (table s))).
    set (i' := classification_input W d
                 (country_or_default (country_of_origin req'))
                 (search_rows W (flatten o) 5 (table s))).
    split.
    + destruct (llm_structured W (S (S (clock s))) i) as [e|c],
        (llm_structured W (S (S (clock s))) i') as [e'|c'];
        try destruct (classificationSchema c);
        try destruct (classificationSchema c');
        try destruct (llm_content W (S (S (S (clock s))))
                        (justification_input d c));
        try destruct (llm_content W (S (S (S (clock s))))
                        (justification_input d c'));
        split; reflexivity.
    + intros Hllm.
      assert (Hii : same_but_country i i') by (repeat split).
      destruct (Hllm (S (S (clock s))) i i' Hii) as [Hreply Htext].
      rewrite Hreply, Htext.
      destruct (llm_structured W (S (S (clock s))) i') as [e|c];
        [reflexivity|].
      destruct (classificationSchema c); [|reflexivity].
      destruct (llm_content W (S (S (S (clock s)))) (justification_input d c));
        reflexivity.
Qed.

Lemma country_of_origin_only_reaches_the_prompt_witness :
  (embed_calls
     (trace (fst (classify_post (steady_world [1; 0]%Q (lit "8471.30") [])
                    {| product_description := JsStr (lit "laptop");
                       country_of_origin := JsStr (lit "China") |}
                    (initial sample_table tt))))
   = embed_calls
       (trace (fst (classify_post (steady_world [1; 0]%Q (lit "8471.30") [])
                      {| product_description := JsStr (lit "laptop");
                         country_of_origin := JsNull |}
                      (initial sample_table tt))))
   /\ queries
        (trace (fst (classify_post (steady_world [1; 0]%Q (lit "8471.30") [])
                       {| product_description := JsStr (lit "laptop");
                          country_of_origin := JsStr (lit "China") |}
                       (initial sample_table tt))))
      = queries
          (trace (fst (classify_post
                         (steady_world [1; 0]%Q (lit "8471.30") [])
                         {| product_description := JsStr (lit "laptop");
                            country_of_origin := JsNull |}
                         (initial sample_table tt)))))
  /\ snd (classify_post (steady_world [1; 0]%Q (lit "8471.30") [])
            {| product_description := JsStr (lit "laptop");
               country_of_origin := JsStr (lit "China") |}
            (initial sample_table tt))
     = snd (classify_post (steady_world [1; 0]%Q (lit "8471.30") [])
              {| product_description := JsStr (lit "laptop");
                 country_of_origin := JsNull |}
              (initial sample_table tt)).
Proof.
  destruct (country_of_origin_only_reaches_the_prompt
              (steady_world [1; 0]%Q (lit "8471.30") [])
              {| product_description := JsStr (lit "laptop");
                 country_of_origin := JsStr (lit "China") |}
              {| product_description := JsStr (lit "laptop");
                 country_of_origin := JsNull |}
              (initial sample_table tt) eq_refl) as [Hcalls Hresp].
  split; [exact Hcalls|].
  apply Hresp. intros t i i' _. split; reflexivity.
Defined.





(** X13. The validation rejects exactly the blank descriptions: the
    response is the 400 failure if and only if [product_description] is
    undefined, null or a string made of whitespace only. *)
Theorem validation_rejects_exactly_blank (W : World) (req : Request)
    (s : St unit) :
  snd (classify_post W req s) = inr bad_request
  <-> blank_description (product_description req).
Proof.
  unfold blank_description.
  destruct (product_description req) as [| |d|q|b|] eqn:Hd.
  - unfold classify_post; rewrite Hd. split; auto.
  - unfold classify_post; rewrite Hd. split; auto.
  - destruct (trim d) as [|c0 t] eqn:Ht.
    + unfold classify_post; rewrite Hd, Ht. split; [|reflexivity].
      intros _. right; right. exists d. split; [reflexivity|].
      apply trim_nil_inv, Ht.
    + assert (Hne : trim d <> []) by (rewrite Ht; discriminate).
      split.
      * handler_cases W req d s Hd Hne; discriminate.
      * intros [H|[H|(d' & H & Hws)]]; try discriminate.
        inversion H; subst d'.
        rewrite (trim_whitespace d Hws) in Ht. discriminate.
  - unfold classify_post; rewrite Hd. split; [discriminate|].
    intros [H|[H|(d' & H & _)]]; discriminate.
  - unfold classify_post; rewrite Hd. split; [discriminate|].
    intros [H|[H|(d' & H & _)]]; discriminate.
  - unfold classify_post; rewrite Hd. split; [discriminate|].
    intros [H|[H|(d' & H & _)]]; discriminate.
Qed.

(** X14. The cause a 500 response carries is the one the handler logged
    last; a response of any other kind is sent without the handler or
    retrieval having logged an error. *)
Theorem failure_cause_is_logged (W : World) (req : Request) (s : St unit) :
  match classify_post W req s with
  | (s', inr resp) =>
      match body resp with
      | ErrorDetailsBody _ cause =>
          exists evs, trace s' = EvConsoleError classification_error cause :: evs
      | _ => console_errors (trace s') = console_errors (trace s)
      end
  | (s', inl _) => s' = s
  end.
Proof.
  destruct (product_description req) as [| |d|q|b|] eqn:Hd;
    try (unfold classify_post; rewrite Hd; reflexivity).
  destruct (trim d) as [|c0 t] eqn:Ht.
  - unfold classify_post. rewrite Hd, Ht. reflexivity.
  - assert (Hne : trim d <> []) by (rewrite Ht; discriminate).
    handler_cases W req d s Hd Hne;
      try (eexists; reflexivity); reflexivity.
Qed.

(* ================================================================== *)
(** ** The percentage: what is written is what is read back *)

Lemma digits_value_acc (d : Decimal.uint) (acc : positive) :
  fold_left (fun acc c => (acc * 10 + (c - 48))%N)
    (lit (NilEmpty.string_of_uint d)) (N.pos acc)
  = N.pos (Pos.of_uint_acc d acc).
Proof.
  revert acc. unfold lit.
  induction d as [|d IH|d IH|d IH|d IH|d IH|d IH|d IH|d IH|d IH|d IH];
    intros acc; cbn [NilEmpty.string_of_uint list_ascii_of_string map fold_left
                     Pos.of_uint_acc];
    first [reflexivity
          | rewrite <- IH; f_equal;
            match goal with
            | |- context [N_of_ascii ?a] =>
                let v := eval vm_compute in (N_of_ascii a) in
                change (N_of_ascii a) with v
            end; lia].
Qed.

Lemma digits_value_uint (d : Decimal.uint) :
  digits_value (lit (NilEmpty.string_of_uint d)) = N.of_uint d.
Proof.
  unfold digits_value, N.of_uint, lit.
  induction d as [|d IH|d IH|d IH|d IH|d IH|d IH|d IH|d IH|d IH|d IH];
    cbn [NilEmpty.string_of_uint list_ascii_of_string map fold_left
         Pos.of_uint];
    first [reflexivity | exact IH | apply (digits_value_acc d)].
Qed.

Lemma digits_value_decimal (n : N) : digits_value (decimal n) = n.
Proof.
  unfold decimal. rewrite <- (DecimalN.Unsigned.of_to n) at 2.
  destruct (N.to_uint n) eqn:Hd; rewrite <- digits_value_uint; reflexivity.
Qed.

Lemma uint_digits (d : Decimal.uint) :
  forallb is_digit (lit (NilEmpty.string_of_uint d)) = true.
Proof.
  unfold lit.
  induction d as [|d IH|d IH|d IH|d IH|d IH|d IH|d IH|d IH|d IH|d IH];
    cbn [NilEmpty.string_of_uint list_ascii_of_string map forallb];
    first [reflexivity | rewrite IH; reflexivity].
Qed.

Lemma decimal_digits (n : N) :
  forallb is_digit (decimal n) = true /\ decimal n <> [].
Proof.
  unfold decimal.
  destruct (N.to_uint n) eqn:Hd;
    try (split; [apply (uint_digits (_ u)) | discriminate]).
  split; [reflexivity | discriminate].
Qed.

Lemma decimal_one_digit (n : N) : (n < 10)%N -> List.length (decimal n) = 1%nat.
Proof.
  intros H.
  assert (Hn : In n [0; 1; 2; 3; 4; 5; 6; 7; 8; 9]%N).
  { destruct n as [|p]; [left; reflexivity|].
    do 9 (destruct p as [p|p|]; try lia; cbn; try tauto). }
  cbn in Hn.
  repeat (destruct Hn as [<-|Hn]; [reflexivity|]). contradiction.
Qed.

Lemma span_digits_all (ds rest : JsString) :
  forallb is_digit ds = true ->
  match rest with
  | c :: _ => is_digit c = false
  | [] => True
  end ->
  span_digits (ds ++ rest) = (ds, rest).
Proof.
  intros Hds Hrest. induction ds as [|c ds IH].
  - destruct rest as [|c rest]; [reflexivity|].
    cbn [app span_digits]. rewrite Hrest. reflexivity.
  - cbn [forallb] in Hds. apply andb_true_iff in Hds. destruct Hds as [Hc Hds].
    cbn [app span_digits]. rewrite Hc, (IH Hds). reflexivity.
Qed.

Lemma digit_not_whitespace (c : N) : is_digit c = true -> isWhiteSpace c = false.
Proof.
  unfold is_digit. rewrite andb_true_iff, !N.leb_le. intros [H1 H2].
  assert (Hn : In c [48; 49; 50; 51; 52; 53; 54; 55; 56; 57]%N).
  { cbn. lia. }
  cbn in Hn.
  repeat (destruct Hn as [<-|Hn]; [reflexivity|]). contradiction.
Qed.

Lemma toFixed1_tenths_nonneg (x : Q) : 0 <= toFixed1_tenths x.
Proof.
  unfold toFixed1_tenths, toFixed1_sign, nearest_tenth.
  destruct (Qle_bool 0 x) eqn:Hs; cbn [negb].
  - apply Qle_bool_iff in Hs.
    change 0 with (Qfloor 0). apply Qfloor_resp_le. lra.
  - assert (Hneg : (x < 0)%Q).
    { apply Qnot_le_lt. intros H. apply Qle_bool_iff in H. congruence. }
    change 0 with (Qfloor 0). apply Qfloor_resp_le. lra.
Qed.

Lemma parseFloat_digit_first (c : N) (t : JsString) :
  is_digit c = true -> parseFloat (c :: t) = parse_unsigned false (c :: t).
Proof.
  intros Hc. unfold parseFloat. cbn [trimStart].
  rewrite (digit_not_whitespace c Hc).
  unfold is_digit in Hc. rewrite andb_true_iff, !N.leb_le in Hc.
  assert (Hn : In c [48; 49; 50; 51; 52; 53; 54; 55; 56; 57]%N)
    by (cbn; lia).
  cbn in Hn.
  repeat (destruct Hn as [<-|Hn]; [reflexivity|]). contradiction.
Qed.

Lemma parseFloat_minus_first (t : JsString) :
  parseFloat (lit "-" ++ t) = parse_unsigned true t.
Proof. reflexivity. Qed.

(** The digits before and after the point, read back, give the tenths. *)
Lemma parse_unsigned_tenths (negative : bool) (n : Z) :
  0 <= n ->
  exists v,
    parse_unsigned negative
      (decimal (Z.to_N (n / 10)) ++ lit "." ++ decimal (Z.to_N (n mod 10)))
    = Some (if negative then (- v)%Q else v)
    /\ (v == inject_Z n / 10)%Q.
Proof.
  intros Hn.
  set (ip := decimal (Z.to_N (n / 10))).
  set (fp := decimal (Z.to_N (n mod 10))).
  destruct (decimal_digits (Z.to_N (n / 10))) as [Hip Hip0].
  destruct (decimal_digits (Z.to_N (n mod 10))) as [Hfp Hfp0].
  fold ip in Hip, Hip0. fold fp in Hfp, Hfp0.
  assert (Hlen : List.length fp = 1%nat).
  { apply decimal_one_digit. pose proof (Z.mod_pos_bound n 10). lia. }
  assert (Hspan1 : span_digits (ip ++ lit "." ++ fp) = (ip, lit "." ++ fp)).
  { apply span_digits_all; [exact Hip | reflexivity]. }
  assert (Hspan2 : span_digits fp = (fp, [])).
  { rewrite <- (app_nil_r fp) at 1.
    apply span_digits_all; [exact Hfp | exact I]. }
  exists (inject_Z (Z.of_N (digits_value ip))
          + inject_Z (Z.of_N (digits_value fp))
            / inject_Z (10 ^ Z.of_nat (List.length fp)))%Q.
  split.
  - unfold parse_unsigned. rewrite Hspan1.
    change (lit "." ++ fp) with (46%N :: fp). cbv iota beta zeta.
    rewrite Hspan2. cbn [fst].
    destruct ip as [|c t]; [congruence|]. reflexivity.
  - unfold ip, fp at 1. rewrite !digits_value_decimal, Hlen.
    rewrite !Z2N.id by (try apply Z.div_pos; try apply Z.mod_pos_bound; lia).
    change (10 ^ Z.of_nat 1) with 10.
    rewrite (Z.div_mod n 10) at 3 by lia.
    rewrite inject_Z_plus, inject_Z_mult.
    change (inject_Z 10) with 10%Q. field.
Qed.

(** X15. [parseFloat] reads back what [toFixed(1)] wrote: for every
    number, the text written by [toFixed1] parses to the one-decimal value
    that the response reports, so the percentage shown to the model in the
    prompt and the percentage returned in [retrieved_candidates] are the
    same number. *)
Theorem parseFloat_reads_toFixed1 (x : Q) :
  exists v, parseFloat (toFixed1 x) = Some v /\ (v == parseFloat_toFixed1 x)%Q.
Proof.
  pose proof (toFixed1_tenths_nonneg x) as Hn.
  unfold toFixed1, parseFloat_toFixed1. cbv zeta.
  destruct (toFixed1_sign x).
  - destruct (parse_unsigned_tenths true (toFixed1_tenths x) Hn)
      as (v & Hparse & Hv).
    exists (- v)%Q. rewrite parseFloat_minus_first.
    split; [exact Hparse | rewrite Hv; reflexivity].
  - destruct (parse_unsigned_tenths false (toFixed1_tenths x) Hn)
      as (v & Hparse & Hv).
    exists v. split; [|exact Hv].
    cbn [app].
    destruct (decimal_digits (Z.to_N (toFixed1_tenths x / 10))) as [Hd Hd0].
    destruct (decimal (Z.to_N (toFixed1_tenths x / 10))) as [|c t] eqn:Hip;
      [congruence|].
    cbn [forallb] in Hd. apply andb_true_iff in Hd.
    cbn [app] in *.
    rewrite (parseFloat_digit_first c _ (proj1 Hd)). exact Hparse.
Qed.

(** What the strings look like, and a reading with leading whitespace,
    a plus sign and trailing text. *)
Example toFixed1_samples :
  (toFixed1 (12345 # 1000), toFixed1 (- (1 # 100)), toFixed1 (-100),
   parseFloat (lit "  +7.25%"))
  = (lit "12.3", lit "-0.0", lit "-100.0", Some (7 + 25 / 100)%Q).
Proof. vm_compute. reflexivity. Qed.

(** The line of the prompt for the first candidate of the sample request. *)
Example first_candidate_line :
  hd [] (candidate_lines 0
           (search_rows (steady_world [1; 0]%Q (lit "8471.30") []) [1; 0]%Q 5
              sample_table))
  = lit "1. Code: 8471.30 | Portable machines | Similarity: 100.0%".
Proof. vm_compute. reflexivity. Qed.

(* ================================================================== *)
(** ** The embedding script: batches *)

Lemma distinct_on_complete (x : BatchRow) (l : list BatchRow) :
  In x l -> In x (distinct_on l).
Proof.
  induction l as [|y l IH]; [tauto|].
  cbn [distinct_on]. intros [->|Hx]; [left; reflexivity|].
  destruct (batch_eqb y x) eqn:Hyx.
  - left. apply batch_eqb_eq, Hyx.
  - right. apply filter_In. split; [apply IH, Hx | rewrite Hyx; reflexivity].
Qed.

Lemma firstn_short {A} (n : nat) (l : list A) :
  (List.length (firstn n l) < n)%nat -> firstn n l = l.
Proof.
  revert l. induction n as [|n IH]; intros l H; [cbn in H; lia|].
  destruct l as [|x l]; [reflexivity|].
  cbn [firstn List.length] in *. f_equal. apply IH. lia.
Qed.

(** X16. A batch holds at most [BATCH_SIZE] rows and no key (code,
    description, indent) twice; each of its rows is the key of a table row
    with indent <= 2, a code and no embedding; and a batch that is not
    full holds the key of every such row. *)
Theorem batch_is_distinct_pending_keys (tbl : list TariffCode) :
  let rows := batch_rows BATCH_SIZE tbl in
  Z.of_nat (List.length rows) <= BATCH_SIZE
  /\ NoDup rows
  /\ (forall k, In k rows ->
        exists r, In r tbl /\ pending r = true
                  /\ htsno r = Some (b_htsno k) /\ k = key_of r (b_htsno k))
  /\ (Z.of_nat (List.length rows) < BATCH_SIZE ->
      forall r h, In r tbl -> pending r = true -> htsno r = Some h ->
                  In (key_of r h) rows).
Proof.
  cbv zeta. split; [|split; [|split]].
  - unfold batch_rows.
    pose proof (firstn_le_length (Z.to_nat BATCH_SIZE)
                  (distinct_on (isort batch_leb (filter_map batch_row tbl)))).
    change (Z.to_nat BATCH_SIZE) with 10%nat in *.
    change BATCH_SIZE with 10. lia.
  - apply batch_rows_NoDup.
  - intros k Hk. destruct (batch_rows_source tbl k Hk) as (r & Hr & Hrow).
    exists r. destruct (batch_row_pending r k Hrow) as [Hp Hh].
    repeat split; try assumption.
    unfold batch_row in Hrow.
    destruct (indent r <=? 2); [|discriminate].
    destruct (embedding r); [discriminate|].
    destruct (htsno r); [|discriminate].
    inversion Hrow; subst. reflexivity.
  - intros Hshort r h Hr Hp Hh. unfold batch_rows in *.
    change (Z.to_nat BATCH_SIZE) with 10%nat in *.
    change BATCH_SIZE with 10 in Hshort.
    rewrite firstn_short by lia.
    apply distinct_on_complete, isort_In, filter_map_In.
    exists r. split; [exact Hr|].
    unfold batch_row, pending in *. rewrite Hh in *.
    destruct (indent r <=? 2); [|discriminate].
    destruct (embedding r); [discriminate|]. reflexivity.
Qed.

Lemma is_job_event_console (l : JsString) (e : Exn) :
  is_job_event (EvConsoleError l e) = true.
Proof. reflexivity. Qed.

(** What one row adds to the trace: its embedding call, then its UPDATE
    if the call succeeded, then either the delay or the logged failure. *)
Lemma processRow_events (W : World) (row : BatchRow) (s : St JobLocals) :
  exists s' evs,
    processRow W row s = (s', inr tt)
    /\ trace s' = evs ++ trace s
    /\ forallb is_job_event evs = true
    /\ (count_events is_sleep_event evs
        + count_events is_console_error evs = 1)%nat
    /\ (count_events is_sleep_event evs
        <= processed (locals s') - processed (locals s))%nat.
Proof.
  destruct (featureExtraction W (clock s) (textToEmbed row)) as [e|o] eqn:Hhf.
  - rewrite (processRow_embedding_failed W row s e Hhf).
    eexists _, [_; _]. split; [reflexivity|].
    unfold count_events.
    split_ands; [reflexivity | reflexivity | count_step | count_step].
  - destruct (query_failure W (S (clock s))
                (UpdateQuery (flatten o) (b_htsno row))) as [e|] eqn:Hq.
    + rewrite (processRow_update_failed W row s o e Hhf Hq).
      eexists _, [_; _; _]. split; [reflexivity|].
      unfold count_events.
    split_ands; [reflexivity | reflexivity | count_step | count_step].
    + rewrite (processRow_embedded W row s o Hhf Hq).
      unfold count_events.
      destruct (b_descript row);
        (eexists _, [_; _; _]; split; [reflexivity|];
         split_ands; [reflexivity | reflexivity | count_step | count_step]).
Qed.

Lemma count_events_app (p : Event -> bool) (l1 l2 : list Event) :
  count_events p (l1 ++ l2) = (count_events p l1 + count_events p l2)%nat.
Proof. unfold count_events. rewrite filter_app, length_app. reflexivity. Qed.

(** X17. In a batch, every row ends either with the 700 ms delay or with a
    logged failure, never with both: the delay follows a row only when its
    embedding call and its UPDATE succeeded, so a failed call is followed
    at once by the next call. *)
Theorem delay_or_logged_failure (W : World) (rows : list BatchRow)
    (s : St JobLocals) :
  exists s' evs,
    for_of rows (processRow W) s = (s', inr tt)
    /\ trace s' = evs ++ trace s
    /\ forallb is_job_event evs = true
    /\ (count_events is_sleep_event evs + count_events is_console_error evs
        = List.length rows)%nat
    /\ (count_events is_sleep_event evs
        <= processed (locals s') - processed (locals s))%nat.
Proof.
  revert s. induction rows as [|row rows IH]; intros s.
  - exists s, []. unfold count_events. split_ands; cbn; lia || reflexivity.
  - destruct (processRow_events W row s)
      as (s1 & evs1 & Hrun & Ht & Hjob & Hone & Hsl).
    destruct (IH s1) as (s' & evs & Hrest & Ht' & Hjob' & Hcount & Hsl').
    destruct (processRow_summary W row s) as (s1' & Hrun' & _ & _ & _ & Hp & _).
    rewrite Hrun in Hrun'. inversion Hrun'; subst s1'; clear Hrun'.
    destruct (for_of_processRow_summary W rows s1)
      as (s'' & Hrest' & _ & _ & _ & Hp' & _).
    rewrite Hrest in Hrest'. inversion Hrest'; subst s''; clear Hrest'.
    exists s', (evs ++ evs1). rewrite (for_of_cons _ _ _ _ _ Hrun).
    split; [exact Hrest|].
    rewrite Ht', Ht, app_assoc, forallb_app, Hjob, Hjob', !count_events_app.
    cbn [List.length]. split_ands; lia || reflexivity.
Qed.

(* ================================================================== *)
(** ** The embedding script: whole runs *)

Lemma Forall2_In_r {A B} (R : A -> B -> Prop) (l : list A) (l' : list B)
    (y : B) :
  Forall2 R l l' -> In y l' -> exists x, In x l /\ R x y.
Proof.
  induction 1 as [|a b l l' Hab _ IH]; [intros []|].
  intros [<-|Hy]; [exists a; split; [left; reflexivity | exact Hab]|].
  destruct (IH Hy) as (x & Hx & Hr). exists x. split; [right|]; assumption.
Qed.

Lemma embedded_from_pending (r r' : TariffCode) :
  embedded_from r r' -> pending r' = true -> r' = r.
Proof.
  intros [->|(e & ->)] Hp; [reflexivity|].
  rewrite pending_set_embedding in Hp. discriminate.
Qed.

Lemma embedded_from_htsno (r r' : TariffCode) :
  embedded_from r r' -> htsno r' = htsno r.
Proof. intros [->|(e & ->)]; reflexivity. Qed.

(** A row still to embed in a later table was to embed at the start. *)
Lemma pending_rows_persist (tbl0 tbl : list TariffCode) (p : TariffCode) :
  Forall2 (job_frame tbl0) tbl0 tbl ->
  In p tbl -> pending p = true -> In p tbl0.
Proof.
  intros Hall Hin Hp.
  destruct (Forall2_In_r _ _ _ _ Hall Hin) as (p0 & Hp0 & [Hemb _]).
  rewrite (embedded_from_pending p0 p Hemb Hp). exact Hp0.
Qed.

Lemma job_frame_update (tbl0 : list TariffCode) (e : Vector) (h : JsString)
    (r r1 r2 : TariffCode) :
  (exists p, In p tbl0 /\ pending p = true /\ htsno p = Some h) ->
  job_frame tbl0 r r1 -> updated_row e h r1 r2 -> job_frame tbl0 r r2.
Proof.
  intros (p & Hp & Hpend & Hcode) [Hemb Hkeep] [Hsame Hother].
  pose proof (embedded_from_htsno r r1 Hemb) as Hh.
  destruct (htsno_is h r1) eqn:Hr1.
  - apply htsno_is_spec in Hr1. rewrite (Hsame Hr1). split.
    + destruct Hemb as [->|(e1 & ->)]; right; eexists; reflexivity.
    + intros Hno. exfalso. apply Hno. exists p.
      repeat split; try assumption. congruence.
  - assert (Hne : htsno r1 <> Some h).
    { intros H. apply htsno_is_spec in H. congruence. }
    rewrite (Hother Hne). split; assumption.
Qed.

Section RunFacts.
Variable W : World.
Variable tbl0 : list TariffCode.

Lemma for_of_frame (rows : list BatchRow) :
  (forall row, In row rows ->
     exists p, In p tbl0 /\ pending p = true /\ htsno p = Some (b_htsno row)) ->
  forall s,
    Forall2 (job_frame tbl0) tbl0 (table s) ->
    Forall2 (job_frame tbl0) tbl0
      (table (fst (for_of rows (processRow W) s))).
Proof.
  induction rows as [|row rows IH]; intros Hsrc s Hall; [exact Hall|].
  assert (Hrest : forall row', In row' rows ->
            exists p, In p tbl0 /\ pending p = true
                      /\ htsno p = Some (b_htsno row'))
    by (intros row' H; apply Hsrc; right; exact H).
  destruct (featureExtraction W (clock s) (textToEmbed row)) as [e|o] eqn:Hhf.
  - rewrite (for_of_cons _ _ _ _ _ (processRow_embedding_failed W row s e Hhf)).
    apply IH; assumption.
  - destruct (query_failure W (S (clock s))
                (UpdateQuery (flatten o) (b_htsno row))) as [e|] eqn:Hq.
    + rewrite (for_of_cons _ _ _ _ _
                 (processRow_update_failed W row s o e Hhf Hq)).
      apply IH; assumption.
    + rewrite (for_of_cons _ _ _ _ _ (processRow_embedded W row s o Hhf Hq)).
      apply IH; [exact Hrest|]. cbn [table].
      eapply Forall2_compose;
        [|exact Hall
         |apply (update_rows_Forall2 (flatten o) (b_htsno row) (table s))].
      intros r r1 r2. apply job_frame_update.
      apply Hsrc. left; reflexivity.
Qed.

Lemma for_of_job_events (rows : list BatchRow) (s : St JobLocals) :
  exists evs,
    trace (fst (for_of rows (processRow W) s)) = evs ++ trace s
    /\ forallb is_job_event evs = true.
Proof.
  revert s. induction rows as [|row rows IH]; intros s.
  - exists []. split; reflexivity.
  - destruct (processRow_events W row s) as (s1 & evs1 & Hrun & Ht & Hjob & _).
    destruct (IH s1) as (evs & Ht' & Hjob').
    exists (evs ++ evs1). rewrite (for_of_cons _ _ _ _ _ Hrun).
    rewrite Ht', Ht, app_assoc, forallb_app, Hjob, Hjob'. split; reflexivity.
Qed.

(** What every finished run of the loop has kept and done. *)
Lemma while_loop_facts (fuel total : nat) :
  forall s s' r,
    while_loop W fuel total s = Some (s', r) ->
    Forall2 (job_frame tbl0) tbl0 (table s) ->
    Forall2 (job_frame tbl0) tbl0 (table s')
    /\ (pending_count (table s') + processed (locals s')
        <= pending_count (table s) + processed (locals s))%nat
    /\ exists evs,
         trace s' = evs ++ trace s /\ forallb is_job_event evs = true.
Proof.
  induction fuel as [|fuel IH]; intros s s' r; [discriminate|].
  cbn [while_loop].
  destruct (Nat.ltb (processed (locals s)) total).
  - rewrite batch_query_run. cbn [clock table trace locals].
    destruct (query_failure W (clock s) (BatchQuery BATCH_SIZE)).
    { intros H Hall; inversion H; subst; clear H. cbn [table locals processed trace].
      split; [exact Hall|]. split; [lia|].
      exists [EvQuery (BatchQuery BATCH_SIZE)]. split; reflexivity. }
    destruct (Nat.eqb (List.length (batch_rows BATCH_SIZE (table s))) 0).
    { intros H Hall; inversion H; subst; clear H. cbn [table locals processed trace].
      split; [exact Hall|]. split; [lia|].
      exists [EvQuery (BatchQuery BATCH_SIZE)]. split; reflexivity. }
    match goal with
    | |- context [for_of _ _ ?s2] =>
        destruct (batch_progress W s2) as (s3 & Hrun & Hle);
        pose proof (for_of_frame (batch_rows BATCH_SIZE (table s2))) as Hframe;
        destruct (for_of_job_events (batch_rows BATCH_SIZE (table s2)) s2)
          as (evs2 & Hev2 & Hjob2);
        specialize (Hframe) with (s := s2)
    end.
    cbn [table locals processed trace] in Hrun, Hle, Hframe, Hev2.
    rewrite Hrun in Hframe, Hev2 |- *. cbn [fst] in Hframe, Hev2.
    intros Hloop Hall.
    assert (Hall3 : Forall2 (job_frame tbl0) tbl0 (table s3)).
    { apply Hframe; [|exact Hall].
      intros row Hrow.
      destruct (batch_rows_source (table s) row Hrow) as (p & Hp & Hbr).
      destruct (batch_row_pending p row Hbr) as [Hpend Hcode].
      exists p. repeat split; try assumption.
      apply (pending_rows_persist tbl0 (table s)); assumption. }
    destruct (IH s3 s' r Hloop Hall3) as (Hall' & Hle' & evs & Hev & Hjob).
    split; [exact Hall'|]. split; [lia|].
    exists (evs ++ evs2 ++ [EvQuery (BatchQuery BATCH_SIZE)]).
    rewrite Hev, Hev2, <- !app_assoc. split; [reflexivity|].
    rewrite !forallb_app, Hjob, Hjob2. reflexivity.
  - intros H Hall; inversion H; subst; clear H.
    split; [exact Hall|]. split; [lia|]. exists []. split; reflexivity.
Qed.
End RunFacts.

Lemma job_frame_refl (tbl : list TariffCode) :
  Forall2 (job_frame tbl) tbl tbl.
Proof.
  apply Forall2_diag. intros r. split; [left; reflexivity | reflexivity].
Qed.

(** A finished run of the job, opened up: either the count failed, or the
    loop ran from the counted total. *)
Lemma generateEmbeddings_inv (W : World) (fuel : nat) (s s' : St JobLocals) :
  generateEmbeddings W fuel s = Some s' ->
  (exists e,
     query_failure W (clock s) CountQuery = Some e
     /\ s' = mkSt (table s) (S (clock s))
               (EvPoolEnd :: EvConsoleError (lit "Fatal error:") e
                  :: EvQuery CountQuery :: trace s)
               (locals s))
  \/ (query_failure W (clock s) CountQuery = None
      /\ exists s1 r,
           while_loop W fuel (List.length (filter counted (table s)))
             (mkSt (table s) (S (clock s)) (EvQuery CountQuery :: trace s)
                fresh_locals) = Some (s1, r)
           /\ table s' = table s1
           /\ locals s' = locals s1
           /\ clock s' = clock s1
           /\ trace s'
              = EvPoolEnd
                  :: match r with
                     | inl e => [EvConsoleError (lit "Fatal error:") e]
                     | inr _ => []
                     end ++ trace s1).
Proof.
  unfold generateEmbeddings. rewrite count_query_run.
  destruct (query_failure W (clock s) CountQuery) as [e|].
  - intros H; inversion H; subst; clear H. left. exists e.
    split; reflexivity.
  - cbn [clock table trace locals]. right. split; [reflexivity|].
    change (List.length
              (filter (fun r => (indent r <=? 2) && isNull (embedding r))
                 (table s)))
      with (List.length (filter counted (table s))) in H.
    change {| processed := 0; batchNumber := 0 |} with fresh_locals in H.
    destruct (while_loop W fuel _ _) as [[s1 [e|[]]]|]; [| |discriminate].
    + inversion H; subst; clear H. exists s1, (inl e). repeat split.
    + inversion H; subst; clear H. exists s1, (inr tt). repeat split.
Qed.



(** X19. When the count succeeded, the counter [processed] that the job
    prints against the total never exceeds it: at the end of the run the
    rows processed and the rows still unembedded are together at most the
    rows counted at the start. *)
Theorem processed_within_count (W : World) (fuel : nat)
    (s s' : St JobLocals) :
  query_failure W (clock s) CountQuery = None ->
  generateEmbeddings W fuel s = Some s' ->
  (processed (locals s') + pending_count (table s')
   <= List.length (filter counted (table s)))%nat.
Proof.
  intros Hcount Hrun.
  destruct (generateEmbeddings_inv W fuel s s' Hrun)
    as [(e & He & _)|(_ & s1 & r & Hloop & -> & -> & _)]; [congruence|].
  destruct (while_loop_facts W (table s) fuel _ _ s1 r Hloop)
    as (_ & Hle & _); [apply job_frame_refl|].
  cbn [table locals processed fresh_locals] in Hle.
  pose proof (count_covers_pending (table s)) as Hc.
  change (fun r => (indent r <=? 2) && isNull (embedding r)) with counted in Hc.
  lia.
Qed.

Lemma processed_within_count_witness :
  exists s',
    generateEmbeddings (steady_world [1; 0]%Q (lit "8471") []) 2
      (initial unembedded_table fresh_locals) = Some s'
    /\ (processed (locals s') + pending_count (table s')
        <= List.length (filter counted unembedded_table))%nat.
Proof.
  eexists. split; [vm_compute; reflexivity|].
  apply (processed_within_count
           (steady_world [1; 0]%Q (lit "8471") []) 2
           (initial unembedded_table fresh_locals)).
  - reflexivity.
  - vm_compute. reflexivity.
Defined.

(** X20. Every run of the job that ends, ends by closing the pool, once,
    after everything else, fatal error or not; before that it only counts,
    selects batches, embeds, updates, waits 700 ms and logs: it never
    searches and never calls the language model. *)
Theorem job_ends_by_closing_the_pool (W : World) (fuel : nat)
    (s s' : St JobLocals) :
  generateEmbeddings W fuel s = Some s' ->
  exists evs,
    trace s' = EvPoolEnd :: evs ++ trace s
    /\ forallb is_job_event evs = true.
Proof.
  intros Hrun.
  destruct (generateEmbeddings_inv W fuel s s' Hrun)
    as [(e & _ & ->)|(_ & s1 & r & Hloop & _ & _ & _ & ->)].
  - exists [EvConsoleError (lit "Fatal error:") e; EvQuery CountQuery].
    split; reflexivity.
  - destruct (while_loop_facts W (table s) fuel _ _ s1 r Hloop)
      as (_ & _ & evs & Hev & Hjob); [apply job_frame_refl|].
    cbn [trace] in Hev.
    exists (match r with
            | inl e => [EvConsoleError (lit "Fatal error:") e]
            | inr _ => []
            end ++ evs ++ [EvQuery CountQuery]).
    rewrite Hev, <- !app_assoc. split; [reflexivity|].
    rewrite !forallb_app, Hjob. destruct r; reflexivity.
Qed.

Lemma job_ends_by_closing_the_pool_witness :
  exists s' evs,
    generateEmbeddings (embedding_down [1; 0]%Q (lit "8471") []) 1
      (initial embedded_table fresh_locals) = Some s'
    /\ trace s' = EvPoolEnd :: evs ++ []
    /\ forallb is_job_event evs = true.
Proof.
  eexists.
  assert (H : generateEmbeddings (embedding_down [1; 0]%Q (lit "8471") []) 1
                (initial embedded_table fresh_locals)
              = Some (mkSt embedded_table 2
                        [EvPoolEnd; EvQuery (BatchQuery BATCH_SIZE);
                         EvQuery CountQuery]
                        {| processed := 0; batchNumber := 1 |}))
    by (vm_compute; reflexivity).
  destruct (job_ends_by_closing_the_pool _ _ _ _ H) as (evs & Hev & Hjob).
  exists evs. split; [exact H|]. split; assumption.
Defined.

(** A failure of the count query ends the job at once, whatever the
    table: the error is logged as fatal, the pool is closed, and no batch
    is selected, no embedding call made and no row updated. *)
Lemma count_failure_is_fatal (W : World) (fuel : nat) (s : St JobLocals)
    (e : Exn) :
  query_failure W (clock s) CountQuery = Some e ->
  generateEmbeddings W fuel s
  = Some (mkSt (table s) (S (clock s))
            (EvPoolEnd :: EvConsoleError (lit "Fatal error:") e
               :: EvQuery CountQuery :: trace s)
            (locals s)).
Proof.
  intros He. unfold generateEmbeddings. rewrite count_query_run, He.
  reflexivity.
Qed.

(* ------------------------------------------------------------------ *)
(** *** Runs with services that answer *)

Section Settled.
Variable W : World.
Variable n : nat.
Hypothesis Hsettle : settles W n.

Lemma processRow_settled (row : BatchRow) (s : St JobLocals) :
  (n <= clock s)%nat ->
  exists s',
    processRow W row s = (s', inr tt)
    /\ clock s' = S (S (clock s))
    /\ processed (locals s') = S (processed (locals s))
    /\ embed_calls (trace s') = textToEmbed row :: embed_calls (trace s)
    /\ List.length (updates (trace s')) = S (List.length (updates (trace s))).
Proof.
  intros Hn.
  destruct (Hsettle (clock s) Hn) as [Hhf _].
  destruct (Hhf (textToEmbed row)) as (o & Ho).
  destruct (Hsettle (S (clock s))) as [_ Hq]; [lia|].
  rewrite (processRow_embedded W row s o Ho (Hq _)).
  eexists. split; [reflexivity|].
  unfold updates. destruct (b_descript row); cbn; split_ands; reflexivity.
Qed.

Lemma for_of_settled (rows : list BatchRow) :
  forall s,
    (n <= clock s)%nat ->
    exists s',
      for_of rows (processRow W) s = (s', inr tt)
      /\ (n <= clock s')%nat
      /\ processed (locals s')
         = (processed (locals s) + List.length rows)%nat
      /\ embed_calls (trace s')
         = rev (map textToEmbed rows) ++ embed_calls (trace s)
      /\ List.length (updates (trace s'))
         = (List.length (updates (trace s)) + List.length rows)%nat.
Proof.
  induction rows as [|row rows IH]; intros s Hn.
  - exists s. cbn. split_ands; try reflexivity; lia.
  - destruct (processRow_settled row s Hn) as (s1 & Hrun & Hc & Hp & He & Hu).
    destruct (IH s1) as (s' & Hrest & Hc' & Hp' & He' & Hu'); [lia|].
    exists s'. rewrite (for_of_cons _ _ _ _ _ Hrun).
    cbn [List.length map rev].
    split_ands; try assumption; try lia.
    rewrite He', He, <- app_assoc. reflexivity.
Qed.

Lemma while_loop_settled (fuel total : nat) :
  forall s s' r,
    (n <= clock s)%nat ->
    while_loop W fuel total s = Some (s', r) ->
    r = inr tt
    /\ (List.length (embed_calls (trace s')) + processed (locals s)
        = List.length (embed_calls (trace s)) + processed (locals s'))%nat
    /\ (List.length (updates (trace s')) + processed (locals s)
        = List.length (updates (trace s)) + processed (locals s'))%nat.
Proof.
  induction fuel as [|fuel IH]; intros s s' r Hn; [discriminate|].
  cbn [while_loop].
  destruct (Nat.ltb (processed (locals s)) total).
  - rewrite batch_query_run. cbn [clock table trace locals].
    rewrite (proj2 (Hsettle (clock s) Hn)).
    destruct (Nat.eqb (List.length (batch_rows BATCH_SIZE (table s))) 0).
    { intros H; inversion H; subst; clear H. split_ands; reflexivity. }
    match goal with
    | |- context [for_of ?rows _ ?s2] =>
        destruct (for_of_settled rows s2) as (s3 & Hrun & Hc & Hp & He & Hu);
        [cbn [clock]; lia|]
    end.
    cbn [trace locals processed] in Hp, He, Hu. rewrite Hrun.
    intros Hloop.
    destruct (IH s3 s' r Hc Hloop) as (Hr & He' & Hu').
    split; [exact Hr|].
    rewrite He, length_app, length_rev, length_map in He'.
    change (embed_calls (EvQuery (BatchQuery BATCH_SIZE) :: trace s))
      with (embed_calls (trace s)) in He'.
    change (updates (EvQuery (BatchQuery BATCH_SIZE) :: trace s))
      with (updates (trace s)) in Hu.
    split; lia.
  - intros H; inversion H; subst; clear H. split_ands; reflexivity.
Qed.
End Settled.

(** X21. With an embedding service and a database that answer every call,
    the job ends and leaves no row with indent <= 2, a code and no
    embedding.  It then made exactly one embedding call and one UPDATE per
    row processed, and processed at most as many rows as were to embed. *)
Theorem job_with_working_services (W : World) (s : St JobLocals) :
  settles W 0%nat ->
  exists fuel s',
    generateEmbeddings W fuel s = Some s'
    /\ (forall r, In r (table s') -> pending r = false)
    /\ List.length (embed_calls (trace s'))
       = (List.length (embed_calls (trace s)) + processed (locals s'))%nat
    /\ List.length (updates (trace s'))
       = (List.length (updates (trace s)) + processed (locals s'))%nat
    /\ (processed (locals s') <= pending_count (table s))%nat.
Proof.
  intros Hsettle.
  exists (S (pending_count (table s))).
  pose proof (proj2 (Hsettle (clock s) (Nat.le_0_l _)) CountQuery) as Hcount.
  set (s0 := mkSt (table s) (S (clock s)) (EvQuery CountQuery :: trace s)
               fresh_locals).
  set (total := List.length (filter counted (table s))).
  destruct (while_loop_terminates W 0 Hsettle (S (pending_count (table s)))
              total s0) as ([s1 r] & Hloop); [cbn [clock table s0]; lia|].
  destruct (while_loop_settled W 0 Hsettle _ _ s0 s1 r (Nat.le_0_l _) Hloop)
    as (-> & He & Hu).
  destruct (while_loop_facts W (table s) _ _ s0 s1 _ Hloop (job_frame_refl _))
    as (_ & Hle & _).
  assert (Hnone : pending_count (table s1) = 0%nat).
  { apply (while_loop_leaves_none W (S (pending_count (table s))) total
             s0 s1); [|exact Hloop].
    cbn [table locals processed s0 fresh_locals].
    pose proof (count_covers_pending (table s)) as Hc.
    change (fun r => (indent r <=? 2) && isNull (embedding r))
      with counted in Hc.
    fold total in Hc. lia. }
  assert (Hrun : generateEmbeddings W (S (pending_count (table s))) s
                 = Some (mkSt (table s1) (clock s1) (EvPoolEnd :: trace s1)
                           (locals s1))).
  { unfold generateEmbeddings. rewrite count_query_run, Hcount.
    cbn [clock table trace locals].
    change (List.length
              (filter (fun r => (indent r <=? 2) && isNull (embedding r))
                 (table s))) with total.
    change (mkSt (table s) (S (clock s)) (EvQuery CountQuery :: trace s)
              {| processed := 0; batchNumber := 0 |}) with s0.
    rewrite Hloop. reflexivity. }
  eexists. split; [exact Hrun|].
  cbn [table trace locals].
  unfold s0 in He, Hu, Hle.
  cbn [table locals processed trace fresh_locals] in He, Hu, Hle.
  change (embed_calls (EvQuery CountQuery :: trace s))
    with (embed_calls (trace s)) in He.
  change (updates (EvQuery CountQuery :: trace s))
    with (updates (trace s)) in Hu.
  change (embed_calls (EvPoolEnd :: trace s1)) with (embed_calls (trace s1)).
  change (updates (EvPoolEnd :: trace s1)) with (updates (trace s1)).
  split; [apply pending_count_zero, Hnone|].
  split_ands; lia.
Qed.

Lemma job_with_working_services_witness :
  exists fuel s',
    generateEmbeddings (steady_world [1; 0]%Q (lit "8471") []) fuel
      (initial unembedded_table fresh_locals) = Some s'
    /\ (forall r, In r (table s') -> pending r = false)
    /\ List.length (embed_calls (trace s'))
       = (List.length (embed_calls (@nil Event)) + processed (locals s'))%nat
    /\ List.length (updates (trace s'))
       = (List.length (updates (@nil Event)) + processed (locals s'))%nat
    /\ (processed (locals s') <= pending_count unembedded_table)%nat.
Proof.
  apply (job_with_working_services
           (steady_world [1; 0]%Q (lit "8471") [])
           (initial unembedded_table fresh_locals)).
  intros t _. split.
  - intros x. exists (HfFlat [1; 0]%Q). reflexivity.
  - intros q. reflexivity.
Defined.

(* ================================================================== *)
(** ** The candidates reported in a success bundle *)

Lemma nearest_tenth_monotone (x y : Q) :
  (x <= y)%Q -> nearest_tenth x <= nearest_tenth y.
Proof.
  intros H. unfold nearest_tenth. apply Qfloor_resp_le. lra.
Qed.

Lemma nearest_tenth_nonneg (x : Q) : (0 <= x)%Q -> 0 <= nearest_tenth x.
Proof.
  intros H. unfold nearest_tenth.
  change 0 with (Qfloor 0). apply Qfloor_resp_le. lra.
Qed.

(** Rounding to one decimal keeps the order. *)
Lemma parseFloat_toFixed1_monotone (x y : Q) :
  (x <= y)%Q -> (parseFloat_toFixed1 x <= parseFloat_toFixed1 y)%Q.
Proof.
  intros Hxy.
  unfold parseFloat_toFixed1, toFixed1_tenths, toFixed1_sign. cbv zeta.
  destruct (Qle_bool 0 x) eqn:Hx, (Qle_bool 0 y) eqn:Hy; cbn [negb].
  - pose proof (nearest_tenth_monotone x y Hxy) as H.
    rewrite Zle_Qle in H. rewrite !Qdiv_10. lra.
  - apply Qle_bool_iff in Hx.
    assert (Hneg : (y < 0)%Q).
    { apply Qnot_le_lt. intros H. apply Qle_bool_iff in H. congruence. }
    lra.
  - apply Qle_bool_iff in Hy.
    assert (Hneg : (x < 0)%Q).
    { apply Qnot_le_lt. intros H. apply Qle_bool_iff in H. congruence. }
    pose proof (nearest_tenth_nonneg (- x)) as H1.
    pose proof (nearest_tenth_nonneg y Hy) as H2.
    rewrite Zle_Qle in H1, H2.
    change (inject_Z 0) with 0%Q in H1, H2.
    rewrite !Qdiv_10. lra.
  - assert (Hyx : (- y <= - x)%Q) by lra.
    pose proof (nearest_tenth_monotone (- y) (- x) Hyx) as H.
    rewrite Zle_Qle in H. rewrite !Qdiv_10. lra.
Qed.

Lemma search_rows_sorted (W : World) (q : Vector) (k : Z)
    (tbl : list TariffCode) :
  StronglySorted ranked (search_rows W q k tbl).
Proof.
  destruct (Z.le_gt_cases 0 k) as [Hk|Hk].
  - destruct (search_sql_rows W q k tbl Hk) as (rows & Hrows & _ & Hs & _).
    unfold search_sql in Hrows.
    destruct (k <? 0); [discriminate|].
    inversion Hrows; subst. exact Hs.
  - unfold search_rows. replace (Z.to_nat k) with 0%nat by lia. constructor.
Qed.

(** X22. In a success bundle [retrieved_candidates] lists between one and
    five candidates, [retrieval_count] is their number, and they stand in
    retrieval order: the reported percentages never increase down the
    list. *)
Theorem reported_candidates_counted_and_ordered (W : World) (req : Request)
    (d : JsString) (s s' : St unit) (b : Bundle) :
  product_description req = JsStr d ->
  classify_post W req s = (s', inr (success b)) ->
  retrieval_count (metadata b) = Z.of_nat (List.length (retrieved_candidates b))
  /\ 1 <= retrieval_count (metadata b) <= 5
  /\ StronglySorted (fun a c => (rc_similarity c <= rc_similarity a)%Q)
       (retrieved_candidates b).
Proof.
  intros Hd Hrun.
  destruct (success_inv W req d s s' b Hd Hrun)
    as (s1 & candidates & s2 & c & j & Hr & Hne & _ & _ & ->).
  destruct (retrieveHTSCodes_inr W d 5 s s1 candidates Hr)
    as (o & _ & _ & _ & Hrows & _).
  cbn [metadata retrieved_candidates retrieval_count success_bundle].
  rewrite length_map. split; [reflexivity|]. split.
  - split.
    + destruct candidates; [congruence | cbn [List.length]; lia].
    + subst candidates. unfold search_rows.
      rewrite length_map.
      pose proof (firstn_le_length (Z.to_nat 5)
                    (isort order_by_leb
                       (filter_map (search_row W (flatten o)) (table s)))).
      lia.
  - pose proof (search_rows_sorted W (flatten o) 5 (table s)) as Hs.
    rewrite <- Hrows in Hs. clear - Hs.
    induction Hs as [|c0 cs Hs IH Hc0]; cbn [map]; constructor; [exact IH|].
    rewrite Forall_forall in Hc0 |- *.
    intros rc Hrc. apply in_map_iff in Hrc. destruct Hrc as (c1 & <- & Hc1).
    cbn [retrieved_candidate rc_similarity].
    apply parseFloat_toFixed1_monotone. unfold js_mul.
    apply fl64_monotone.
    destruct (Hc0 c1 Hc1) as [Hle _]. lra.
Qed.

Lemma reported_candidates_counted_and_ordered_witness :
  exists b,
    retrieval_count (metadata b)
    = Z.of_nat (List.length (retrieved_candidates b))
    /\ 1 <= retrieval_count (metadata b) <= 5
    /\ StronglySorted (fun a c => (rc_similarity c <= rc_similarity a)%Q)
         (retrieved_candidates b).
Proof.
  eexists.
  eapply (reported_candidates_counted_and_ordered
            (steady_world [1; 0]%Q (lit "8471.30") []) (request "laptop")
            (lit "laptop") (initial sample_table tt)).
  - reflexivity.
  - vm_compute. reflexivity.
Defined.

(* ================================================================== *)
(** ** The job and retrieval together *)

(** A table with nothing to embed: the job returns at once and does
    nothing to it. *)
Lemma generateEmbeddings_nothing_pending (W : World) (fuel : nat)
    (s : St JobLocals) :
  pending_count (table s) = 0%nat ->
  exists s',
    generateEmbeddings W (S fuel) s = Some s'
    /\ table s' = table s
    /\ embed_calls (trace s') = embed_calls (trace s)
    /\ updates (trace s') = updates (trace s).
Proof.
  intros H0. unfold generateEmbeddings. rewrite count_query_run.
  destruct (query_failure W (clock s) CountQuery).
  - eexists; split; [reflexivity|]. split_ands; reflexivity.
  - match goal with
    | |- context [while_loop W (S fuel) ?total ?s0] =>
        destruct (while_loop_nothing_pending W fuel total s0 H0)
          as (s' & [e|[]] & -> & Ht & He & Hu)
    end.
    + eexists; split; [reflexivity|]. io_step.
      unfold updates in *. cbn [embed_calls queries filter_map] in *.
      split_ands; assumption.
    + eexists; split; [reflexivity|]. io_step.
      unfold updates in *. cbn [embed_calls queries filter_map] in *.
      split_ands; assumption.
Qed.

(** X23. After a run of the job that ended without a fatal error, a second
    run, whatever the services then answer, ends within one pass of the
    loop, makes no embedding call, sends no UPDATE and leaves the table as
    the first run left it. *)
Theorem second_run_does_nothing (W W' : World) (fuel fuel' : nat)
    (s s1 : St JobLocals) :
  generateEmbeddings W fuel s = Some s1 ->
  ~ fatal_logged (trace s1) ->
  exists s2,
    generateEmbeddings W' (S fuel') s1 = Some s2
    /\ table s2 = table s1
    /\ embed_calls (trace s2) = embed_calls (trace s1)
    /\ updates (trace s2) = updates (trace s1).
Proof.
  intros Hrun Hclean.
  apply generateEmbeddings_nothing_pending.
  destruct (generateEmbeddings_leaves_none W fuel s s1 Hrun) as [H|H];
    [contradiction | exact H].
Qed.

Lemma second_run_does_nothing_witness :
  exists s1 s2,
    generateEmbeddings (steady_world [1; 0]%Q (lit "8471") []) 2
      (initial unembedded_table fresh_locals) = Some s1
    /\ generateEmbeddings (embedding_down [1; 0]%Q (lit "8471") []) 1 s1
       = Some s2
    /\ table s2 = table s1
    /\ embed_calls (trace s2) = embed_calls (trace s1)
    /\ updates (trace s2) = updates (trace s1).
Proof.
  destruct (generateEmbeddings (steady_world [1; 0]%Q (lit "8471") []) 2
              (initial unembedded_table fresh_locals)) as [s1|] eqn:Hrun;
    [| vm_compute in Hrun; discriminate Hrun].
  assert (Hclean : ~ fatal_logged (trace s1)).
  { pose proof Hrun as Hc. vm_compute in Hc. injection Hc as Hc.
    intros (e & Hin). rewrite <- Hc in Hin. vm_compute in Hin.
    repeat (destruct Hin as [Hin|Hin]; [discriminate Hin|]). exact Hin. }
  destruct (second_run_does_nothing
              (steady_world [1; 0]%Q (lit "8471") [])
              (embedding_down [1; 0]%Q (lit "8471") []) 2 0 _ s1 Hrun Hclean)
    as (s2 & H2).
  exists s1, s2. split; [reflexivity | exact H2].
Defined.

(** X24. After a run of the job that ended without a fatal error, every
    row with indent <= 2 and a code passes the WHERE clause of the search
    statement: the rows the job was to embed are exactly the ones
    retrieval can now return. *)
Theorem clean_run_makes_rows_retrievable (W : World) (fuel : nat)
    (s s' : St JobLocals) :
  generateEmbeddings W fuel s = Some s' ->
  ~ fatal_logged (trace s') ->
  forall r, In r (table s') ->
            (search_where r = true <-> indent r <= 2 /\ htsno r <> None).
Proof.
  intros Hrun Hclean r Hr.
  destruct (generateEmbeddings_leaves_none W fuel s s' Hrun) as [H|H];
    [contradiction|].
  pose proof (pending_count_zero (table s') H r Hr) as Hp.
  unfold pending in Hp. unfold search_where.
  destruct (Z.leb_spec (indent r) 2) as [Hi|Hi];
    destruct (embedding r) as [e|], (htsno r) as [h|]; cbn in *;
    split; try discriminate; try (intros [? ?]; try lia; congruence);
    try (intros _; split; [lia | discriminate]); try reflexivity.
Qed.

Lemma clean_run_makes_rows_retrievable_witness :
  exists s',
    generateEmbeddings (steady_world [1; 0]%Q (lit "8471") []) 2
      (initial unembedded_table fresh_locals) = Some s'
    /\ forall r, In r (table s') ->
                 (search_where r = true <-> indent r <= 2 /\ htsno r <> None).
Proof.
  eexists. split; [vm_compute; reflexivity|].
  apply (clean_run_makes_rows_retrievable
           (steady_world [1; 0]%Q (lit "8471") []) 2
           (initial unembedded_table fresh_locals)).
  - vm_compute. reflexivity.
  - intros (e & Hin). vm_compute in Hin.
    repeat (destruct Hin as [Hin|Hin]; [discriminate Hin|]). exact Hin.
Defined.
